(** * Rally MCP server: workspace resolution, story and relationship tools

    A shallow embedding of [src/rally/client.ts] (class [RallyClient]) and of
    the tool handlers of [src/handlers/tools.ts], followed by the properties
    the specification states about them.

    Modelling conventions.
    - JSON data coming from or going to the Rally service is a [value]; a
      JavaScript object is the list of its own properties in insertion order,
      an absent property reads as [VUndefined].
    - JSON numbers, story estimates included, are integers ([Z]), printed
      in decimal.
    - The body of a workspace query has the shape of the Rally web service:
      a [QueryResult] whose [Results] and [Errors], when present, are arrays;
      what the arrays hold is arbitrary.
    - A string is a sequence of characters, [includes] compares them one by
      one. [toLowerCase] folds the letters A to Z of ASCII text; on text with
      any other character its result is that of the run time's Unicode case
      tables, which are a parameter. The white space that [trim] removes
      is that of ASCII.
    - An [async] method is a state transformer over the client's fields and
      the list of HTTP requests sent so far; a rejected promise or a thrown
      exception is the [Throw] result.
    - The Rally service is a parameter: it answers every request, possibly
      depending on the requests it has seen before. *)

From Stdlib Require Import ZArith String Ascii List Bool Lia DecimalString.
Import ListNotations.
Local Open Scope string_scope.
Local Open Scope Z_scope.

Set Implicit Arguments.
Set Warnings "-register-all".

(** ** Strings *)

Definition dquote : string := String (ascii_of_nat 34) EmptyString.

Definition is_empty (s : string) : bool :=
  match s with EmptyString => true | String _ _ => false end.

(** [\d] of a JavaScript regular expression: an ASCII digit. *)
Definition is_digit (c : ascii) : bool :=
  let n := nat_of_ascii c in (48 <=? n)%nat && (n <=? 57)%nat.

Fixpoint all_digits (s : string) : bool :=
  match s with
  | EmptyString => true
  | String c t => is_digit c && all_digits t
  end.

(** [/^\d+$/.test(s)] *)
Definition test_numeric (s : string) : bool := negb (is_empty s) && all_digits s.

(** The longest prefix of digits: what a greedy [\d+] consumes. *)
Fixpoint take_digits (s : string) : string :=
  match s with
  | EmptyString => EmptyString
  | String c t => if is_digit c then String c (take_digits t) else EmptyString
  end.

Fixpoint strip_prefix (p s : string) : option string :=
  match p, s with
  | EmptyString, _ => Some s
  | String a p', String b s' => if Ascii.eqb a b then strip_prefix p' s' else None
  | String _ _, EmptyString => None
  end.

(** [s.match(/\/workspace\/(\d+)/)]: the capture group of the leftmost match,
    [None] when the pattern occurs nowhere in [s]. *)
Fixpoint match_workspace_ref (s : string) : option string :=
  let here :=
    match strip_prefix "/workspace/" s with
    | Some rest => let d := take_digits rest in if is_empty d then None else Some d
    | None => None
    end in
  match here with
  | Some d => Some d
  | None => match s with
            | EmptyString => None
            | String _ t => match_workspace_ref t
            end
  end.

Definition lower_ascii (c : ascii) : ascii :=
  let n := nat_of_ascii c in
  if (65 <=? n)%nat && (n <=? 90)%nat then ascii_of_nat (n + 32) else c.

Fixpoint fold_ascii (s : string) : string :=
  match s with
  | EmptyString => EmptyString
  | String c t => String (lower_ascii c) (fold_ascii t)
  end.

(** Text made of ASCII characters only. *)
Fixpoint is_ascii (s : string) : bool :=
  match s with
  | EmptyString => true
  | String c t => (nat_of_ascii c <? 128)%nat && is_ascii t
  end.

(** [s.toLowerCase()]. On ASCII text the letters A to Z are folded and
    nothing else changes. On text with other characters the result is the
    one of the Unicode case tables of the run time: [unicode s]. *)
Definition toLowerCase (unicode : string -> string) (s : string) : string :=
  if is_ascii s then fold_ascii s else unicode s.

(** [hay.includes(needle)] *)
Fixpoint includes (hay needle : string) : bool :=
  String.prefix needle hay ||
  match hay with
  | EmptyString => false
  | String _ t => includes t needle
  end.

Fixpoint join (sep : string) (l : list string) : string :=
  match l with
  | [] => EmptyString
  | [x] => x
  | x :: t => x ++ sep ++ join sep t
  end.

(** Decimal rendering of an integer, as [String(n)] gives it. *)
Definition string_of_Z (n : Z) : string := NilZero.string_of_int (Z.to_int n).

(** ** JavaScript values and exceptions *)

Inductive value : Type :=
| VUndefined
| VNull
| VBool (b : bool)
| VNum (n : Z)
| VStr (s : string)
| VArr (items : list value)
| VObj (fields : list (string * value)).

Inductive exn : Type :=
| AxiosError (message : string) (response : option Z) (request : bool)
| Error (message : string)
| TypeError (message : string).

Definition message (e : exn) : string :=
  match e with
  | AxiosError m _ _ => m
  | Error m => m
  | TypeError m => m
  end.

(** [axios.isAxiosError(e)] *)
Definition isAxiosError (e : exn) : bool :=
  match e with AxiosError _ _ _ => true | _ => false end.

Inductive result (A : Type) : Type :=
| Ok (a : A)
| Throw (e : exn).
Arguments Ok {A} a.
Arguments Throw {A} e.

Definition rbind {A B} (r : result A) (k : A -> result B) : result B :=
  match r with
  | Ok a => k a
  | Throw e => Throw e
  end.

Declare Scope result_scope.
Delimit Scope result_scope with result.
Notation "'let?' x ':=' r 'in' k" := (rbind r (fun x => k))
  (at level 10, x name, r at level 100, k at level 200) : result_scope.

Definition truthy (v : value) : bool :=
  match v with
  | VUndefined | VNull => false
  | VBool b => b
  | VNum n => negb (n =? 0)
  | VStr s => negb (is_empty s)
  | VArr _ | VObj _ => true
  end.

Definition is_nullish (v : value) : bool :=
  match v with VUndefined | VNull => true | _ => false end.

Fixpoint lookup (k : string) (fields : list (string * value)) : value :=
  match fields with
  | [] => VUndefined
  | (k', v) :: rest => if String.eqb k k' then v else lookup k rest
  end.

Fixpoint has_key (k : string) (fields : list (string * value)) : bool :=
  match fields with
  | [] => false
  | (k', _) :: rest => String.eqb k k' || has_key k rest
  end.

(** [o[k] = v]: an existing property keeps its place, a new one goes last. *)
Fixpoint assign (k : string) (v : value) (fields : list (string * value))
  : list (string * value) :=
  match fields with
  | [] => [(k, v)]
  | (k', v') :: rest =>
      if String.eqb k k' then (k, v) :: rest else (k', v') :: assign k v rest
  end.

(** [{...a, ...b}] *)
Definition spread (a b : list (string * value)) : list (string * value) :=
  fold_left (fun acc kv => assign (fst kv) (snd kv) acc) b a.

(** [v.k] for a property name [k] that no prototype defines. Reading a
    property of [undefined] or [null] throws. *)
Definition prop (v : value) (k : string) : result value :=
  match v with
  | VUndefined => Throw (TypeError ("Cannot read properties of undefined (reading '" ++ k ++ "')"))
  | VNull => Throw (TypeError ("Cannot read properties of null (reading '" ++ k ++ "')"))
  | VObj fields => Ok (lookup k fields)
  | _ => Ok VUndefined
  end.

(** [a || b] on values. *)
Definition or_else (a b : value) : value := if truthy a then a else b.

(** [ToString], as a template literal applies it. A plain object prints as
    [[object Object]] unless it has an own (so not callable) [toString]
    property, in which case the conversion throws; an array joins its items
    with commas, [null] and [undefined] items printing as nothing. *)
Fixpoint to_string (v : value) : option string :=
  match v with
  | VUndefined => Some "undefined"
  | VNull => Some "null"
  | VBool true => Some "true"
  | VBool false => Some "false"
  | VNum n => Some (string_of_Z n)
  | VStr s => Some s
  | VArr items =>
      (fix items_to_string (l : list value) : option string :=
         match l with
         | [] => Some EmptyString
         | x :: t =>
             match (if is_nullish x then Some EmptyString else to_string x),
                   items_to_string t with
             | Some sx, Some st =>
                 Some (match t with [] => sx | _ :: _ => sx ++ "," ++ st end)
             | _, _ => None
             end
         end) items
  | VObj fields =>
      if has_key "toString" fields then None else Some "[object Object]"
  end.

Definition ToString (v : value) : result string :=
  match to_string v with
  | Some s => Ok s
  | None => Throw (TypeError "Cannot convert object to primitive value")
  end.

(** ** HTTP requests and the Rally service *)

Inductive method : Type := GET | POST | DELETE.

Record request : Type := {
  meth : method;
  url : string;
  params : list (string * value);
  body : value
}.

Record response (A : Type) : Type := { status : Z; data : A }.

(** What comes back for a request: an HTTP response, or nothing (the network
    failed or the client's own 60 second timeout expired); [axios] turns it
    into a resolved or a rejected promise. *)
Inductive http (A : Type) : Type :=
| Response (st : Z) (d : A)
| NoResponse (msg : string).
Arguments NoResponse {A} msg.

Definition axios_settle {A} (h : http A) : result (response A) :=
  match h with
  | Response st d =>
      if (200 <=? st) && (st <? 300) then Ok {| status := st; data := d |}
      else Throw (AxiosError ("Request failed with status code " ++ string_of_Z st)
                             (Some st) true)
  | NoResponse msg => Throw (AxiosError msg None true)
  end.

(** [Promise.race([request, timer])]: [None] is a request still pending when
    the 30 second timer fires. *)
Definition race {A} (timeout_message : string) (reply : option (http A))
  : result (response A) :=
  match reply with
  | Some h => axios_settle h
  | None => Throw (Error timeout_message)
  end.

(** The body of a workspace query, [data.QueryResult]: [Results] and [Errors]
    are arrays when present. [None] stands for a body without a
    [QueryResult]. *)
Record QueryResult : Type := {
  Results : option (list value);
  Errors : option (list value)
}.

(** What surrounds a client: the service, which answers from the requests
    it has seen so far, and the run time. *)
Record backend : Type := {
  subscription : list request -> option (http value);
  workspaces : list request -> request -> option (http (option QueryResult));
  artifacts : list request -> request -> http value;
  (* whether the 30 second timer of the updateStory tool fires before the
     update that produced these requests has completed *)
  update_timer_fires : list request -> bool;
  (* [String.prototype.toLowerCase] on text that is not all ASCII *)
  unicode_toLowerCase : string -> string
}.

(** ** The client object and the monad of its methods *)

Record config : Type := {
  rallyApiKey : string;
  rallyWorkspace : string;
  rallyProject : option string
}.

Record RallyClient : Type := {
  workspace : string;
  workspaceRef : option string;
  project : option string;
  workspaceIsNumeric : bool
}.

(** [new RallyClient(config)] *)
Definition new_RallyClient (c : config) : RallyClient :=
  {| workspace := rallyWorkspace c;
     workspaceRef := None;
     project := rallyProject c;
     workspaceIsNumeric := test_numeric (rallyWorkspace c) |}.

Record world : Type := {
  this : RallyClient;
  sent : list request;
  rally : backend
}.

Definition M (A : Type) : Type := world -> result A * world.

Definition ret {A} (a : A) : M A := fun w => (Ok a, w).

Definition bind {A B} (m : M A) (k : A -> M B) : M B :=
  fun w => match m w with
           | (Ok a, w') => k a w'
           | (Throw e, w') => (Throw e, w')
           end.

Definition throw {A} (e : exn) : M A := fun w => (Throw e, w).

Definition lift {A} (r : result A) : M A := fun w => (r, w).

(** [try { m } catch (e) { h e }] *)
Definition try_catch {A} (m : M A) (h : exn -> M A) : M A :=
  fun w => match m w with
           | (Ok a, w') => (Ok a, w')
           | (Throw e, w') => h e w'
           end.

Declare Scope client_scope.
Delimit Scope client_scope with client.
Notation "x <- m ;; k" := (bind m (fun x => k))
  (at level 61, m at next level, right associativity) : client_scope.
Notation "m ;; k" := (bind m (fun _ => k))
  (at level 61, right associativity) : client_scope.
Local Open Scope client_scope.
Local Open Scope result_scope.

Definition self : M RallyClient := fun w => (Ok (this w), w).

Definition set_workspaceRef (r : string) : M unit :=
  fun w =>
    (Ok tt,
     {| this := {| workspace := workspace (this w);
                   workspaceRef := Some r;
                   project := project (this w);
                   workspaceIsNumeric := workspaceIsNumeric (this w) |};
        sent := sent w;
        rally := rally w |}).

Definition record (r : request) (w : world) : world :=
  {| this := this w; sent := (sent w ++ [r])%list; rally := rally w |}.

Definition subscription_request : request :=
  {| meth := GET; url := "/subscription"; params := []; body := VUndefined |}.

Definition workspace_request (query : option string) : request :=
  {| meth := GET; url := "/workspace";
     params := match query with
               | Some q => [("query", VStr q)]
               | None => []
               end;
     body := VUndefined |}.

(** The three raced requests of [validateCredentials]. *)
Definition get_subscription : M (response value) :=
  fun w =>
    (race "Subscription request timed out after 30 seconds"
          (subscription (rally w) (sent w)),
     record subscription_request w).

Definition get_workspace (timeout_message : string) (query : option string)
  : M (response (option QueryResult)) :=
  fun w =>
    (race timeout_message (workspaces (rally w) (sent w) (workspace_request query)),
     record (workspace_request query) w).

(** A request on the client's axios instance that is not raced. *)
Definition call (r : request) : M (response value) :=
  fun w => (axios_settle (artifacts (rally w) (sent w) r), record r w).

(** ** [RallyClient.validateCredentials] *)

Record outcome : Type := { valid : bool; error : option string }.

(** A substitution [${e}] of a template literal: evaluate [e], then convert. *)
Definition subst (e : result value) : result string :=
  let? v := e in ToString v.

(** The callback given to [Results.find]:
    [w => w.Name && w.Name.toLowerCase().includes(token.toLowerCase())]. *)
Definition name_matches (unicode : string -> string) (token : string) (w : value)
  : result bool :=
  let? name := prop w "Name" in
  if truthy name then
    match name with
    | VStr s => Ok (includes (toLowerCase unicode s) (toLowerCase unicode token))
    | _ => Throw (TypeError "w.Name.toLowerCase is not a function")
    end
  else Ok false.

(** [Array.prototype.find]: the first item the callback accepts, else
    [undefined]. *)
Fixpoint find (f : value -> result bool) (l : list value) : result value :=
  match l with
  | [] => Ok VUndefined
  | x :: t => let? b := f x in if b then Ok x else find f t
  end.

(** The [forEach] that prints every listed workspace. *)
Fixpoint log_workspaces (l : list value) : result unit :=
  match l with
  | [] => Ok tt
  | ws :: t =>
      let? _ := subst (prop ws "ObjectID") in
      let? _ := subst (prop ws "Name") in
      let? _ := subst (prop ws "_ref") in
      log_workspaces t
  end.

(** The identifier of the first listed workspace: its [ObjectID], or when
    that is missing the digits found in its [_ref]. *)
Definition first_workspace_id (firstWorkspace : value) : result value :=
  let? workspaceId := prop firstWorkspace "ObjectID" in
  if truthy workspaceId then Ok workspaceId
  else
    let? ref := prop firstWorkspace "_ref" in
    if truthy ref then
      match ref with
      | VStr s =>
          match match_workspace_ref s with
          | Some digits => Ok (VStr digits)
          | None => Ok workspaceId
          end
      | _ => Throw (TypeError "firstWorkspace._ref.match is not a function")
      end
    else Ok workspaceId.

(** [Errors.join('; ')] *)
Fixpoint items_to_strings (l : list value) : result (list string) :=
  match l with
  | [] => Ok []
  | x :: t =>
      let? sx := (if is_nullish x then Ok EmptyString else ToString x) in
      let? st := items_to_strings t in
      Ok (sx :: st)
  end.

(** [d.QueryResult && d.QueryResult.Results && d.QueryResult.Results.length > 0],
    giving the array. *)
Definition found_results (d : option QueryResult) : option (list value) :=
  match d with
  | Some {| Results := Some (w :: rest) |} => Some (w :: rest)
  | _ => None
  end.

Definition found_errors (d : option QueryResult) : option (list value) :=
  match d with
  | Some {| Errors := Some (e :: rest) |} => Some (e :: rest)
  | _ => None
  end.

(** The message returned when the first listed workspace is taken:
    [`Specified workspace "${this.workspace}" not found, using
    "${firstWorkspace.Name}" (${workspaceId}) instead`]. *)
Definition advisory (token name id : string) : string :=
  "Specified workspace " ++ dquote ++ token ++ dquote ++ " not found, using "
  ++ dquote ++ name ++ dquote ++ " (" ++ id ++ ") instead".

Module Client.

(** The query of the first workspace request, by identifier or by name. *)
Definition workspaceQuery (me : RallyClient) : string :=
  if workspaceIsNumeric me
  then "(ObjectID = " ++ workspace me ++ ")"
  else "(Name = " ++ dquote ++ workspace me ++ dquote ++ ")".

(** What the method does with the workspace the exact query found, and
    with the workspace whose name contains the token: print its name and
    identifier, keep its reference, report success. *)
Definition use_workspace (found : value) : M outcome :=
  _ <- lift (subst (prop found "Name")) ;;
  _ <- lift (subst (prop found "ObjectID")) ;;
  id <- lift (subst (prop found "ObjectID")) ;;
  set_workspaceRef ("/workspace/" ++ id) ;;
  ret {| valid := true; error := None |}.

(** What it does when nothing matched: print the list, take its first
    entry, and report success together with a message. *)
Definition use_first_workspace (me : RallyClient) (workspaces : list value) : M outcome :=
  lift (log_workspaces workspaces) ;;
  let firstWorkspace := hd VUndefined workspaces in
  workspaceId <- lift (first_workspace_id firstWorkspace) ;;
  id <- lift (ToString workspaceId) ;;
  set_workspaceRef ("/workspace/" ++ id) ;;
  name <- lift (subst (prop firstWorkspace "Name")) ;;
  id' <- lift (ToString workspaceId) ;;
  ret {| valid := true; error := Some (advisory (workspace me) name id') |}.

(** [Results.find(w => w.Name && w.Name.toLowerCase().includes(...))], in
    the run time of the client. *)
Definition find_matching (token : string) (workspaces : list value) : M value :=
  fun w => (find (name_matches (unicode_toLowerCase (rally w)) token) workspaces, w).

(** The workspace part of [validateCredentials], the body of its inner [try]. *)
Definition check_workspace : M outcome :=
  me <- self ;;
  workspaceCheck <-
    get_workspace "Workspace request timed out after 30 seconds"
                  (Some (workspaceQuery me)) ;;
  match found_results (data workspaceCheck) with
  | Some results => use_workspace (hd VUndefined results)
  | None =>
      workspaceList <-
        get_workspace "Workspace listing timed out after 30 seconds" None ;;
      match found_results (data workspaceList) with
      | Some workspaces =>
          matchingWorkspace <-
            (if negb (workspaceIsNumeric me) && negb (is_empty (workspace me))
             then find_matching (workspace me) workspaces
             else ret VUndefined) ;;
          if truthy matchingWorkspace then use_workspace matchingWorkspace
          else use_first_workspace me workspaces
      | None =>
          match found_errors (data workspaceList) with
          | Some errs =>
              strs <- lift (items_to_strings errs) ;;
              let errors := join "; " strs in
              ret {| valid := false;
                     error := Some ("Workspace listing failed: " ++ errors) |}
          | None =>
              ret {| valid := false;
                     error := Some "No accessible workspaces found with this API key" |}
          end
      end
  end.

(** The handler of the inner [catch]. *)
Definition workspace_failed (workspaceError : exn) : M outcome :=
  ret {| valid := false;
         error := Some ("Error checking workspace: " ++ message workspaceError) |}.

(** The handler of the outer [catch]. *)
Definition validation_failed (e : exn) : M outcome :=
  match e with
  | AxiosError msg (Some st) _ =>
      if st =? 401 then
        ret {| valid := false; error := Some "Authentication failed - invalid API key" |}
      else
        ret {| valid := false;
               error := Some ("Request failed with status " ++ string_of_Z st
                              ++ ": " ++ msg) |}
  | AxiosError _ None true =>
      ret {| valid := false;
             error := Some "No response from Rally API server - network issue or service unavailable" |}
  | _ =>
      ret {| valid := false;
             error := Some ("Failed to validate credentials: " ++ message e) |}
  end.

Definition validateCredentials : M outcome :=
  try_catch
    (response <- get_subscription ;;
     if (status response =? 200) && truthy (data response) then
       try_catch check_workspace workspace_failed
     else
       ret {| valid := false;
              error := Some ("Unexpected response from Rally API: "
                             ++ string_of_Z (status response)) |})
    validation_failed.

(** *** Story and relationship methods

    The parameter the source calls [data] is called [fields] here. *)

(** [if (!this.workspaceRef) { await this.validateCredentials(); }], the
    first statement of every method below. *)
Definition no_reference (r : option string) : bool :=
  match r with
  | None => true
  | Some s => is_empty s
  end.

Definition ensureWorkspace : M unit :=
  me <- self ;;
  if no_reference (workspaceRef me) then _ <- validateCredentials ;; ret tt
  else ret tt.

Definition ref_value (r : option string) : value :=
  match r with
  | Some s => VStr s
  | None => VUndefined
  end.

(** [this.project ? `/project/${this.project}` : undefined] *)
Definition project_path (me : RallyClient) : value :=
  match project me with
  | Some p => if is_empty p then VUndefined else VStr ("/project/" ++ p)
  | None => VUndefined
  end.

(** The [catch] of every method: an axios error is replaced by an error
    naming the operation, anything else is thrown again. *)
Definition rethrow {A} (prefix : string) (e : exn) : M A :=
  if isAxiosError e then throw (Error (prefix ++ message e)) else throw e.

Definition string_params (q : list (string * string)) : list (string * value) :=
  map (fun kv => (fst kv, VStr (snd kv))) q.

Definition getStories (queryParams : list (string * string)) : M value :=
  try_catch
    (ensureWorkspace ;;
     me <- self ;;
     response <-
       call {| meth := GET; url := "/HierarchicalRequirement";
               params := spread [("workspace", ref_value (workspaceRef me));
                                 ("project", project_path me)]
                                (string_params queryParams);
               body := VUndefined |} ;;
     ret (data response))
    (rethrow "Failed to fetch stories: ").

Definition getStory (id : string) : M value :=
  try_catch
    (ensureWorkspace ;;
     me <- self ;;
     response <-
       call {| meth := GET; url := "/HierarchicalRequirement/" ++ id;
               params := [("workspace", ref_value (workspaceRef me));
                          ("project", project_path me)];
               body := VUndefined |} ;;
     ret (data response))
    (rethrow ("Failed to fetch story " ++ id ++ ": ")).

(** [this.project ? { _ref: `/project/${this.project}` } : undefined] *)
Definition default_project (me : RallyClient) : value :=
  match project me with
  | Some p => if is_empty p then VUndefined else VObj [("_ref", VStr ("/project/" ++ p))]
  | None => VUndefined
  end.

(** [data.Project || (this.project ? { _ref: ... } : undefined)] *)
Definition story_project (me : RallyClient) (fields : list (string * value)) : value :=
  or_else (lookup "Project" fields) (default_project me).

Definition createStory (fields : list (string * value)) : M value :=
  try_catch
    (ensureWorkspace ;;
     me <- self ;;
     response <-
       call {| meth := POST; url := "/HierarchicalRequirement/create";
               params := [];
               body :=
                 VObj [("HierarchicalRequirement",
                        VObj (assign "Project" (story_project me fields)
                                (assign "Workspace"
                                   (VObj [("_ref", ref_value (workspaceRef me))])
                                   fields)))] |} ;;
     created <- lift (prop (data response) "CreateResult") ;;
     lift (prop created "Object"))
    (rethrow "Failed to create story: ").

Definition updateStory (id : string) (fields : list (string * value)) : M value :=
  try_catch
    (ensureWorkspace ;;
     response <-
       call {| meth := POST; url := "/HierarchicalRequirement/" ++ id;
               params := [];
               body := VObj [("HierarchicalRequirement", VObj fields)] |} ;;
     ret (data response))
    (rethrow ("Failed to update story " ++ id ++ ": ")).

Definition deleteStory (id : string) : M value :=
  try_catch
    (ensureWorkspace ;;
     response <-
       call {| meth := DELETE; url := "/HierarchicalRequirement/" ++ id;
               params := []; body := VUndefined |} ;;
     ret (data response))
    (rethrow ("Failed to delete story " ++ id ++ ": ")).

Definition relationship_fields : string :=
  "Predecessors,Successors,Children,Parent,Blocked,Blocker,Duplicates".

Definition getRelationships (artifactId : string) : M value :=
  try_catch
    (ensureWorkspace ;;
     me <- self ;;
     response <-
       call {| meth := GET; url := "/HierarchicalRequirement/" ++ artifactId;
               params := [("fetch", VStr relationship_fields);
                          ("workspace", ref_value (workspaceRef me))];
               body := VUndefined |} ;;
     ret (data response))
    (rethrow ("Failed to get relationships for " ++ artifactId ++ ": ")).

(** The [switch] over the relationship type, shared word for word by
    [createRelationship] and [removeRelationship]. *)
Definition collection_of (relationshipType : string) : result string :=
  if String.eqb relationshipType "Predecessor" then Ok "Predecessors"
  else if String.eqb relationshipType "Successor" then Ok "Successors"
  else if String.eqb relationshipType "Parent" then Ok "Parent"
  else if String.eqb relationshipType "Child" then Ok "Children"
  else if String.eqb relationshipType "Blocker" then Ok "Blockers"
  else if String.eqb relationshipType "Blocked" then Ok "Blocked"
  else if String.eqb relationshipType "Duplicate" then Ok "Duplicates"
  else if String.eqb relationshipType "Duplicated" then Ok "Duplicated"
  else Throw (Error ("Unsupported relationship type: " ++ relationshipType)).

(** [['Parent'].includes(collectionName)] *)
Definition isSingleReference (collectionName : string) : bool :=
  existsb (String.eqb collectionName) ["Parent"].

Definition artifactType : string := "HierarchicalRequirement".

Definition artifact_ref (id : string) : value :=
  VStr ("/" ++ artifactType ++ "/" ++ id).

Definition createRelationship (sourceId targetId relationshipType : string) : M value :=
  try_catch
    (ensureWorkspace ;;
     collectionName <- lift (collection_of relationshipType) ;;
     let updateData :=
       if isSingleReference collectionName then
         VObj [(artifactType,
                VObj [(collectionName, VObj [("_ref", artifact_ref targetId)])])]
       else
         VObj [(artifactType,
                VObj [(collectionName,
                       VObj [("_type", VStr "add");
                             ("_ref", artifact_ref targetId)])])] in
     response <-
       call {| meth := POST; url := "/" ++ artifactType ++ "/" ++ sourceId;
               params := []; body := updateData |} ;;
     ret (data response))
    (rethrow "Failed to create relationship: ").

Definition removeRelationship (sourceId targetId relationshipType : string) : M value :=
  try_catch
    (ensureWorkspace ;;
     collectionName <- lift (collection_of relationshipType) ;;
     let updateData :=
       if isSingleReference collectionName then
         VObj [(artifactType, VObj [(collectionName, VNull)])]
       else
         VObj [(artifactType,
                VObj [(collectionName,
                       VObj [("_type", VStr "remove");
                             ("_ref", artifact_ref targetId)])])] in
     response <-
       call {| meth := POST; url := "/" ++ artifactType ++ "/" ++ sourceId;
               params := []; body := updateData |} ;;
     ret (data response))
    (rethrow "Failed to remove relationship: ").

End Client.

(** ** The tool handlers *)

(** What a handler returns: [{ content: [{ type: 'text', text }], isError }].
    [TextJson s v] is the text [s] followed by [JSON.stringify(v, null, 2)]. *)
Inductive text : Type :=
| Text (s : string)
| TextJson (s : string) (json : value).

Record tool_result : Type := { content : text; isError : bool }.

Definition success (s : string) : tool_result := {| content := Text s; isError := false |}.
Definition failure (s : string) : tool_result := {| content := Text s; isError := true |}.

(** A handler never lets an exception out: its [catch] turns it into a
    result. The progress notifications the handlers send go to the MCP
    client, not to Rally, and are left out. *)
Definition handler (prefix : string) (m : M tool_result) : M tool_result :=
  try_catch m (fun e => ret (failure (prefix ++ message e))).

Definition opt_str (o : option string) : value :=
  match o with
  | Some s => VStr s
  | None => VUndefined
  end.

Definition opt_num (o : option Z) : value :=
  match o with
  | Some n => VNum n
  | None => VUndefined
  end.

Module Tools.

Record createStory_args : Type := {
  cs_name : string;
  cs_description : option string;
  cs_projectId : option string;
  cs_state : option string;
  cs_estimate : option Z;
  cs_priority : option string
}.

(** [if (x) storyData.K = v] *)
Definition set_if_truthy (k : string) (x v : value) (o : list (string * value))
  : list (string * value) :=
  if truthy x then assign k v o else o.

(** The [storyData] object the handler builds and hands to the client. *)
Definition storyData (a : createStory_args) : list (string * value) :=
  let projectId := opt_str (cs_projectId a) in
  let project_ref :=
    VObj [("_ref", VStr ("/project/" ++ match cs_projectId a with
                                         | Some p => p
                                         | None => "undefined"
                                         end))] in
  set_if_truthy "Priority" (opt_str (cs_priority a)) (opt_str (cs_priority a))
    (set_if_truthy "PlanEstimate" (opt_num (cs_estimate a)) (opt_num (cs_estimate a))
       (set_if_truthy "ScheduleState" (opt_str (cs_state a)) (opt_str (cs_state a))
          (set_if_truthy "Project" projectId project_ref
             [("Name", VStr (cs_name a));
              ("Description", opt_str (cs_description a))]))).

Definition createStory (a : createStory_args) : M tool_result :=
  handler "Error creating story: "
    (created <- Client.createStory (storyData a) ;;
     id <- lift (subst (prop created "FormattedID")) ;;
     ret (success ("Successfully created story " ++ dquote ++ cs_name a ++ dquote
                   ++ " with ID " ++ id))).

Record updateStory_args : Type := {
  us_id : string;
  us_name : option string;
  us_description : option string;
  us_state : option string;
  us_estimate : option Z;
  us_priority : option string
}.

(** [if (x !== undefined) updateData.K = x] *)
Definition set_if_defined (k : string) (v : value) (o : list (string * value))
  : list (string * value) :=
  match v with
  | VUndefined => o
  | _ => assign k v o
  end.

Definition updateData (a : updateStory_args) : list (string * value) :=
  set_if_defined "Priority" (opt_str (us_priority a))
    (set_if_defined "PlanEstimate" (opt_num (us_estimate a))
       (set_if_defined "ScheduleState" (opt_str (us_state a))
          (set_if_defined "Description" (opt_str (us_description a))
             (set_if_defined "Name" (opt_str (us_name a)) [])))).

(** [Promise.race([rallyClient.updateStory(...), timer])]: the update runs
    in any case; the timer decides whether its result is still awaited. *)
Definition race_update (m : M value) : M value :=
  fun w =>
    match m w with
    | (r, w') =>
        if update_timer_fires (rally w') (sent w')
        then (Throw (Error "Story update timed out after 30 seconds"), w')
        else (r, w')
    end.

Definition updateStory (a : updateStory_args) : M tool_result :=
  handler "Error updating story: "
    (if (length (updateData a) =? 0)%nat then
       ret (failure "No fields provided for update. Story was not modified.")
     else
       _ <- race_update (Client.updateStory (us_id a) (updateData a)) ;;
       ret (success ("Successfully updated story " ++ us_id a))).

Definition deleteStory (id : string) : M tool_result :=
  handler "Error deleting story: "
    (_ <- Client.deleteStory id ;;
     ret (success ("Successfully deleted story " ++ id))).

Definition createRelationship (sourceId targetId relationshipType : string)
  : M tool_result :=
  handler "Error creating relationship: "
    (if String.eqb sourceId targetId then
       ret (failure "Source and target cannot be the same artifact.")
     else
       _ <- Client.createRelationship sourceId targetId relationshipType ;;
       ret (success ("Successfully created " ++ relationshipType
                     ++ " relationship from " ++ sourceId ++ " to " ++ targetId))).

Definition removeRelationship (sourceId targetId relationshipType : string)
  : M tool_result :=
  handler "Error removing relationship: "
    (_ <- Client.removeRelationship sourceId targetId relationshipType ;;
     ret (success ("Successfully removed " ++ relationshipType
                   ++ " relationship from " ++ sourceId ++ " to " ++ targetId))).

(** One step of the snapshot:
    [if (artifact.F) { relationships.F = artifact.F._tagsNameArray || []; }] *)
Definition read_collection (field : string) (artifact : value)
    (relationships : list (string * value)) : result (list (string * value)) :=
  let? c := prop artifact field in
  if truthy c then
    let? names := prop c "_tagsNameArray" in
    Ok (assign field (or_else names (VArr [])) relationships)
  else Ok relationships.

(** [if (artifact.Parent) { relationships.Parent = artifact.Parent._refObjectName; }] *)
Definition read_parent (artifact : value) (relationships : list (string * value))
  : result (list (string * value)) :=
  let? p := prop artifact "Parent" in
  if truthy p then
    let? name := prop p "_refObjectName" in
    Ok (assign "Parent" name relationships)
  else Ok relationships.

(** The [relationships] object built from what the client returned. *)
Definition relationships_of (raw : value) : result (list (string * value)) :=
  let? hr := prop raw "HierarchicalRequirement" in
  let artifact := or_else hr (VObj []) in
  let? r1 := read_collection "Predecessors" artifact [] in
  let? r2 := read_collection "Successors" artifact r1 in
  let? r3 := read_collection "Children" artifact r2 in
  let? r4 := read_parent artifact r3 in
  let? r5 := read_collection "Blocked" artifact r4 in
  let? r6 := read_collection "Blocker" artifact r5 in
  read_collection "Duplicates" artifact r6.

Definition getRelationships (artifactId : string) : M tool_result :=
  handler "Error getting relationships: "
    (raw <- Client.getRelationships artifactId ;;
     relationships <- lift (relationships_of raw) ;;
     ret {| content := TextJson ("Relationships for " ++ artifactId ++ ":"
                                 ++ String (ascii_of_nat 10) EmptyString)
                                (VObj relationships);
            isError := false |}).

End Tools.

(** ** Vocabulary of the specification *)

(** The TypeScript type [RelationshipType]. *)
Inductive RelationshipType : Type :=
| Predecessor | Successor | Child | Parent
| Blocker | Blocked | Duplicate | Duplicated.

Definition type_name (k : RelationshipType) : string :=
  match k with
  | Predecessor => "Predecessor"
  | Successor => "Successor"
  | Child => "Child"
  | Parent => "Parent"
  | Blocker => "Blocker"
  | Blocked => "Blocked"
  | Duplicate => "Duplicate"
  | Duplicated => "Duplicated"
  end.

(** The [z.enum] of the relationship tools' schema. *)
Definition relationship_types : list string :=
  ["Predecessor"; "Successor"; "Parent"; "Child";
   "Blocker"; "Blocked"; "Duplicate"; "Duplicated"].

Definition schema_accepts (relationshipType : string) : bool :=
  existsb (String.eqb relationshipType) relationship_types.

(** The mapping table of the specification (section 4.2), written from its
    words to be compared with the methods. *)
Inductive cardinality : Type := single | multi.

Definition spec_collection (k : RelationshipType) : string :=
  match k with
  | Predecessor => "Predecessors"
  | Successor => "Successors"
  | Parent => "Parent"
  | Child => "Children"
  | Blocker => "Blockers"
  | Blocked => "Blocked"
  | Duplicate => "Duplicates"
  | Duplicated => "Duplicated"
  end.

Definition spec_cardinality (k : RelationshipType) : cardinality :=
  match k with
  | Parent => single
  | _ => multi
  end.

Inductive mutation : Type := Add | Remove.

Definition spec_payload (k : RelationshipType) (op : mutation) (targetId : string) : value :=
  let target := VStr ("/HierarchicalRequirement/" ++ targetId) in
  match spec_cardinality k, op with
  | single, Add => VObj [("_ref", target)]
  | single, Remove => VNull
  | multi, Add => VObj [("_type", VStr "add"); ("_ref", target)]
  | multi, Remove => VObj [("_type", VStr "remove"); ("_ref", target)]
  end.

Definition spec_request (k : RelationshipType) (op : mutation) (sourceId targetId : string)
  : request :=
  {| meth := POST;
     url := "/HierarchicalRequirement/" ++ sourceId;
     params := [];
     body := VObj [("HierarchicalRequirement",
                    VObj [(spec_collection k, spec_payload k op targetId)])] |}.

(** The story and relationship operations of a client. *)
Inductive operation : Type :=
| GetStories (queryParams : list (string * string))
| GetStory (id : string)
| CreateStory (fields : list (string * value))
| UpdateStory (id : string) (fields : list (string * value))
| DeleteStory (id : string)
| GetRelationships (artifactId : string)
| CreateRelationship (sourceId targetId relationshipType : string)
| RemoveRelationship (sourceId targetId relationshipType : string).

Definition perform (op : operation) : M value :=
  match op with
  | GetStories q => Client.getStories q
  | GetStory id => Client.getStory id
  | CreateStory fields => Client.createStory fields
  | UpdateStory id fields => Client.updateStory id fields
  | DeleteStory id => Client.deleteStory id
  | GetRelationships id => Client.getRelationships id
  | CreateRelationship s t k => Client.createRelationship s t k
  | RemoveRelationship s t k => Client.removeRelationship s t k
  end.

(** A request on the story endpoint, as opposed to the two endpoints that
    workspace resolution queries. *)
Definition story_request (r : request) : bool :=
  String.prefix "/HierarchicalRequirement" (url r).

(** A freshly constructed client facing a service. *)
Definition start (c : config) (b : backend) : world :=
  {| this := new_RallyClient c; sent := []; rally := b |}.

(** The worlds a client can be in: after construction, after a validation
    (the server starts one at startup) and after any operation. *)
Inductive reachable (c : config) (b : backend) : world -> Prop :=
| reach_start : reachable c b (start c b)
| reach_validate w :
    reachable c b w -> reachable c b (snd (Client.validateCredentials w))
| reach_perform op w :
    reachable c b w -> reachable c b (snd (perform op w)).

Definition succeeded (r : result outcome) : bool :=
  match r with
  | Ok o => valid o
  | Throw _ => false
  end.

(** [r] is the reference a successful resolution left in the client. *)
Definition established (c : config) (b : backend) (r : string) : Prop :=
  exists w0,
    reachable c b w0 /\
    succeeded (fst (Client.validateCredentials w0)) = true /\
    workspaceRef (this (snd (Client.validateCredentials w0))) = Some r.

(** The replies the service gives to the three requests of a validation
    started in [w]. *)
Definition ping_reply (w : world) : option (http value) :=
  subscription (rally w) (sent w).

Definition exact_reply (w : world) : option (http (option QueryResult)) :=
  workspaces (rally w) (sent w ++ [subscription_request])%list
             (workspace_request (Some (Client.workspaceQuery (this w)))).

Definition list_reply (w : world) : option (http (option QueryResult)) :=
  workspaces (rally w)
             (sent w ++ [subscription_request;
                         workspace_request (Some (Client.workspaceQuery (this w)))])%list
             (workspace_request None).

Definition ping_ok (w : world) : bool :=
  match race EmptyString (ping_reply w) with
  | Ok resp => (status resp =? 200) && truthy (data resp)
  | Throw _ => false
  end.

(** The workspaces a reply lists; [None] when the request failed. *)
Definition listing (reply : option (http (option QueryResult))) : option (list value) :=
  match race EmptyString reply with
  | Ok resp => Some (match found_results (data resp) with
                     | Some l => l
                     | None => []
                     end)
  | Throw _ => None
  end.

Definition reported_errors (reply : option (http (option QueryResult))) : list value :=
  match race EmptyString reply with
  | Ok resp => match found_errors (data resp) with
               | Some l => l
               | None => []
               end
  | Throw _ => []
  end.

(** The HTTP status of a reply that is an error response. *)
Definition error_status {A} (reply : option (http A)) : option Z :=
  match reply with
  | Some (Response st _) => if (200 <=? st) && (st <? 300) then None else Some st
  | _ => None
  end.

Definition no_response {A} (reply : option (http A)) : bool :=
  match reply with
  | Some (NoResponse _) => true
  | _ => false
  end.

(** The world in which the workspace check decides: the ping and the exact
    query have been sent, and the listing too if it was needed. *)
Definition after_exact_query (w : world) : world :=
  record (workspace_request (Some (Client.workspaceQuery (this w))))
         (record subscription_request w).

Definition after_listing (w : world) : world :=
  record (workspace_request None) (after_exact_query w).

(** How a validation started in [w] comes to adopt the workspace [found]:
    the query by identifier or by name lists it first, or that query lists
    nothing, the token is a name, and [found] is the first listed workspace
    whose name contains the token. *)
Inductive matched (w : world) (found : value) : Prop :=
| matched_exactly rest :
    listing (exact_reply w) = Some (found :: rest) ->
    matched w found
| matched_by_substring l :
    workspaceIsNumeric (this w) = false ->
    is_empty (workspace (this w)) = false ->
    listing (exact_reply w) = Some [] ->
    listing (list_reply w) = Some l ->
    find (name_matches (unicode_toLowerCase (rally w)) (workspace (this w))) l = Ok found ->
    truthy found = true ->
    matched w found.

(** No listed workspace has a name that contains the token, or the token
    is not a name. *)
Definition unmatched (w : world) (l : list value) : bool :=
  if negb (workspaceIsNumeric (this w)) && negb (is_empty (workspace (this w)))
  then match find (name_matches (unicode_toLowerCase (rally w)) (workspace (this w))) l with
       | Ok m => negb (truthy m)
       | Throw _ => false
       end
  else true.

(** The fields of the artifact a payload holds: those of its
    [HierarchicalRequirement] when that is an object, none otherwise. *)
Definition artifact_fields (hr : value) : list (string * value) :=
  match hr with
  | VObj fields => fields
  | _ => []
  end.

(** The fields the snapshot is built from, and those that hold collections. *)
Definition read_fields : list string :=
  ["Predecessors"; "Successors"; "Children"; "Parent"; "Blocked"; "Blocker"; "Duplicates"].

Definition multi_fields : list string :=
  ["Predecessors"; "Successors"; "Children"; "Blocked"; "Blocker"; "Duplicates"].

(** [c._tagsNameArray || []] and [p._refObjectName] for a collection [c]
    and a parent [p] that are there. *)
Definition names_of (c : value) : value :=
  match prop c "_tagsNameArray" with
  | Ok names => or_else names (VArr [])
  | Throw _ => VArr []
  end.

Definition parent_name (p : value) : value :=
  match prop p "_refObjectName" with
  | Ok name => name
  | Throw _ => VUndefined
  end.

(** The snapshot as a function of the artifact's fields: each field that
    has a value is written, in the order of the handler. *)
Definition keep (f : string) (c v : value) (r : list (string * value))
  : list (string * value) :=
  if truthy c then assign f v r else r.

Definition keep_names (fields : list (string * value)) (f : string)
    (r : list (string * value)) : list (string * value) :=
  keep f (lookup f fields) (names_of (lookup f fields)) r.

Definition snapshot_of (fields : list (string * value)) : list (string * value) :=
  keep_names fields "Duplicates"
    (keep_names fields "Blocker"
       (keep_names fields "Blocked"
          (keep "Parent" (lookup "Parent" fields) (parent_name (lookup "Parent" fields))
             (keep_names fields "Children"
                (keep_names fields "Successors"
                   (keep_names fields "Predecessors" [])))))).

(** The object the [createStory] tool has posted: the story data with the
    workspace reference and the project written over it. *)
Definition posted_story (me : RallyClient) (fields : list (string * value))
  : list (string * value) :=
  assign "Project" (Client.story_project me fields)
    (assign "Workspace" (VObj [("_ref", Client.ref_value (workspaceRef me))]) fields).

(** The request that creates a story whose posted object is [posted]. *)
Definition create_request (posted : list (string * value)) : request :=
  {| meth := POST; url := "/HierarchicalRequirement/create"; params := [];
     body := VObj [("HierarchicalRequirement", VObj posted)] |}.

(** The outcomes the method distinguishes. *)
Definition authentication_failure : outcome :=
  {| valid := false; error := Some "Authentication failed - invalid API key" |}.

Definition connectivity_failure : outcome :=
  {| valid := false;
     error := Some "No response from Rally API server - network issue or service unavailable" |}.

Definition no_accessible_workspaces : outcome :=
  {| valid := false; error := Some "No accessible workspaces found with this API key" |}.

(** The world after the client stored the reference of workspace [id]. *)
Definition with_reference (id : string) (w : world) : world :=
  snd (set_workspaceRef ("/workspace/" ++ id) w).

(** What a validation, or a part of one, may do to the world: it sends
    requests on the resolution endpoints only, leaves the service and the
    configured fields alone, and stores a reference exactly when it reports
    success. *)
Definition resolution_effect (w : world) (run : result outcome * world) : Prop :=
  let (r, w') := run in
  rally w' = rally w /\
  (exists new, sent w' = (sent w ++ new)%list /\
               Forall (fun q => story_request q = false) new) /\
  workspace (this w') = workspace (this w) /\
  project (this w') = project (this w) /\
  workspaceIsNumeric (this w') = workspaceIsNumeric (this w) /\
  match r with
  | Ok o =>
      if valid o
      then exists id, workspaceRef (this w') = Some ("/workspace/" ++ id)
      else workspaceRef (this w') = workspaceRef (this w)
  | Throw _ => workspaceRef (this w') = workspaceRef (this w)
  end.

(** The place where an operation writes the client's workspace reference
    into its request, for the operations that write it: the [workspace]
    parameter of the three reading methods (unless the caller's own query
    parameters replace it) and [Workspace._ref] of a created story. *)
Definition written_reference (op : operation) (q : request) : option value :=
  match op with
  | GetStories queryParams =>
      if has_key "workspace" (Client.string_params queryParams) then None
      else Some (lookup "workspace" (params q))
  | GetStory _ | GetRelationships _ => Some (lookup "workspace" (params q))
  | CreateStory _ =>
      Some (lookup "_ref"
              (artifact_fields
                 (lookup "Workspace"
                    (artifact_fields
                       (lookup "HierarchicalRequirement" (artifact_fields (body q)))))))
  | _ => None
  end.

(** What remains of a method once the reference is there: at most one
    request, on the story endpoint, carrying the stored reference where the
    method writes one, and no change to the client. *)
Definition story_effect (op : operation) (w : world) (w' : world) : Prop :=
  exists new,
    sent w' = (sent w ++ new)%list /\
    (length new <= 1)%nat /\
    Forall (fun q =>
              story_request q = true /\
              forall v, written_reference op q = Some v ->
                        v = Client.ref_value (workspaceRef (this w))) new /\
    this w' = this w /\
    rally w' = rally w.

(** ** Sample services and clients *)

Module Sample.

Definition ws (id : Z) (name : string) : value :=
  VObj [("ObjectID", VNum id);
        ("Name", VStr name);
        ("_ref", VStr ("https://rally1.rallydev.com/slm/webservice/v2.0/workspace/"
                       ++ string_of_Z id))].

Definition results (l : list value) : option (http (option QueryResult)) :=
  Some (Response 200 (Some {| Results := Some l; Errors := Some [] |})).

(** A service that answers the query by name or identifier with [by_query]
    and the listing of all workspaces with [all]. The samples hold ASCII
    text only, for which the case tables of the run time are not consulted. *)
Definition rally_with (by_query all : option (http (option QueryResult))) : backend :=
  {| subscription := fun _ => Some (Response 200 (VObj [("Subscription", VObj [])]));
     workspaces := fun _ r => match params r with
                              | [] => all
                              | _ :: _ => by_query
                              end;
     artifacts := fun _ _ => Response 200 (VObj []);
     update_timer_fires := fun _ => false;
     unicode_toLowerCase := fun s => s |}.

Definition alpha_beta : backend :=
  rally_with (results []) (results [ws 1 "Alpha"; ws 2 "Beta"]).

Definition client (token : string) (default_project : option string) (b : backend) : world :=
  start {| rallyApiKey := "key"; rallyWorkspace := token; rallyProject := default_project |} b.

(** A client that has already resolved its workspace. *)
Definition resolved (token : string) (b : backend) : world :=
  snd (Client.validateCredentials (client token None b)).

(** A listed workspace without identifier whose reference holds no digits. *)
Definition without_id : value :=
  VObj [("Name", VStr "Alpha"); ("_ref", VStr "https://rally1.rallydev.com/workspace/alpha")].

(** A service that lists only that workspace. *)
Definition only_without_id : backend := rally_with (results []) (results [without_id]).

(** A service that accepts the ping and answers the workspace query with
    an HTTP error status. *)
Definition workspace_query_status (st : Z) : backend :=
  rally_with (Some (Response st None)) (results [ws 1 "Alpha"]).

(** A service whose query by name finds the workspace [Alpha]. *)
Definition alpha_found : backend := rally_with (results [ws 1 "Alpha"]) (results []).

End Sample.

(** ** The resource handlers

    [src/handlers/resources.ts]. A handler receives the URI the MCP layer
    parsed; what it reads of it, the pairs of its search parameters in
    order, is the argument here. *)

Module Resources.

Record content : Type := { uri : string; text_of : text }.

(** [(a + b) < c], kept as written: only whether evaluating it throws is
    modelled. *)
Inductive comparison : Type := SumLessThan (a b c : value).

Inductive meta : Type :=
| MetaMessage (message : string)
| MetaError (error : string)
| MetaPage (total pageSize startIndex : value) (hasMore : comparison).

Record resource_result : Type := { contents : list content; _meta : option meta }.

(** [queryParams[key] = value] on an object literal that holds strings: an
    own property is written, except under the key [__proto__], where the
    assignment of a string does nothing. *)
Fixpoint set_own (k v : string) (q : list (string * string)) : list (string * string) :=
  match q with
  | [] => [(k, v)]
  | (k', v') :: rest =>
      if String.eqb k k' then (k, v) :: rest else (k', v') :: set_own k v rest
  end.

Definition set_param (k v : string) (q : list (string * string)) : list (string * string) :=
  if String.eqb k "__proto__" then q else set_own k v q.

(** [url.searchParams.forEach((value, key) => { queryParams[key] = value; })] *)
Definition collect_params (searchParams : list (string * string)) : list (string * string) :=
  fold_left (fun q kv => set_param (fst kv) (snd kv) q) searchParams [].

(** One item of [data.Results.map(...)]. *)
Definition story_content (story : value) : result content :=
  let? id := subst (prop story "ObjectID") in
  Ok {| uri := "rally://story/" ++ id; text_of := TextJson EmptyString story |}.

Fixpoint map_stories (stories : list value) : result (list content) :=
  match stories with
  | [] => Ok []
  | story :: rest =>
      let? c := story_content story in
      let? cs := map_stories rest in
      Ok (c :: cs)
  end.

(** Converting an operand of [+] or [<] to a primitive throws exactly when
    converting it to a string does. *)
Definition to_primitive (v : value) : result unit :=
  let? _ := ToString v in Ok tt.

(** What the handler builds from the data the client returned. *)
Definition stories_result (data : value) : result resource_result :=
  let? results :=
    (if truthy data then prop data "Results" else Ok VUndefined) in
  if negb (truthy data) || negb (truthy results) then
    Ok {| contents := []; _meta := Some (MetaMessage "No stories found") |}
  else
    match results with
    | VArr stories =>
        let? cs := map_stories stories in
        let count := VNum (Z.of_nat (length stories)) in
        let? total := prop data "TotalResultCount" in
        let? pageSize := prop data "PageSize" in
        let? startIndex := prop data "StartIndex" in
        let? _ := to_primitive startIndex in
        let? _ := to_primitive pageSize in
        let? _ := to_primitive total in
        Ok {| contents := cs;
              _meta := Some (MetaPage (or_else total count) (or_else pageSize count)
                                      (or_else startIndex (VNum 1))
                                      (SumLessThan startIndex pageSize total)) |}
    | _ => Throw (TypeError "data.Results.map is not a function")
    end.

Definition handleStories (searchParams : list (string * string)) : M resource_result :=
  try_catch
    (data <- Client.getStories (collect_params searchParams) ;;
     lift (stories_result data))
    (fun e => ret {| contents := [];
                     _meta := Some (MetaError ("Failed to fetch stories: " ++ message e)) |}).

(** The handler of [rally://story/{id}]. *)
Definition story (id : string) : M resource_result :=
  try_catch
    (data <- Client.getStory id ;;
     if negb (truthy data) then
       ret {| contents := [];
              _meta := Some (MetaError ("Story not found with ID: " ++ id)) |}
     else
       ret {| contents := [{| uri := "rally://story/" ++ id;
                              text_of := TextJson EmptyString data |}];
              _meta := None |})
    (fun e => ret {| contents := [];
                     _meta := Some (MetaError ("Failed to fetch story: " ++ message e)) |}).

End Resources.

(** ** The server module

    [src/index.ts]: the search for a free port, the level filter of the
    logger, the progress tracker and the line framing of the custom STDIO
    mode. *)

Module Server.

(** *** [findAvailablePort]

    [available] answers [isPortAvailable]; one search asks about a port at
    most once. The loop runs on fuel; [findAvailablePort] gives it all the
    loop can use. *)
Fixpoint probe (available : Z -> bool) (startPort : Z) (fuel : nat) (port : Z)
  : option (result Z) :=
  match fuel with
  | O => None
  | S fuel' =>
      if available port then Some (Ok port)
      else
        let port' := port + 1 in
        if port' >? startPort + 100 then
          Some (Throw (Error ("Unable to find an available port after trying 100 ports starting from "
                              ++ string_of_Z startPort)))
        else probe available startPort fuel' port'
  end.

Definition findAvailablePort (available : Z -> bool) (startPort : Z) : option (result Z) :=
  probe available startPort 101 startPort.

(** *** [Logger]: which of its methods write, given [LOG_LEVEL]. *)

Inductive log_method : Type := LogDebug | LogInfo | LogWarn | LogError.

(** [process.env.LOG_LEVEL || 'info'] *)
Definition level_or_info (LOG_LEVEL : option string) : string :=
  match LOG_LEVEL with
  | Some l => if is_empty l then "info" else l
  | None => "info"
  end.

Definition writes (LOG_LEVEL : option string) (m : log_method) : bool :=
  match m with
  | LogDebug => match LOG_LEVEL with
                | Some l => String.eqb l "debug"
                | None => false
                end
  | LogInfo => existsb (String.eqb (level_or_info LOG_LEVEL)) ["debug"; "info"]
  | LogWarn => existsb (String.eqb (level_or_info LOG_LEVEL)) ["debug"; "info"; "warn"]
  | LogError => true
  end.

(** *** [ProgressTracker]

    The map of operations, the intervals that [setInterval] has started and
    [clearInterval] has not stopped, each with the operation and the
    callback its closure holds, and the calls made to callbacks. A callback
    is named by a number. *)

Record tracked : Type := { progress : Z; timer : nat }.

Record interval : Type := { timer_id : nat; operationId : string; callback : nat }.

Record tracker : Type := {
  operations : list (string * tracked);
  intervals : list interval;
  next_timer : nat
}.

Inductive called : Type := Called (callback : nat) (progress : Z) (message : string).

Definition new_tracker : tracker :=
  {| operations := []; intervals := []; next_timer := O |}.

(** [Map.get], [Map.set] and [Map.delete]. *)
Fixpoint map_get {A} (k : string) (m : list (string * A)) : option A :=
  match m with
  | [] => None
  | (k', v) :: rest => if String.eqb k k' then Some v else map_get k rest
  end.

Fixpoint map_set {A} (k : string) (v : A) (m : list (string * A)) : list (string * A) :=
  match m with
  | [] => [(k, v)]
  | (k', v') :: rest =>
      if String.eqb k k' then (k, v) :: rest else (k', v') :: map_set k v rest
  end.

Fixpoint map_delete {A} (k : string) (m : list (string * A)) : list (string * A) :=
  match m with
  | [] => []
  | (k', v') :: rest =>
      if String.eqb k k' then map_delete k rest else (k', v') :: map_delete k rest
  end.

Definition startOperation (id : string) (cb : nat) (t : tracker) : tracker * list called :=
  ({| operations := map_set id {| progress := 0; timer := next_timer t |} (operations t);
      intervals := (intervals t
                    ++ [{| timer_id := next_timer t; operationId := id; callback := cb |}])%list;
      next_timer := S (next_timer t) |},
   [Called cb 0 "Starting operation..."]).

Definition updateProgress (id : string) (p : Z) (t : tracker) : tracker :=
  match map_get id (operations t) with
  | Some op =>
      {| operations := map_set id {| progress := p; timer := timer op |} (operations t);
         intervals := intervals t;
         next_timer := next_timer t |}
  | None => t
  end.

(** One firing of an interval that is running. *)
Definition fire (i : interval) (t : tracker) : tracker * list called :=
  match map_get (operationId i) (operations t) with
  | Some op =>
      let newProgress := Z.min 95 (progress op + 5) in
      (updateProgress (operationId i) newProgress t,
       [Called (callback i) newProgress "Operation in progress..."])
  | None => (t, [])
  end.

(** The timer [id] fires, if it is still running. *)
Definition tick (id : nat) (t : tracker) : tracker * list called :=
  match List.find (fun i => Nat.eqb (timer_id i) id) (intervals t) with
  | Some i => fire i t
  | None => (t, [])
  end.

Definition completeOperation (id : string) (cb : nat) (t : tracker) : tracker * list called :=
  match map_get id (operations t) with
  | Some op =>
      ({| operations := map_delete id (operations t);
          intervals := filter (fun i => negb (Nat.eqb (timer_id i) (timer op))) (intervals t);
          next_timer := next_timer t |},
       [Called cb 100 "Operation completed successfully"])
  | None => (t, [])
  end.

(** What can happen to a tracker. *)
Inductive tracker_event : Type :=
| Start (id : string) (cb : nat)
| Update (id : string) (p : Z)
| Tick (timer : nat)
| Complete (id : string) (cb : nat).

Definition tracker_step (e : tracker_event) (t : tracker) : tracker * list called :=
  match e with
  | Start id cb => startOperation id cb t
  | Update id p => (updateProgress id p t, [])
  | Tick n => tick n t
  | Complete id cb => completeOperation id cb t
  end.

Fixpoint tracker_run (es : list tracker_event) (t : tracker) : tracker * list called :=
  match es with
  | [] => (t, [])
  | e :: rest =>
      let (t1, out1) := tracker_step e t in
      let (t2, out2) := tracker_run rest t1 in
      (t2, (out1 ++ out2)%list)
  end.

(** *** The line framing of [startCustomStdioServer]

    [parse] stands for [JSON.parse]. Writing the response to the standard
    output is taken to succeed. *)

Definition newline : string := String (ascii_of_nat 10) EmptyString.

(** [buffer.split('\n')], as the lines before the last separator and what
    follows it: [lines] after [lines.pop()], and the popped string. *)
Fixpoint split_lines (s : string) : list string * string :=
  match s with
  | EmptyString => ([], EmptyString)
  | String c t =>
      let (ls, r) := split_lines t in
      if Ascii.eqb c (ascii_of_nat 10) then (EmptyString :: ls, r)
      else match ls with
           | [] => ([], String c r)
           | l :: ls' => (String c l :: ls', r)
           end
  end.

(** White space that [trim] removes, among ASCII characters. *)
Definition is_space (c : ascii) : bool :=
  let n := nat_of_ascii c in
  ((9 <=? n)%nat && (n <=? 13)%nat) || (n =? 32)%nat.

(** [!line.trim()] *)
Fixpoint is_blank (s : string) : bool :=
  match s with
  | EmptyString => true
  | String c t => is_space c && is_blank t
  end.

Record stdio : Type := { buffer : string; initializationHandled : bool }.

Inductive written : Type := InitializeResponse (id : value).

(** What a line asks for: the identifier to answer when it is a message
    whose method is [initialize]; [Throw] is the inner [catch]. *)
Definition initialize_request (parse : string -> result value) (line : string)
  : result (option value) :=
  let? message := parse line in
  let? method := prop message "method" in
  let? _ := ToString method in
  match method with
  | VStr m => if String.eqb m "initialize"
              then let? id := prop message "id" in Ok (Some id)
              else Ok None
  | _ => Ok None
  end.

(** The body of the [for] loop; the last component tells that the callback
    returned. *)
Definition handle_line (parse : string -> result value) (handled : bool) (line : string)
  : bool * list written * bool :=
  if is_blank line then (handled, [], false)
  else
    match initialize_request parse line with
    | Ok (Some id) =>
        if handled then (handled, [], false)
        else (true, [InitializeResponse id], true)
    | _ => (handled, [], false)
    end.

Fixpoint handle_lines (parse : string -> result value) (handled : bool) (lines : list string)
  : bool * list written :=
  match lines with
  | [] => (handled, [])
  | line :: rest =>
      match handle_line parse handled line with
      | (handled', out, true) => (handled', out)
      | (handled', out, false) =>
          let (handled'', out') := handle_lines parse handled' rest in
          (handled'', (out ++ out')%list)
      end
  end.

(** The listener of the [data] event. *)
Definition on_data (parse : string -> result value) (st : stdio) (chunk : string)
  : stdio * list written :=
  let buffer' := buffer st ++ chunk in
  if includes buffer' newline then
    let (lines, rest) := split_lines buffer' in
    let (handled, out) := handle_lines parse (initializationHandled st) lines in
    ({| buffer := rest; initializationHandled := handled |}, out)
  else ({| buffer := buffer'; initializationHandled := initializationHandled st |}, []).

Fixpoint receive (parse : string -> result value) (st : stdio) (chunks : list string)
  : stdio * list written :=
  match chunks with
  | [] => (st, [])
  | chunk :: rest =>
      let (st1, out1) := on_data parse st chunk in
      let (st2, out2) := receive parse st1 rest in
      (st2, (out1 ++ out2)%list)
  end.

Definition listening : stdio := {| buffer := EmptyString; initializationHandled := false |}.

(** The first line that asks for initialization, with the identifier to
    answer. *)
Fixpoint first_initialize (parse : string -> result value) (lines : list string)
  : option value :=
  match lines with
  | [] => None
  | line :: rest =>
      if is_blank line then first_initialize parse rest
      else match initialize_request parse line with
           | Ok (Some id) => Some id
           | _ => first_initialize parse rest
           end
  end.

End Server.

(** The operations whose relationship type, if they have one, is one of
    the eight the tools' schema lets through. *)
Definition known_relationship (op : operation) : bool :=
  match op with
  | CreateRelationship _ _ k | RemoveRelationship _ _ k => schema_accepts k
  | _ => true
  end.

(** The value a query string gives to a key: that of its last occurrence. *)
Fixpoint last_value (k : string) (searchParams : list (string * string)) : option string :=
  match searchParams with
  | [] => None
  | (k', v) :: rest =>
      match last_value k rest with
      | Some v' => Some v'
      | None => if String.eqb k k' then Some v else None
      end
  end.

(** The request of [getStories] and the parameters the client adds to it. *)
Definition stories_request (params : list (string * value)) : request :=
  {| meth := GET; url := "/HierarchicalRequirement"; params := params; body := VUndefined |}.

Definition own_params (me : RallyClient) : list (string * value) :=
  [("workspace", Client.ref_value (workspaceRef me)); ("project", Client.project_path me)].

(** The requests of [getStory], [deleteStory] and [updateStory]. *)
Definition story_get (me : RallyClient) (id : string) : request :=
  {| meth := GET; url := "/HierarchicalRequirement/" ++ id;
     params := own_params me; body := VUndefined |}.

Definition story_delete (id : string) : request :=
  {| meth := DELETE; url := "/HierarchicalRequirement/" ++ id;
     params := []; body := VUndefined |}.

Definition story_update (id : string) (fields : list (string * value)) : request :=
  {| meth := POST; url := "/HierarchicalRequirement/" ++ id; params := [];
     body := VObj [("HierarchicalRequirement", VObj fields)] |}.

(** The reply of the service to a request sent from the world [w]. *)
Definition reply_to (w : world) (q : request) : result (response value) :=
  axios_settle (artifacts (rally w) (sent w) q).

(** The request of [getRelationships]. *)
Definition relationships_request (me : RallyClient) (artifactId : string) : request :=
  {| meth := GET; url := "/HierarchicalRequirement/" ++ artifactId;
     params := [("fetch", VStr Client.relationship_fields);
                ("workspace", Client.ref_value (workspaceRef me))];
     body := VUndefined |}.

(** The result of the [getRelationships] tool that shows [snapshot]. *)
Definition relationships_text (artifactId : string) (snapshot : list (string * value))
  : tool_result :=
  {| content := TextJson ("Relationships for " ++ artifactId ++ ":"
                          ++ String (ascii_of_nat 10) EmptyString)
                         (VObj snapshot);
     isError := false |}.

Definition is_undefined (v : value) : bool :=
  match v with VUndefined => true | _ => false end.

(** The properties of an object that [JSON.stringify] prints: all but
    those whose value is [undefined]. *)
Definition printed (o : list (string * value)) : list (string * value) :=
  filter (fun kv => negb (is_undefined (snd kv))) o.

(** A service that lists the workspace [Alpha] and answers every request
    on the story endpoint with [payload]. *)
Definition answering (payload : value) : backend :=
  {| subscription := subscription Sample.alpha_found;
     workspaces := workspaces Sample.alpha_found;
     artifacts := fun _ _ => Response 200 payload;
     update_timer_fires := fun _ => false;
     unicode_toLowerCase := fun s => s |}.

(** ** Tool calls

    [server.tool(name, schema, handler)]: the server parses the arguments
    of a call with the schema and runs the handler on arguments that pass.
    A call whose arguments do not pass is answered as invalid, and the
    handler does not run. *)
Inductive tool_reply : Type :=
| InvalidArguments
| Handled (r : tool_result).

(** [z.string().min(1)] *)
Definition non_empty_string (v : value) : option string :=
  match v with
  | VStr s => if is_empty s then None else Some s
  | _ => None
  end.

(** The [z.enum] of the eight kinds. *)
Definition relationship_kind (v : value) : option string :=
  match v with
  | VStr k => if schema_accepts k then Some k else None
  | _ => None
  end.

(** The schema that the two relationship tools share, in front of a handler. *)
Definition relationship_tool (h : string -> string -> string -> M tool_result)
    (sourceId targetId relationshipType : value) : M tool_reply :=
  match non_empty_string sourceId, non_empty_string targetId,
        relationship_kind relationshipType with
  | Some s, Some t, Some k => bind (h s t k) (fun r => ret (Handled r))
  | _, _, _ => ret InvalidArguments
  end.

Definition createRelationship_tool : value -> value -> value -> M tool_reply :=
  relationship_tool Tools.createRelationship.

Definition removeRelationship_tool : value -> value -> value -> M tool_reply :=
  relationship_tool Tools.removeRelationship.

(** What holds of a client object throughout its life: it is the client
    of its configuration, and the reference it holds, if any, is a
    workspace reference. *)
Definition configured (c : config) (me : RallyClient) : Prop :=
  workspace me = rallyWorkspace c /\
  project me = rallyProject c /\
  workspaceIsNumeric me = test_numeric (rallyWorkspace c) /\
  forall r, workspaceRef me = Some r -> exists id, r = "/workspace/" ++ id.

(** What holds of a tracker whatever has happened to it: every tracked
    operation has a running interval of its own, and the running intervals
    have distinct timers that were all handed out already. *)
Definition tracker_ok (t : Server.tracker) : Prop :=
  (forall id op,
      Server.map_get id (Server.operations t) = Some op ->
      exists cb,
        In {| Server.timer_id := Server.timer op; Server.operationId := id;
              Server.callback := cb |} (Server.intervals t)) /\
  (forall i, In i (Server.intervals t) -> (Server.timer_id i < Server.next_timer t)%nat) /\
  NoDup (map Server.timer_id (Server.intervals t)).

(** * Properties *)

(** ** Objects *)

Lemma has_key_assign k k' v o :
  has_key k (assign k' v o) = String.eqb k k' || has_key k o.
Proof.
  induction o as [|[k0 v0] o IH]; simpl.
  - reflexivity.
  - destruct (String.eqb k' k0) eqn:E; simpl.
    + apply String.eqb_eq in E. subst k0.
      destruct (String.eqb k k'); reflexivity.
    + rewrite IH. destruct (String.eqb k k0), (String.eqb k k'); reflexivity.
Qed.

Lemma lookup_assign k k' v o :
  lookup k (assign k' v o) = if String.eqb k k' then v else lookup k o.
Proof.
  induction o as [|[k0 v0] o IH]; simpl.
  - reflexivity.
  - destruct (String.eqb k' k0) eqn:E; simpl.
    + apply String.eqb_eq in E. subst k0.
      destruct (String.eqb k k'); reflexivity.
    + rewrite IH. destruct (String.eqb k k0) eqn:E0, (String.eqb k k') eqn:E1;
        try reflexivity.
      apply String.eqb_eq in E0, E1. subst. rewrite String.eqb_refl in E. discriminate.
Qed.

Lemma lookup_absent k o : has_key k o = false -> lookup k o = VUndefined.
Proof.
  induction o as [|[k0 v0] o IH]; simpl; [reflexivity|].
  destruct (String.eqb k k0); simpl; [discriminate|exact IH].
Qed.

(** ** How a validation changes the world *)

Lemma log_workspaces_head ws rest :
  log_workspaces (ws :: rest) = Ok tt ->
  exists name, subst (prop ws "Name") = Ok name.
Proof.
  simpl. unfold rbind.
  destruct (subst (prop ws "ObjectID")); [|discriminate].
  destruct (subst (prop ws "Name")) as [name|]; [|discriminate].
  intros _. now exists name.
Qed.

Lemma use_workspace_cases found w :
  (exists name id,
      subst (prop found "Name") = Ok name /\
      subst (prop found "ObjectID") = Ok id /\
      Client.use_workspace found w
      = (Ok {| valid := true; error := None |}, with_reference id w))
  \/ (exists e, Client.use_workspace found w = (Throw e, w)).
Proof.
  unfold Client.use_workspace, bind, lift, ret.
  destruct (subst (prop found "Name")) as [name|]; [|right; eauto].
  destruct (subst (prop found "ObjectID")) as [id|]; [|right; eauto].
  left. exists name, id. repeat split; reflexivity.
Qed.

Lemma use_first_workspace_cases me l w :
  (exists first rest idv id name,
      l = first :: rest /\
      first_workspace_id first = Ok idv /\
      ToString idv = Ok id /\
      subst (prop first "Name") = Ok name /\
      Client.use_first_workspace me l w
      = (Ok {| valid := true; error := Some (advisory (workspace me) name id) |},
         with_reference id w))
  \/ (exists e, Client.use_first_workspace me l w = (Throw e, w)).
Proof.
  unfold Client.use_first_workspace, bind, lift, ret.
  destruct (log_workspaces l) as [[]|] eqn:Hlog; [|right; eauto].
  destruct (first_workspace_id (hd VUndefined l)) as [idv|] eqn:Hid; [|right; eauto].
  destruct (ToString idv) as [id|] eqn:Hs; [|right; eauto].
  simpl.
  destruct l as [|first rest].
  - simpl in Hid. discriminate.
  - destruct (log_workspaces_head _ _ Hlog) as [name Hname].
    simpl in *. rewrite Hname. simpl. left.
    exists first, rest, idv, id, name. repeat split; assumption.
Qed.

Lemma resolution_effect_refl w r :
  match r with Ok o => valid o = false | Throw _ => True end ->
  resolution_effect w (r, w).
Proof.
  intros H. unfold resolution_effect.
  repeat split; auto.
  - exists []. rewrite app_nil_r. auto.
  - destruct r as [o|]; [rewrite H|]; reflexivity.
Qed.

Lemma resolution_effect_reference w id :
  resolution_effect w (Ok {| valid := true; error := None |}, with_reference id w).
Proof.
  unfold resolution_effect. simpl. repeat split; eauto.
  exists []. rewrite app_nil_r. auto.
Qed.

Lemma resolution_effect_after q w run :
  story_request q = false ->
  resolution_effect (record q w) run ->
  resolution_effect w run.
Proof.
  unfold resolution_effect. destruct run as [r w'].
  intros Hq (Hr & (new & Hs & Hn) & Hw & Hp & Hi & Href). simpl in *.
  repeat split; auto.
  exists (q :: new). split.
  - rewrite Hs, <- app_assoc. reflexivity.
  - constructor; auto.
Qed.

Lemma check_workspace_effect w : resolution_effect w (Client.check_workspace w).
Proof.
  unfold Client.check_workspace, bind, self, get_workspace.
  set (q1 := workspace_request (Some _)).
  apply resolution_effect_after with (q := q1); [reflexivity|].
  destruct (race _ (workspaces _ _ q1)) as [resp1|e1];
    [|apply resolution_effect_refl; exact I].
  destruct (found_results (data resp1)) as [results|].
  { destruct (use_workspace_cases (hd VUndefined results) (record q1 w))
      as [(name & id & _ & _ & ->)|(e & ->)].
    - apply resolution_effect_reference.
    - apply resolution_effect_refl; exact I. }
  set (q2 := workspace_request None).
  apply resolution_effect_after with (q := q2); [reflexivity|].
  simpl.
  destruct (race _ (workspaces _ _ q2)) as [resp2|e2];
    [|apply resolution_effect_refl; exact I].
  set (w2 := record q2 (record q1 w)).
  destruct (found_results (data resp2)) as [workspaces|].
  - assert (Hpick : forall m : value,
               resolution_effect w2
                 ((if truthy m then Client.use_workspace m
                   else Client.use_first_workspace (this w) workspaces) w2)).
    { intros m. destruct (truthy m).
      - destruct (use_workspace_cases m w2) as [(name & id & _ & _ & ->)|(e & ->)].
        + apply resolution_effect_reference.
        + apply resolution_effect_refl; exact I.
      - destruct (use_first_workspace_cases (this w) workspaces w2)
          as [(first & rest & idv & id & name & _ & _ & _ & _ & ->)|(e & ->)].
        + unfold resolution_effect. simpl. repeat split; eauto.
          exists []. rewrite app_nil_r. auto.
        + apply resolution_effect_refl; exact I. }
    destruct (negb (workspaceIsNumeric (this w)) && negb (is_empty (workspace (this w)))).
    + unfold Client.find_matching.
      destruct (find _ workspaces) as [m|e].
      * apply Hpick.
      * apply resolution_effect_refl; exact I.
    + apply (Hpick VUndefined).
  - destruct (found_errors (data resp2)) as [errs|].
    + unfold lift, ret. destruct (items_to_strings errs);
        apply resolution_effect_refl; simpl; auto.
    + apply resolution_effect_refl. reflexivity.
Qed.

Lemma validation_failed_returns e w :
  exists o, Client.validation_failed e w = (Ok o, w) /\ valid o = false.
Proof.
  unfold Client.validation_failed, ret.
  destruct e as [msg [st|] [|]| |]; try (eexists; split; reflexivity).
  all: destruct (st =? 401); eexists; split; reflexivity.
Qed.

Lemma guarded_check_workspace w :
  exists o w',
    try_catch Client.check_workspace Client.workspace_failed w = (Ok o, w') /\
    resolution_effect w (Ok o, w').
Proof.
  unfold try_catch.
  pose proof (check_workspace_effect w) as H.
  destruct (Client.check_workspace w) as [[o|e] w'].
  - eauto.
  - unfold Client.workspace_failed, ret. do 2 eexists. split; [reflexivity|].
    exact H.
Qed.

(** A validation always returns an outcome; its first request is the ping. *)
Lemma validateCredentials_effect w :
  exists o w',
    Client.validateCredentials w = (Ok o, w') /\
    resolution_effect w (Ok o, w') /\
    exists rest, sent w' = (sent w ++ subscription_request :: rest)%list.
Proof.
  unfold Client.validateCredentials, try_catch, bind, get_subscription.
  set (w1 := record subscription_request w).
  assert (Hstay : forall o, valid o = false ->
            resolution_effect w (Ok o, w1) /\
            exists rest, sent w1 = (sent w ++ subscription_request :: rest)%list).
  { intros o Ho. split.
    - apply resolution_effect_after with (q := subscription_request); [reflexivity|].
      apply resolution_effect_refl. exact Ho.
    - exists []. reflexivity. }
  destruct (race _ _) as [resp|e].
  - destruct ((status resp =? 200) && truthy (data resp)).
    + destruct (guarded_check_workspace w1) as (o & w' & Hrun & Heff).
      fold (try_catch Client.check_workspace Client.workspace_failed w1).
      rewrite Hrun. exists o, w'. split; [reflexivity|]. split.
      * apply resolution_effect_after with (q := subscription_request);
          [reflexivity|exact Heff].
      * destruct Heff as (_ & (new & Hs & _) & _).
        exists new. rewrite Hs. simpl. rewrite <- app_assoc. reflexivity.
    + unfold ret. do 2 eexists. split; [reflexivity|]. apply Hstay. reflexivity.
  - destruct (validation_failed_returns e w1) as (o & -> & Ho).
    exists o, w1. split; [reflexivity|]. apply Hstay. exact Ho.
Qed.

(** ** Resolution on demand *)

Lemma ensureWorkspace_cached w :
  Client.no_reference (workspaceRef (this w)) = false ->
  Client.ensureWorkspace w = (Ok tt, w).
Proof.
  intros H. unfold Client.ensureWorkspace, bind, self. rewrite H. reflexivity.
Qed.

Lemma ensureWorkspace_fresh w :
  Client.no_reference (workspaceRef (this w)) = true ->
  Client.ensureWorkspace w = (Ok tt, snd (Client.validateCredentials w)).
Proof.
  intros H. unfold Client.ensureWorkspace, bind, self. rewrite H.
  destruct (validateCredentials_effect w) as (o & w' & -> & _). reflexivity.
Qed.

Lemma ensureWorkspace_returns w :
  Client.ensureWorkspace w = (Ok tt, snd (Client.ensureWorkspace w)).
Proof.
  destruct (Client.no_reference (workspaceRef (this w))) eqn:H.
  - rewrite (ensureWorkspace_fresh _ H). reflexivity.
  - rewrite (ensureWorkspace_cached _ H). reflexivity.
Qed.

Lemma rethrow_world {A} prefix e w :
  snd (@Client.rethrow A prefix e w) = w.
Proof. unfold Client.rethrow, throw. destruct (isAxiosError e); reflexivity. Qed.

Lemma story_effect_none op w : story_effect op w w.
Proof.
  exists []. rewrite app_nil_r. repeat split; auto.
Qed.

Lemma story_effect_one op q w :
  story_request q = true ->
  (forall v, written_reference op q = Some v ->
             v = Client.ref_value (workspaceRef (this w))) ->
  story_effect op w (record q w).
Proof.
  intros H Href. exists [q]. repeat split; auto.
Qed.

Lemma lookup_spread k a b :
  has_key k b = false -> lookup k (spread a b) = lookup k a.
Proof.
  unfold spread. revert a. induction b as [|[k1 v1] b IH]; simpl; intros a H.
  - reflexivity.
  - apply orb_false_iff in H. destruct H as [H1 H2].
    rewrite (IH _ H2), lookup_assign, H1. reflexivity.
Qed.

Lemma perform_effect op w :
  story_effect op (snd (Client.ensureWorkspace w)) (snd (perform op w)).
Proof.
  pose proof (ensureWorkspace_returns w) as Hens.
  set (w1 := snd (Client.ensureWorkspace w)) in *.
  destruct op; simpl;
    unfold Client.getStories, Client.getStory, Client.createStory,
      Client.updateStory, Client.deleteStory, Client.getRelationships,
      Client.createRelationship, Client.removeRelationship,
      try_catch, bind; rewrite Hens; unfold self, call, lift, ret;
    try (destruct (Client.collection_of relationshipType);
         [|rewrite rethrow_world; apply story_effect_none]);
    match goal with
    | |- context [axios_settle ?x] => destruct (axios_settle x)
    end;
    repeat match goal with
      | |- context [prop ?v ?k] => destruct (prop v k)
      end;
    try rewrite rethrow_world;
    (apply story_effect_one;
     [reflexivity
     |simpl; intros v;
      try (destruct (has_key "workspace" (Client.string_params queryParams)) eqn:Hq;
           [discriminate|rewrite lookup_spread by exact Hq]);
      intros Hv; try discriminate; inversion Hv;
      rewrite ?lookup_assign; reflexivity]).
Qed.

Lemma validation_success_caches w :
  succeeded (fst (Client.validateCredentials w)) = true ->
  Client.no_reference (workspaceRef (this (snd (Client.validateCredentials w)))) = false.
Proof.
  destruct (validateCredentials_effect w) as (o & w' & -> & Heff & _).
  simpl. intros Hv.
  destruct Heff as (_ & _ & _ & _ & _ & Href). rewrite Hv in Href.
  destruct Href as (id & ->). reflexivity.
Qed.

(** A stored reference was left there by a resolution that succeeded. *)
Lemma validation_reference c b w r :
  reachable c b w ->
  (workspaceRef (this w) = Some r -> established c b r) ->
  workspaceRef (this (snd (Client.validateCredentials w))) = Some r ->
  established c b r.
Proof.
  intros Hreach IH Hr.
  destruct (validateCredentials_effect w) as (o & w' & Hrun & Heff & _).
  destruct (valid o) eqn:Hv.
  - exists w. rewrite Hrun. simpl. rewrite Hrun in Hr. auto.
  - rewrite Hrun in Hr. simpl in Hr.
    destruct Heff as (_ & _ & _ & _ & _ & Href). rewrite Hv in Href.
    apply IH. congruence.
Qed.

Lemma reachable_reference c b w :
  reachable c b w ->
  forall r, workspaceRef (this w) = Some r -> established c b r.
Proof.
  induction 1 as [|w Hreach IH|op w Hreach IH]; intros r Hr.
  - discriminate.
  - eapply validation_reference; eauto.
  - destruct (perform_effect op w) as (_ & _ & _ & _ & Hthis & _).
    rewrite Hthis in Hr.
    destruct (Client.no_reference (workspaceRef (this w))) eqn:Hno.
    + rewrite (ensureWorkspace_fresh _ Hno) in Hr. simpl in Hr.
      eapply validation_reference; eauto.
    + rewrite (ensureWorkspace_cached _ Hno) in Hr. simpl in Hr. auto.
Qed.

(** C4. Every story and relationship operation resolves the workspace on
    demand: without a stored reference it first runs a validation, whose
    first request is the ping, and continues from the world the validation
    left; with a stored reference it sends at most its own request on the
    story endpoint and leaves the client as it was, so the reference is
    reused and nothing is resolved again; a validation that succeeds leaves
    a stored reference; any reference found in a client was stored by a
    validation that succeeded, and so was any reference an operation
    writes into its request. *)
Theorem resolution_on_demand c b op w :
  reachable c b w ->
  let validated := Client.validateCredentials w in
  let w' := snd (perform op w) in
  (Client.no_reference (workspaceRef (this w)) = true ->
   (exists rest, sent (snd validated) = (sent w ++ subscription_request :: rest)%list) /\
   story_effect op (snd validated) w') /\
  (Client.no_reference (workspaceRef (this w)) = false -> story_effect op w w') /\
  (succeeded (fst validated) = true ->
   Client.no_reference (workspaceRef (this (snd validated))) = false) /\
  (forall r, workspaceRef (this w') = Some r -> established c b r) /\
  (exists new,
      sent w' = (sent (snd (Client.ensureWorkspace w)) ++ new)%list /\
      Forall (fun q => forall r, written_reference op q = Some (VStr r) ->
                                 established c b r) new).
Proof.
  intros Hreach validated w'.
  assert (Hest : forall r, workspaceRef (this w') = Some r -> established c b r).
  { apply reachable_reference. constructor. exact Hreach. }
  repeat split.
  - destruct (validateCredentials_effect w) as (o & w1 & Hrun & _ & Hping).
    subst validated. rewrite Hrun. exact Hping.
  - pose proof (perform_effect op w) as Heff.
    rewrite (ensureWorkspace_fresh _ H) in Heff. exact Heff.
  - intros Hno. pose proof (perform_effect op w) as Heff.
    rewrite (ensureWorkspace_cached _ Hno) in Heff. exact Heff.
  - apply validation_success_caches.
  - exact Hest.
  - destruct (perform_effect op w) as (new & Hsent & _ & Hall & Hthis & _).
    exists new. split; [exact Hsent|].
    eapply Forall_impl; [|exact Hall].
    intros q [_ Hq] r Hr. apply Hest. fold w' in Hthis. rewrite Hthis.
    specialize (Hq _ Hr).
    destruct (workspaceRef (this (snd (Client.ensureWorkspace w)))); simpl in Hq;
      [inversion Hq; reflexivity|discriminate].
Qed.

Lemma resolution_on_demand_witness :
  let w := Sample.client "Alpha" None Sample.alpha_beta in
  Client.no_reference (workspaceRef (this w)) = true /\
  story_effect (GetStory "US1") (snd (Client.validateCredentials w))
               (snd (perform (GetStory "US1") w)).
Proof.
  intros w. split; [reflexivity|].
  apply (@resolution_on_demand _ _ (GetStory "US1") w (reach_start _ _)).
  reflexivity.
Defined.

(** ** Relationship mutations *)

Lemma schema_accepts_type_name k : schema_accepts (type_name k) = true.
Proof. destruct k; reflexivity. Qed.

(** The schema of the tools accepts the eight kinds and nothing else. *)
Lemma schema_accepts_iff s :
  schema_accepts s = true <-> exists k, s = type_name k.
Proof.
  split.
  - unfold schema_accepts, relationship_types. simpl.
    repeat rewrite orb_true_iff.
    intros H.
    repeat match goal with
           | H : _ \/ _ |- _ => destruct H as [H|H]
           end; try discriminate;
      apply String.eqb_eq in H; subst s;
      [exists Predecessor|exists Successor|exists Parent|exists Child
      |exists Blocker|exists Blocked|exists Duplicate|exists Duplicated];
      reflexivity.
  - intros [k ->]. apply schema_accepts_type_name.
Qed.

(** The [switch] rejects exactly what the schema rejects. *)
Lemma collection_of_unknown s :
  schema_accepts s = false ->
  Client.collection_of s = Throw (Error ("Unsupported relationship type: " ++ s)).
Proof.
  unfold schema_accepts, relationship_types, Client.collection_of. simpl.
  repeat rewrite orb_false_iff.
  intros (H1 & H2 & H3 & H4 & H5 & H6 & H7 & H8 & _).
  rewrite H1, H2, H3, H4, H5, H6, H7, H8. reflexivity.
Qed.

Lemma collection_of_type_name k :
  Client.collection_of (type_name k) = Ok (spec_collection k).
Proof. destruct k; reflexivity. Qed.

Lemma createRelationship_sent k sourceId targetId w :
  sent (snd (Client.createRelationship sourceId targetId (type_name k) w))
  = (sent (snd (Client.ensureWorkspace w)) ++ [spec_request k Add sourceId targetId])%list.
Proof.
  unfold Client.createRelationship, try_catch, bind.
  rewrite (ensureWorkspace_returns w). unfold lift.
  rewrite collection_of_type_name. unfold call, ret.
  destruct k; simpl;
    match goal with
    | |- context [axios_settle ?x] => destruct (axios_settle x)
    end; try rewrite rethrow_world; reflexivity.
Qed.

Lemma removeRelationship_sent k sourceId targetId w :
  sent (snd (Client.removeRelationship sourceId targetId (type_name k) w))
  = (sent (snd (Client.ensureWorkspace w)) ++ [spec_request k Remove sourceId targetId])%list.
Proof.
  unfold Client.removeRelationship, try_catch, bind.
  rewrite (ensureWorkspace_returns w). unfold lift.
  rewrite collection_of_type_name. unfold call, ret.
  destruct k; simpl;
    match goal with
    | |- context [axios_settle ?x] => destruct (axios_settle x)
    end; try rewrite rethrow_world; reflexivity.
Qed.

(** C1. For each of the eight kinds, [createRelationship] and
    [removeRelationship] pick the collection of the specification's table,
    treat [Parent] and only [Parent] as a single reference, and post to the
    source artifact the payload the specification describes: for [Parent] a
    reference object on add and [null] on remove, for the others an
    instruction tagged [add] or [remove] that carries the target reference. *)
Theorem relationship_mutation_follows_table k sourceId targetId w :
  Client.collection_of (type_name k) = Ok (spec_collection k) /\
  (Client.isSingleReference (spec_collection k) = true <-> k = Parent) /\
  (spec_cardinality k = single <-> k = Parent) /\
  sent (snd (Client.createRelationship sourceId targetId (type_name k) w))
  = (sent (snd (Client.ensureWorkspace w)) ++ [spec_request k Add sourceId targetId])%list /\
  sent (snd (Client.removeRelationship sourceId targetId (type_name k) w))
  = (sent (snd (Client.ensureWorkspace w)) ++ [spec_request k Remove sourceId targetId])%list.
Proof.
  split; [apply collection_of_type_name|].
  split; [destruct k; simpl; split; intros H; try reflexivity; discriminate|].
  split; [destruct k; simpl; split; intros H; try reflexivity; discriminate|].
  split; [apply createRelationship_sent|apply removeRelationship_sent].
Qed.

Lemma handler_sent prefix (m : M tool_result) w :
  sent (snd (handler prefix m w)) = sent (snd (m w)).
Proof.
  unfold handler, try_catch, ret. destruct (m w) as [[r|e] w']; reflexivity.
Qed.

Lemma after_sent {A B} (m : M A) (k : A -> B) w :
  sent (snd ((x <- m ;; ret (k x))%client w)) = sent (snd (m w)).
Proof.
  unfold bind, ret. destruct (m w) as [[r|e] w']; reflexivity.
Qed.

(** The [createRelationship] tool refuses a source equal to the target,
    whatever the kind, without touching the client or the network. The
    [removeRelationship] tool makes no such comparison: it hands the call
    to the client, which posts the removal for every known kind. *)
Lemma self_relationship_rejected_on_create x relationshipType k w :
  Tools.createRelationship x x relationshipType w
  = (Ok (failure "Source and target cannot be the same artifact."), w) /\
  sent (snd (Tools.removeRelationship x x (type_name k) w))
  = (sent (snd (Client.ensureWorkspace w)) ++ [spec_request k Remove x x])%list.
Proof.
  split.
  - unfold Tools.createRelationship, handler, try_catch.
    rewrite String.eqb_refl. reflexivity.
  - unfold Tools.removeRelationship. rewrite handler_sent, after_sent.
    apply removeRelationship_sent.
Qed.

(** C5 at the input where the code departs from it. Creating the [Blocker]
    relationship of [US1] to itself is refused and nothing is sent; removing
    it, on the same client, succeeds and posts the removal. *)
Theorem self_removal_is_sent :
  let w := Sample.resolved "Alpha" Sample.alpha_beta in
  let created := Tools.createRelationship "US1" "US1" "Blocker" w in
  let removed := Tools.removeRelationship "US1" "US1" "Blocker" w in
  created = (Ok (failure "Source and target cannot be the same artifact."), w) /\
  fst removed = Ok (success "Successfully removed Blocker relationship from US1 to US1") /\
  sent (snd removed) = (sent w ++ [spec_request Blocker Remove "US1" "US1"])%list.
Proof. repeat split; reflexivity. Qed.

(** C6. A relationship type outside the eight kinds never reaches a
    handler: the schema of both tools refuses the call, the reply is the
    invalid-arguments error and the world is as before, so nothing was sent
    and the client is unchanged. The schema lets through the eight kinds
    and nothing else, and a call that passes it is the handler's. Behind
    the schema the methods of the client refuse the value once more: their
    [switch] throws [Unsupported relationship type], which the handler
    reports as an error, and no request is made on the story endpoint, so
    the value is never silently ignored. *)
Theorem unknown_relationship_type_rejected sourceId targetId relationshipType w :
  relationship_kind relationshipType = None ->
  createRelationship_tool sourceId targetId relationshipType w = (Ok InvalidArguments, w) /\
  removeRelationship_tool sourceId targetId relationshipType w = (Ok InvalidArguments, w) /\
  (forall v, relationship_kind v <> None <-> exists k, v = VStr (type_name k)) /\
  (forall s t k,
      is_empty s = false -> is_empty t = false ->
      createRelationship_tool (VStr s) (VStr t) (VStr (type_name k)) w
      = bind (Tools.createRelationship s t (type_name k)) (fun r => ret (Handled r)) w /\
      removeRelationship_tool (VStr s) (VStr t) (VStr (type_name k)) w
      = bind (Tools.removeRelationship s t (type_name k)) (fun r => ret (Handled r)) w) /\
  (forall s t name,
      schema_accepts name = false ->
      let rejection := Error ("Unsupported relationship type: " ++ name) in
      let w1 := snd (Client.ensureWorkspace w) in
      Client.createRelationship s t name w = (Throw rejection, w1) /\
      Client.removeRelationship s t name w = (Throw rejection, w1) /\
      Tools.removeRelationship s t name w
      = (Ok (failure ("Error removing relationship: " ++ message rejection)), w1) /\
      (Client.no_reference (workspaceRef (this w)) = false -> w1 = w) /\
      (exists new, sent w1 = (sent w ++ new)%list /\
                   Forall (fun q => story_request q = false) new)).
Proof.
  intros Hunknown.
  split; [|split; [|split; [|split]]].
  - unfold createRelationship_tool, relationship_tool. rewrite Hunknown.
    destruct (non_empty_string sourceId), (non_empty_string targetId); reflexivity.
  - unfold removeRelationship_tool, relationship_tool. rewrite Hunknown.
    destruct (non_empty_string sourceId), (non_empty_string targetId); reflexivity.
  - intros v. unfold relationship_kind. split.
    + destruct v as [| |b|n|name|l|o]; try congruence.
      destruct (schema_accepts name) eqn:Hs; [|congruence].
      intros _. apply schema_accepts_iff in Hs. destruct Hs as [k ->]. eauto.
    + intros [k ->]. rewrite schema_accepts_type_name. discriminate.
  - intros s t k Hs Ht.
    unfold createRelationship_tool, removeRelationship_tool, relationship_tool,
      non_empty_string, relationship_kind.
    rewrite Hs, Ht, schema_accepts_type_name. split; reflexivity.
  - intros s t name Hname rejection w1.
    assert (Hcreate : Client.createRelationship s t name w = (Throw rejection, w1)).
    { unfold Client.createRelationship, try_catch, bind.
      rewrite (ensureWorkspace_returns w). unfold lift.
      rewrite (collection_of_unknown _ Hname). reflexivity. }
    assert (Hremove : Client.removeRelationship s t name w = (Throw rejection, w1)).
    { unfold Client.removeRelationship, try_catch, bind.
      rewrite (ensureWorkspace_returns w). unfold lift.
      rewrite (collection_of_unknown _ Hname). reflexivity. }
    split; [exact Hcreate|]. split; [exact Hremove|]. split.
    { unfold Tools.removeRelationship, handler, try_catch, bind.
      rewrite Hremove. reflexivity. }
    split.
    + intros H. subst w1. rewrite (ensureWorkspace_cached _ H). reflexivity.
    + subst w1. destruct (Client.no_reference (workspaceRef (this w))) eqn:H.
      * rewrite (ensureWorkspace_fresh _ H). simpl.
        destruct (validateCredentials_effect w) as (o & w' & -> & Heff & _).
        destruct Heff as (_ & Hs & _). exact Hs.
      * rewrite (ensureWorkspace_cached _ H). simpl.
        exists []. rewrite app_nil_r. auto.
Qed.

Lemma unknown_relationship_type_rejected_witness :
  let w := Sample.client "NoSuchTeam" None Sample.alpha_beta in
  createRelationship_tool (VStr "US1") (VStr "US2") (VStr "Related") w
  = (Ok InvalidArguments, w) /\
  sent w = [].
Proof.
  intros w. split; [|reflexivity].
  apply (@unknown_relationship_type_rejected
           (VStr "US1") (VStr "US2") (VStr "Related") w).
  reflexivity.
Defined.

(** ** Story tools *)

(** C7. The [updateStory] tool called with an identifier and no other
    field returns the error result saying that no field was provided, and
    the world is as before: no request was sent and the client is unchanged. *)
Theorem update_without_fields_rejected id w :
  Tools.updateStory {| Tools.us_id := id; Tools.us_name := None;
                       Tools.us_description := None; Tools.us_state := None;
                       Tools.us_estimate := None; Tools.us_priority := None |} w
  = (Ok (failure "No fields provided for update. Story was not modified."), w).
Proof. reflexivity. Qed.

(** ** Outcomes of a validation *)

Lemma race_ok {A} m m' (reply : option (http A)) resp :
  race m reply = Ok resp -> race m' reply = Ok resp.
Proof. destruct reply; simpl; [auto|discriminate]. Qed.

Lemma found_results_some d l :
  found_results d = Some l -> l <> [].
Proof.
  destruct d as [[[[|x rest]|] errs]|]; simpl; intros H; inversion H; discriminate.
Qed.

Lemma listing_found m reply l :
  listing reply = Some l ->
  exists resp,
    race m reply = Ok resp /\
    found_results (data resp) = match l with [] => None | _ :: _ => Some l end.
Proof.
  unfold listing. destruct (race EmptyString reply) as [resp|] eqn:Hr; [|discriminate].
  intros H. exists resp. split; [eapply race_ok; eauto|].
  destruct (found_results (data resp)) as [l0|] eqn:Hf; inversion H; subst.
  - destruct l; [apply found_results_some in Hf; congruence|reflexivity].
  - reflexivity.
Qed.

Lemma listing_failed m reply :
  listing reply = None -> exists e, race m reply = Throw e.
Proof.
  unfold listing. destruct reply as [h|]; simpl.
  - destruct (axios_settle h); [discriminate|eauto].
  - eauto.
Qed.

(** After a ping answered with status 200 and a body, the outcome is that
    of the workspace check, whose errors never escape. *)
Lemma ping_ok_run w :
  ping_ok w = true ->
  Client.validateCredentials w
  = try_catch Client.check_workspace Client.workspace_failed
              (record subscription_request w).
Proof.
  unfold ping_ok, ping_reply. intros H.
  destruct (race EmptyString (subscription (rally w) (sent w))) as [resp|] eqn:Hr;
    [|discriminate].
  unfold Client.validateCredentials.
  unfold try_catch at 1. unfold bind, get_subscription.
  rewrite (race_ok _ _ _ Hr), H.
  destruct (guarded_check_workspace (record subscription_request w))
    as (o & w' & -> & _).
  reflexivity.
Qed.

Lemma ping_failed_run w e :
  race "Subscription request timed out after 30 seconds" (ping_reply w) = Throw e ->
  Client.validateCredentials w
  = Client.validation_failed e (record subscription_request w).
Proof.
  unfold ping_reply. intros H.
  unfold Client.validateCredentials, try_catch, bind, get_subscription.
  rewrite H. reflexivity.
Qed.

Lemma use_workspace_run found name id w :
  subst (prop found "Name") = Ok name ->
  subst (prop found "ObjectID") = Ok id ->
  Client.use_workspace found w
  = (Ok {| valid := true; error := None |}, with_reference id w).
Proof.
  intros Hn Hi. unfold Client.use_workspace, bind, lift. rewrite Hn, Hi. reflexivity.
Qed.

Lemma check_workspace_exact w found rest :
  listing (exact_reply w) = Some (found :: rest) ->
  Client.check_workspace (record subscription_request w)
  = Client.use_workspace found (after_exact_query w).
Proof.
  intros H. destruct (listing_found "Workspace request timed out after 30 seconds" _ H)
    as (resp & Hr & Hf).
  unfold Client.check_workspace, bind, self, get_workspace. simpl.
  unfold exact_reply in Hr. rewrite Hr, Hf. reflexivity.
Qed.

Lemma check_workspace_listed w l :
  listing (exact_reply w) = Some [] ->
  listing (list_reply w) = Some l ->
  l <> [] ->
  Client.check_workspace (record subscription_request w)
  = (matchingWorkspace <-
       (if negb (workspaceIsNumeric (this w)) && negb (is_empty (workspace (this w)))
        then Client.find_matching (workspace (this w)) l
        else ret VUndefined) ;;
     if truthy matchingWorkspace then Client.use_workspace matchingWorkspace
     else Client.use_first_workspace (this w) l)%client (after_listing w).
Proof.
  intros H1 H2 Hl.
  destruct (listing_found "Workspace request timed out after 30 seconds" _ H1)
    as (resp1 & Hr1 & Hf1).
  destruct (listing_found "Workspace listing timed out after 30 seconds" _ H2)
    as (resp2 & Hr2 & Hf2).
  unfold Client.check_workspace, bind at 1 2, self, get_workspace. simpl.
  unfold exact_reply in Hr1. rewrite Hr1, Hf1.
  unfold bind at 1. simpl.
  unfold list_reply in Hr2. rewrite <- app_assoc. simpl. rewrite Hr2, Hf2.
  destruct l; [congruence|reflexivity].
Qed.

Lemma matched_run w found name id :
  ping_ok w = true ->
  matched w found ->
  subst (prop found "Name") = Ok name ->
  subst (prop found "ObjectID") = Ok id ->
  Client.validateCredentials w
  = (Ok {| valid := true; error := None |},
     with_reference id (match listing (exact_reply w) with
                        | Some [] => after_listing w
                        | _ => after_exact_query w
                        end)).
Proof.
  intros Hping Hm Hn Hi. rewrite (ping_ok_run _ Hping). unfold try_catch.
  destruct Hm as [rest Hex|l Hnum Htok Hex Hl Hfind Htruthy].
  - rewrite (check_workspace_exact _ Hex), Hex.
    rewrite (use_workspace_run _ _ Hn Hi). reflexivity.
  - assert (Hne : l <> []).
    { intros ->. simpl in Hfind. inversion Hfind; subst. discriminate. }
    rewrite (check_workspace_listed _ Hex Hl Hne), Hex.
    unfold bind, Client.find_matching. rewrite Hnum, Htok. simpl.
    rewrite Hfind, Htruthy.
    rewrite (use_workspace_run _ _ Hn Hi). reflexivity.
Qed.

(** [find] returns the first item the callback accepts. *)
Lemma find_first f l x :
  find f l = Ok x ->
  (exists before after,
      l = (before ++ x :: after)%list /\
      Forall (fun y => f y = Ok false) before /\
      f x = Ok true)
  \/ (x = VUndefined /\ Forall (fun y => f y = Ok false) l).
Proof.
  induction l as [|y l IH]; simpl.
  - intros H. inversion H. right. auto.
  - unfold rbind. destruct (f y) as [[|]|] eqn:Hy; [| |discriminate].
    + intros H. inversion H; subst. left. exists [], l. auto.
    + intros H. destruct (IH H) as [(before & after & -> & Hb & Hx)|[-> Hall]].
      * left. exists (y :: before), after. auto.
      * right. auto.
Qed.

(** The callback accepts a workspace when its name contains the token,
    whatever the case of the letters. *)
Lemma name_matches_true unicode token ws :
  name_matches unicode token ws = Ok true <->
  exists s, prop ws "Name" = Ok (VStr s) /\ is_empty s = false /\
            includes (toLowerCase unicode s) (toLowerCase unicode token) = true.
Proof.
  unfold name_matches, rbind. split.
  - destruct (prop ws "Name") as [name|]; [|discriminate].
    destruct (truthy name) eqn:Ht; [|discriminate].
    destruct name; try discriminate.
    intros H. inversion H. exists s. simpl in Ht.
    destruct (is_empty s); [discriminate|auto].
  - intros (s & -> & He & Hi). simpl. rewrite He. simpl. now rewrite Hi.
Qed.

(** On ASCII text the case tables play no part: the callback compares the
    name and the token with the letters A to Z folded. *)
Lemma name_matches_ascii unicode token ws s :
  prop ws "Name" = Ok (VStr s) ->
  is_ascii s = true ->
  is_ascii token = true ->
  name_matches unicode token ws
  = Ok (negb (is_empty s) && includes (fold_ascii s) (fold_ascii token)).
Proof.
  intros Hname Hs Ht. unfold name_matches, rbind, toLowerCase.
  rewrite Hname, Hs, Ht. simpl. destruct (is_empty s); reflexivity.
Qed.

(** When the query by identifier or name fails, for whatever reason, the
    outcome only says that the workspace check failed. *)
Lemma workspace_query_failed_run w :
  ping_ok w = true ->
  listing (exact_reply w) = None ->
  exists e,
    race "Workspace request timed out after 30 seconds" (exact_reply w) = Throw e /\
    Client.validateCredentials w
    = (Ok {| valid := false;
             error := Some ("Error checking workspace: " ++ message e) |},
       after_exact_query w).
Proof.
  intros Hping Hex. rewrite (ping_ok_run _ Hping).
  destruct (listing_failed "Workspace request timed out after 30 seconds" _ Hex)
    as (e & He).
  exists e. split; [exact He|].
  unfold try_catch, Client.check_workspace, bind, self, get_workspace. simpl.
  unfold exact_reply in He. rewrite He. reflexivity.
Qed.

Lemma race_throw {A} m m' (reply : option (http A)) e :
  race m reply = Throw e -> exists e', race m' reply = Throw e'.
Proof.
  destruct reply as [h|]; simpl; [|eauto].
  destruct (axios_settle h); [discriminate|eauto].
Qed.

Lemma ping_not_ok_run w :
  ping_ok w = false ->
  exists o w', Client.validateCredentials w = (Ok o, w') /\ valid o = false.
Proof.
  unfold ping_ok, ping_reply. intros H.
  unfold Client.validateCredentials, try_catch, bind, get_subscription.
  destruct (race EmptyString (subscription (rally w) (sent w))) as [resp|e] eqn:Hr.
  - rewrite (race_ok _ "Subscription request timed out after 30 seconds" _ Hr), H.
    unfold ret. eauto.
  - destruct (race_throw _ "Subscription request timed out after 30 seconds" _ Hr)
      as [e' ->].
    destruct (validation_failed_returns e' (record subscription_request w))
      as (o & -> & Ho).
    eauto.
Qed.

(** Without a listed workspace the check does not succeed. *)
Lemma check_workspace_unlisted w :
  listing (exact_reply w) = Some [] ->
  listing (list_reply w) = Some [] \/ listing (list_reply w) = None ->
  match fst (Client.check_workspace (record subscription_request w)) with
  | Ok o => valid o = false
  | Throw _ => True
  end.
Proof.
  intros H1 H2.
  destruct (listing_found "Workspace request timed out after 30 seconds" _ H1)
    as (resp1 & Hr1 & Hf1).
  unfold Client.check_workspace, bind at 1 2, self, get_workspace. simpl.
  unfold exact_reply in Hr1. rewrite Hr1, Hf1.
  unfold bind at 1. simpl. rewrite <- app_assoc. simpl.
  destruct H2 as [H2|H2].
  - destruct (listing_found "Workspace listing timed out after 30 seconds" _ H2)
      as (resp2 & Hr2 & Hf2).
    unfold list_reply in Hr2. rewrite Hr2, Hf2.
    destruct (found_errors (data resp2)); [|reflexivity].
    unfold bind, lift, ret. destruct (items_to_strings l); simpl; auto.
  - destruct (listing_failed "Workspace listing timed out after 30 seconds" _ H2)
      as (e & He).
    unfold list_reply in He. rewrite He. exact I.
Qed.

Lemma guarded_outcome w1 o w' :
  try_catch Client.check_workspace Client.workspace_failed w1 = (Ok o, w') ->
  valid o = true ->
  Client.check_workspace w1 = (Ok o, w').
Proof.
  unfold try_catch. destruct (Client.check_workspace w1) as [[o1|e] w2].
  - auto.
  - unfold Client.workspace_failed, ret. intros H Hv. inversion H; subst.
    discriminate.
Qed.

(** The two ways, and the only ones, in which a validation succeeds: it
    adopts a matched workspace and says nothing, or it takes the first
    listed workspace and says so. *)
Lemma valid_outcome_cases w o w' :
  Client.validateCredentials w = (Ok o, w') ->
  valid o = true ->
  ping_ok w = true /\
  ((exists found name id,
       matched w found /\
       subst (prop found "Name") = Ok name /\
       subst (prop found "ObjectID") = Ok id /\
       error o = None /\
       workspaceRef (this w') = Some ("/workspace/" ++ id))
   \/ (exists first rest idv id name,
          listing (exact_reply w) = Some [] /\
          listing (list_reply w) = Some (first :: rest) /\
          unmatched w (first :: rest) = true /\
          first_workspace_id first = Ok idv /\
          ToString idv = Ok id /\
          subst (prop first "Name") = Ok name /\
          error o = Some (advisory (workspace (this w)) name id) /\
          workspaceRef (this w') = Some ("/workspace/" ++ id))).
Proof.
  intros Hrun Hv.
  destruct (ping_ok w) eqn:Hping.
  2:{ destruct (ping_not_ok_run _ Hping) as (o1 & w1 & Hrun1 & Ho1).
      rewrite Hrun1 in Hrun. inversion Hrun; subst. congruence. }
  split; [reflexivity|].
  rewrite (ping_ok_run _ Hping) in Hrun.
  apply guarded_outcome in Hrun; [|exact Hv].
  destruct (listing (exact_reply w)) as [[|found rest]|] eqn:Hex.
  - destruct (listing (list_reply w)) as [[|first rest]|] eqn:Hl.
    + pose proof (check_workspace_unlisted w Hex (or_introl Hl)) as Hno.
      rewrite Hrun in Hno. simpl in Hno. congruence.
    + rewrite (@check_workspace_listed w (first :: rest) Hex Hl) in Hrun;
        [|discriminate].
      unfold bind at 1 in Hrun.
      assert (Hfirst :
                Client.use_first_workspace (this w) (first :: rest) (after_listing w)
                = (Ok o, w') ->
                exists idv id name,
                  first_workspace_id first = Ok idv /\
                  ToString idv = Ok id /\
                  subst (prop first "Name") = Ok name /\
                  error o = Some (advisory (workspace (this w)) name id) /\
                  workspaceRef (this w') = Some ("/workspace/" ++ id)).
      { intros Hf.
        destruct (use_first_workspace_cases (this w) (first :: rest) (after_listing w))
          as [(f & r & idv & id & name & Hl' & Hid & Hs & Hn & Hrun')|(e & Hrun')];
          rewrite Hrun' in Hf; [|discriminate].
        inversion Hl'; subst f r. inversion Hf; subst.
        exists idv, id, name. repeat split; auto. }
      assert (Hfound :
                forall m,
                  Client.use_workspace m (after_listing w) = (Ok o, w') ->
                  exists name id,
                    subst (prop m "Name") = Ok name /\
                    subst (prop m "ObjectID") = Ok id /\
                    error o = None /\
                    workspaceRef (this w') = Some ("/workspace/" ++ id)).
      { intros m Hf.
        destruct (use_workspace_cases m (after_listing w))
          as [(name & id & Hn & Hi & Hrun')|(e & Hrun')];
          rewrite Hrun' in Hf; [|discriminate].
        inversion Hf; subst. exists name, id. repeat split; auto. }
      destruct (workspaceIsNumeric (this w)) eqn:Hnum;
        [|destruct (is_empty (workspace (this w))) eqn:Hempty];
        unfold ret, Client.find_matching in Hrun;
        cbn [negb andb truthy rally after_listing after_exact_query record] in Hrun.
      * right. destruct (Hfirst Hrun) as (idv & id & name & H).
        exists first, rest, idv, id, name.
        repeat split; try apply H. unfold unmatched. rewrite Hnum. reflexivity.
      * right. destruct (Hfirst Hrun) as (idv & id & name & H).
        exists first, rest, idv, id, name.
        repeat split; try apply H. unfold unmatched. rewrite Hnum, Hempty. reflexivity.
      * destruct (find (name_matches (unicode_toLowerCase (rally w)) (workspace (this w)))
                       (first :: rest))
          as [m|e] eqn:Hfind; [|discriminate].
        destruct (truthy m) eqn:Hm.
        -- left. destruct (Hfound m Hrun) as (name & id & H).
           exists m, name, id. split; [|exact H].
           eapply matched_by_substring; eauto.
        -- right. destruct (Hfirst Hrun) as (idv & id & name & H).
           exists first, rest, idv, id, name.
           repeat split; try apply H.
           unfold unmatched. rewrite Hnum, Hempty, Hfind, Hm. reflexivity.
    + pose proof (check_workspace_unlisted w Hex (or_intror Hl)) as Hno.
      rewrite Hrun in Hno. simpl in Hno. congruence.
  - rewrite (check_workspace_exact _ Hex) in Hrun.
    destruct (use_workspace_cases found (after_exact_query w))
      as [(name & id & Hn & Hi & Hrun')|(e & Hrun')];
      rewrite Hrun' in Hrun; [|discriminate].
    inversion Hrun; subst. left. exists found, name, id.
    repeat split; auto. eapply matched_exactly; eauto.
  - destruct (workspace_query_failed_run w Hping Hex) as (e & _ & Hrun').
    rewrite (ping_ok_run _ Hping) in Hrun'. unfold try_catch in Hrun'.
    rewrite Hrun in Hrun'. inversion Hrun'; subst. discriminate.
Qed.

(** C2, as the code has it. When the query by identifier (numeric token)
    or by exact name (any other token) lists a workspace, and when that
    query lists nothing and the name of a listed workspace contains the
    token, the validation is valid and carries no message at all: a
    substring match is reported like an exact match. The reference it
    stores is made of the [ObjectID] of that workspace (the first one
    matched), for a workspace that has one. A valid outcome carries a
    message exactly when nothing matched and the first listed workspace was
    taken. *)
Theorem advisory_only_on_first_available w :
  (forall found name objectId id,
      ping_ok w = true ->
      matched w found ->
      subst (prop found "Name") = Ok name ->
      prop found "ObjectID" = Ok objectId ->
      is_nullish objectId = false ->
      ToString objectId = Ok id ->
      exists w',
        Client.validateCredentials w = (Ok {| valid := true; error := None |}, w') /\
        workspaceRef (this w') = Some ("/workspace/" ++ id)) /\
  (forall o w',
      Client.validateCredentials w = (Ok o, w') ->
      valid o = true ->
      (error o = None /\ exists found, matched w found)
      \/ (exists first rest name id,
             listing (exact_reply w) = Some [] /\
             listing (list_reply w) = Some (first :: rest) /\
             unmatched w (first :: rest) = true /\
             error o = Some (advisory (workspace (this w)) name id))) /\
  (forall l found,
      find (name_matches (unicode_toLowerCase (rally w)) (workspace (this w))) l
      = Ok found ->
      truthy found = true ->
      exists before after s,
        l = (before ++ found :: after)%list /\
        Forall (fun y =>
                  name_matches (unicode_toLowerCase (rally w)) (workspace (this w)) y
                  = Ok false) before /\
        prop found "Name" = Ok (VStr s) /\
        includes (toLowerCase (unicode_toLowerCase (rally w)) s)
                 (toLowerCase (unicode_toLowerCase (rally w)) (workspace (this w)))
        = true).
Proof.
  split; [|split].
  - intros found name objectId id Hping Hm Hn Ho _ Hi.
    assert (Hid : subst (prop found "ObjectID") = Ok id).
    { unfold subst, rbind. rewrite Ho. exact Hi. }
    rewrite (matched_run Hping Hm Hn Hid). eexists. split; reflexivity.
  - intros o w' Hrun Hv.
    destruct (valid_outcome_cases w Hrun Hv)
      as (_ & [(found & name & id & Hm & _ & _ & He & _)
              |(first & rest & idv & id & name & Hex & Hl & Hun & _ & _ & _ & He & _)]).
    + left. eauto.
    + right. exists first, rest, name, id. auto.
  - intros l found Hfind Htruthy.
    destruct (find_first _ _ Hfind) as [(before & after & Hl & Hbefore & Hacc)|[-> _]];
      [|discriminate].
    apply name_matches_true in Hacc. destruct Hacc as (s & Hname & _ & Hincl).
    exists before, after, s. auto.
Qed.

Lemma advisory_only_on_first_available_witness :
  let w := Sample.client "eta" None Sample.alpha_beta in
  matched w (Sample.ws 2 "Beta") /\
  exists w',
    Client.validateCredentials w = (Ok {| valid := true; error := None |}, w') /\
    workspaceRef (this w') = Some "/workspace/2".
Proof.
  intros w.
  assert (Hm : matched w (Sample.ws 2 "Beta")).
  { apply matched_by_substring with (l := [Sample.ws 1 "Alpha"; Sample.ws 2 "Beta"]);
      reflexivity. }
  split; [exact Hm|].
  destruct (advisory_only_on_first_available w) as (Hmatched & _).
  apply (Hmatched (Sample.ws 2 "Beta") "Beta" (VNum 2) "2");
    [reflexivity|exact Hm|reflexivity|reflexivity|reflexivity|reflexivity].
Defined.

(** C2 fails for the substring match: the token [eta] is no workspace's
    name, the listing has [Beta], whose name contains it, and the outcome
    is valid without any message. *)
Lemma substring_match_carries_no_advisory :
  let w := Sample.client "eta" None Sample.alpha_beta in
  listing (exact_reply w) = Some [] /\
  listing (list_reply w) = Some [Sample.ws 1 "Alpha"; Sample.ws 2 "Beta"] /\
  find (name_matches (unicode_toLowerCase (rally w)) "eta")
       [Sample.ws 1 "Alpha"; Sample.ws 2 "Beta"]
  = Ok (Sample.ws 2 "Beta") /\
  fst (Client.validateCredentials w) = Ok {| valid := true; error := None |} /\
  workspaceRef (this (snd (Client.validateCredentials w))) = Some "/workspace/2".
Proof. repeat split; reflexivity. Qed.

Lemma prefix_app a b : String.prefix a (a ++ b) = true.
Proof.
  induction a as [|c a IH]; simpl.
  - destruct b; reflexivity.
  - destruct (ascii_dec c c); [exact IH|congruence].
Qed.

Lemma append_assoc (a b c : string) : (a ++ b) ++ c = a ++ b ++ c.
Proof. induction a as [|x a IH]; simpl; [reflexivity|now rewrite IH]. Qed.

Lemma includes_prefix hay needle :
  String.prefix needle hay = true -> includes hay needle = true.
Proof. intros H. destruct hay; cbn [includes]; rewrite H; reflexivity. Qed.

Lemma includes_app a b c : includes (a ++ b ++ c) b = true.
Proof.
  induction a as [|x a IH]; simpl.
  - apply includes_prefix, prefix_app.
  - rewrite IH. apply orb_true_r.
Qed.

(** The message names the workspace that was taken. *)
Lemma advisory_names_workspace token name id :
  includes (advisory token name id) name = true.
Proof.
  unfold advisory.
  replace ("Specified workspace " ++ dquote ++ token ++ dquote ++ " not found, using "
           ++ dquote ++ name ++ dquote ++ " (" ++ id ++ ") instead")
    with (("Specified workspace " ++ dquote ++ token ++ dquote ++ " not found, using "
           ++ dquote) ++ name ++ (dquote ++ " (" ++ id ++ ") instead")).
  - apply includes_app.
  - repeat rewrite append_assoc. reflexivity.
Qed.

(** The identifier of the first workspace: its [ObjectID] when it has one,
    else the digits of its [_ref] when the pattern occurs there, else the
    missing [ObjectID] itself. *)
Lemma first_workspace_id_cases first objectId :
  prop first "ObjectID" = Ok objectId ->
  (truthy objectId = true -> first_workspace_id first = Ok objectId) /\
  (truthy objectId = false ->
   forall s, prop first "_ref" = Ok (VStr s) ->
     first_workspace_id first
     = Ok (match match_workspace_ref s with
           | Some digits => VStr digits
           | None => objectId
           end)).
Proof.
  intros Ho. unfold first_workspace_id. rewrite Ho. simpl. split.
  - intros ->. reflexivity.
  - intros -> s ->. simpl.
    destruct (is_empty s) eqn:He; simpl.
    + destruct s; [reflexivity|discriminate].
    + destruct (match_workspace_ref s); reflexivity.
Qed.

(** When nothing matches and the listing is not empty, the validation takes
    the first listed workspace and says so. *)
Lemma fallback_uses_first_workspace w first rest idv id name :
  ping_ok w = true ->
  listing (exact_reply w) = Some [] ->
  listing (list_reply w) = Some (first :: rest) ->
  unmatched w (first :: rest) = true ->
  log_workspaces (first :: rest) = Ok tt ->
  first_workspace_id first = Ok idv ->
  ToString idv = Ok id ->
  subst (prop first "Name") = Ok name ->
  Client.validateCredentials w
  = (Ok {| valid := true; error := Some (advisory (workspace (this w)) name id) |},
     with_reference id (after_listing w)).
Proof.
  intros Hping Hex Hl Hun Hlog Hid Hs Hn.
  rewrite (ping_ok_run _ Hping). unfold try_catch.
  rewrite (@check_workspace_listed w (first :: rest) Hex Hl); [|discriminate].
  unfold unmatched in Hun. unfold bind at 1.
  assert (Hfirst :
            Client.use_first_workspace (this w) (first :: rest) (after_listing w)
            = (Ok {| valid := true;
                     error := Some (advisory (workspace (this w)) name id) |},
               with_reference id (after_listing w))).
  { unfold Client.use_first_workspace, bind, lift. rewrite Hlog. simpl.
    rewrite Hid, Hs. simpl. rewrite Hn. reflexivity. }
  destruct (negb (workspaceIsNumeric (this w)) && negb (is_empty (workspace (this w)))).
  - unfold Client.find_matching.
    cbn [rally after_listing after_exact_query record].
    destruct (find (name_matches (unicode_toLowerCase (rally w)) (workspace (this w)))
                   (first :: rest)) as [m|];
      [|discriminate].
    apply negb_true_iff in Hun. rewrite Hun, Hfirst. reflexivity.
  - unfold ret. simpl. rewrite Hfirst. reflexivity.
Qed.

(** C3 at the input where the code departs from it: the only listed
    workspace has no [ObjectID] and its [_ref] holds no digits, and yet the
    validation is valid and stores a reference made of the missing
    identifier. *)
Theorem fallback_without_identifier_is_valid :
  let w := Sample.client "NoSuchTeam" None Sample.only_without_id in
  listing (list_reply w) = Some [Sample.without_id] /\
  prop Sample.without_id "ObjectID" = Ok VUndefined /\
  match_workspace_ref "https://rally1.rallydev.com/workspace/alpha" = None /\
  fst (Client.validateCredentials w)
  = Ok {| valid := true; error := Some (advisory "NoSuchTeam" "Alpha" "undefined") |} /\
  workspaceRef (this (snd (Client.validateCredentials w))) = Some "/workspace/undefined".
Proof. repeat split; reflexivity. Qed.

Lemma error_status_rejects {A} m (reply : option (http A)) st :
  error_status reply = Some st ->
  race m reply
  = Throw (AxiosError ("Request failed with status code " ++ string_of_Z st) (Some st) true).
Proof.
  destruct reply as [[st' d|msg]|]; simpl; try discriminate.
  destruct ((200 <=? st') && (st' <? 300)); [discriminate|].
  intros H. inversion H. reflexivity.
Qed.

Lemma no_response_rejects {A} m (reply : option (http A)) :
  no_response reply = true ->
  exists msg, race m reply = Throw (AxiosError msg None true).
Proof.
  destruct reply as [[st d|msg]|]; simpl; try discriminate. eauto.
Qed.

Lemma nothing_listed_run w :
  ping_ok w = true ->
  listing (exact_reply w) = Some [] ->
  listing (list_reply w) = Some [] ->
  reported_errors (list_reply w) = [] ->
  Client.validateCredentials w = (Ok no_accessible_workspaces, after_listing w).
Proof.
  intros Hping H1 H2 Herr. rewrite (ping_ok_run _ Hping).
  destruct (listing_found "Workspace request timed out after 30 seconds" _ H1)
    as (resp1 & Hr1 & Hf1).
  destruct (listing_found "Workspace listing timed out after 30 seconds" _ H2)
    as (resp2 & Hr2 & Hf2).
  unfold reported_errors in Herr.
  rewrite (race_ok _ EmptyString _ Hr2) in Herr.
  unfold try_catch, Client.check_workspace, bind at 1 2, self, get_workspace. simpl.
  unfold exact_reply in Hr1. rewrite Hr1, Hf1.
  unfold bind at 1. simpl. unfold list_reply in Hr2.
  rewrite <- app_assoc. simpl. rewrite Hr2, Hf2.
  destruct (found_errors (data resp2)) as [errs|] eqn:Hfe.
  - subst errs. destruct (data resp2) as [[res [[|x l]|]]|]; discriminate.
  - reflexivity.
Qed.

(** The same when the query is answered, finds nothing, and the listing
    of the workspaces fails. *)
Lemma workspace_listing_failed_run w :
  ping_ok w = true ->
  listing (exact_reply w) = Some [] ->
  listing (list_reply w) = None ->
  exists e,
    race "Workspace listing timed out after 30 seconds" (list_reply w) = Throw e /\
    Client.validateCredentials w
    = (Ok {| valid := false;
             error := Some ("Error checking workspace: " ++ message e) |},
       after_listing w).
Proof.
  intros Hping H1 H2. rewrite (ping_ok_run _ Hping).
  destruct (listing_found "Workspace request timed out after 30 seconds" _ H1)
    as (resp1 & Hr1 & Hf1).
  destruct (listing_failed "Workspace listing timed out after 30 seconds" _ H2)
    as (e & He).
  exists e. split; [exact He|].
  unfold try_catch, Client.check_workspace, bind at 1 2, self, get_workspace. simpl.
  unfold exact_reply in Hr1. rewrite Hr1, Hf1.
  unfold bind at 1. simpl. unfold list_reply in He.
  rewrite <- app_assoc. simpl. rewrite He. reflexivity.
Qed.

(** C8, as the code has it. [validateCredentials] never throws: it always
    returns an outcome. A 401 answer to the ping gives the authentication
    failure, a ping that axios reports as unanswered gives the connectivity
    failure, and listings that hold no workspace and report no error give
    the no-accessible-workspaces failure. A ping still pending when the
    30 second timer fires gives a failure that quotes the timer's message.
    A workspace request that fails, the query by identifier or name as
    well as the listing, be it with a 401 answer, without any answer or by
    the timer, gives none of the first two: the outcome says that the
    workspace check failed and quotes the message of the error. *)
Theorem validateCredentials_never_throws w :
  exists o w',
    Client.validateCredentials w = (Ok o, w') /\
    (error_status (ping_reply w) = Some 401 -> o = authentication_failure) /\
    (no_response (ping_reply w) = true -> o = connectivity_failure) /\
    (ping_reply w = None ->
     o = {| valid := false;
            error := Some "Failed to validate credentials: Subscription request timed out after 30 seconds" |}) /\
    (ping_ok w = true ->
     listing (exact_reply w) = Some [] ->
     listing (list_reply w) = Some [] ->
     reported_errors (list_reply w) = [] ->
     o = no_accessible_workspaces) /\
    (ping_ok w = true ->
     listing (exact_reply w) = None ->
     exists e,
       race "Workspace request timed out after 30 seconds" (exact_reply w) = Throw e /\
       o = {| valid := false;
              error := Some ("Error checking workspace: " ++ message e) |}) /\
    (ping_ok w = true ->
     listing (exact_reply w) = Some [] ->
     listing (list_reply w) = None ->
     exists e,
       race "Workspace listing timed out after 30 seconds" (list_reply w) = Throw e /\
       o = {| valid := false;
              error := Some ("Error checking workspace: " ++ message e) |}) /\
    (forall e w1,
       ping_ok w = true ->
       Client.check_workspace (record subscription_request w) = (Throw e, w1) ->
       o = {| valid := false;
              error := Some ("Error checking workspace: " ++ message e) |}).
Proof.
  destruct (validateCredentials_effect w) as (o & w' & Hrun & _).
  exists o, w'. split; [exact Hrun|]. repeat split.
  - intros H.
    rewrite (ping_failed_run w (error_status_rejects _ _ H)) in Hrun.
    simpl in Hrun. inversion Hrun. reflexivity.
  - intros H.
    destruct (no_response_rejects "Subscription request timed out after 30 seconds" _ H)
      as (msg & Hr).
    rewrite (ping_failed_run w Hr) in Hrun. simpl in Hrun. inversion Hrun. reflexivity.
  - intros H.
    rewrite (@ping_failed_run w
               (Error "Subscription request timed out after 30 seconds")) in Hrun;
      [|rewrite H; reflexivity].
    simpl in Hrun. inversion Hrun. reflexivity.
  - intros Hping H1 H2 H3.
    rewrite (nothing_listed_run w Hping H1 H2 H3) in Hrun. inversion Hrun. reflexivity.
  - intros Hping H1.
    destruct (workspace_query_failed_run w Hping H1) as (e & He & Hrun').
    rewrite Hrun' in Hrun. inversion Hrun. eauto.
  - intros Hping H1 H2.
    destruct (workspace_listing_failed_run w Hping H1 H2) as (e & He & Hrun').
    rewrite Hrun' in Hrun. inversion Hrun. eauto.
  - intros e w1 Hping Hcheck.
    rewrite (ping_ok_run _ Hping) in Hrun. unfold try_catch in Hrun.
    rewrite Hcheck in Hrun. inversion Hrun. reflexivity.
Qed.

Lemma validateCredentials_never_throws_witness :
  let w := Sample.client "Alpha" None (Sample.rally_with (Sample.results []) (Sample.results [])) in
  fst (Client.validateCredentials w) = Ok no_accessible_workspaces.
Proof.
  intros w.
  destruct (validateCredentials_never_throws w)
    as (o & w' & Hrun & _ & _ & _ & Hnone & _).
  rewrite Hrun. simpl. f_equal. apply Hnone; reflexivity.
Defined.

(** C8 fails for a 401 answer that is not the ping's: here the ping is
    accepted and the workspace query is answered with status 401, and the
    outcome is the failed workspace check, not the authentication failure. *)
Lemma workspace_query_401_is_not_authentication_failure :
  let w := Sample.client "Alpha" None (Sample.workspace_query_status 401) in
  ping_ok w = true /\
  error_status (exact_reply w) = Some 401 /\
  fst (Client.validateCredentials w)
  = Ok {| valid := false;
          error := Some "Error checking workspace: Request failed with status code 401" |} /\
  fst (Client.validateCredentials w) <> Ok authentication_failure.
Proof. repeat split; try reflexivity. discriminate. Qed.

(** ** The relationship snapshot *)

Lemma prop_artifact hr f :
  prop (or_else hr (VObj [])) f = Ok (lookup f (artifact_fields hr)).
Proof. unfold or_else. destruct hr as [| |[|]|n|s|l|fs]; simpl; try reflexivity.
  - destruct (negb (n =? 0)); reflexivity.
  - destruct (negb (is_empty s)); reflexivity.
Qed.

Lemma read_collection_run f hr r :
  Tools.read_collection f (or_else hr (VObj [])) r
  = Ok (keep_names (artifact_fields hr) f r).
Proof.
  unfold Tools.read_collection, keep_names, keep. rewrite prop_artifact. simpl.
  destruct (truthy (lookup f (artifact_fields hr))) eqn:Ht; [|reflexivity].
  unfold names_of.
  destruct (lookup f (artifact_fields hr)); try discriminate; reflexivity.
Qed.

Lemma read_parent_run hr r :
  Tools.read_parent (or_else hr (VObj [])) r
  = Ok (let p := lookup "Parent" (artifact_fields hr) in
        keep "Parent" p (parent_name p) r).
Proof.
  unfold Tools.read_parent, keep. rewrite prop_artifact. simpl.
  destruct (truthy (lookup "Parent" (artifact_fields hr))) eqn:Ht; [|reflexivity].
  unfold parent_name.
  destruct (lookup "Parent" (artifact_fields hr)); try discriminate; reflexivity.
Qed.

Lemma relationships_of_run raw hr :
  prop raw "HierarchicalRequirement" = Ok hr ->
  Tools.relationships_of raw = Ok (snapshot_of (artifact_fields hr)).
Proof.
  intros Hraw. unfold Tools.relationships_of. rewrite Hraw. unfold rbind at 1.
  repeat (rewrite read_collection_run || rewrite read_parent_run; unfold rbind at 1).
  rewrite read_collection_run. reflexivity.
Qed.

Lemma has_key_keep k f c v r :
  has_key k (keep f c v r) = (String.eqb k f && truthy c) || has_key k r.
Proof.
  unfold keep. destruct (truthy c).
  - rewrite has_key_assign, andb_true_r. reflexivity.
  - rewrite andb_false_r. reflexivity.
Qed.

Lemma lookup_keep k f c v r :
  lookup k (keep f c v r) = if String.eqb k f && truthy c then v else lookup k r.
Proof.
  unfold keep. destruct (truthy c).
  - rewrite lookup_assign, andb_true_r. reflexivity.
  - rewrite andb_false_r. reflexivity.
Qed.

Lemma has_key_snapshot k fields :
  has_key k (snapshot_of fields)
  = existsb (fun f => String.eqb k f && truthy (lookup f fields))
      ["Duplicates"; "Blocker"; "Blocked"; "Parent"; "Children"; "Successors";
       "Predecessors"].
Proof.
  unfold snapshot_of, keep_names. repeat rewrite has_key_keep. reflexivity.
Qed.

Lemma snapshot_keys k fields :
  has_key k (snapshot_of fields) = true ->
  In k read_fields /\ truthy (lookup k fields) = true.
Proof.
  rewrite has_key_snapshot. intros H. apply existsb_exists in H.
  destruct H as (f & Hin & Hf). apply andb_true_iff in Hf. destruct Hf as [Hk Ht].
  apply String.eqb_eq in Hk. subst f. split; [|exact Ht].
  unfold read_fields. simpl in *. intuition.
Qed.

Lemma snapshot_names f fields :
  In f multi_fields ->
  has_key f (snapshot_of fields) = truthy (lookup f fields) /\
  (truthy (lookup f fields) = true ->
   lookup f (snapshot_of fields) = names_of (lookup f fields)).
Proof.
  unfold multi_fields. simpl.
  intros [<-|[<-|[<-|[<-|[<-|[<-|[]]]]]]];
    (split;
     [rewrite has_key_snapshot; simpl;
      repeat rewrite orb_false_r; reflexivity
     |intros Ht; unfold snapshot_of, keep_names;
      repeat rewrite lookup_keep; simpl; rewrite Ht; reflexivity]).
Qed.

Lemma snapshot_parent fields :
  has_key "Parent" (snapshot_of fields) = truthy (lookup "Parent" fields) /\
  (truthy (lookup "Parent" fields) = true ->
   lookup "Parent" (snapshot_of fields) = parent_name (lookup "Parent" fields)).
Proof.
  split.
  - rewrite has_key_snapshot. simpl. repeat rewrite orb_false_r. reflexivity.
  - intros Ht. unfold snapshot_of, keep_names. repeat rewrite lookup_keep. simpl.
    rewrite Ht. reflexivity.
Qed.

Lemma axios_settle_throws {A} (h : http A) e :
  axios_settle h = Throw e -> isAxiosError e = true.
Proof.
  destruct h as [st d|msg]; simpl.
  - destruct ((200 <=? st) && (st <? 300)); intros H; inversion H; reflexivity.
  - intros H. inversion H. reflexivity.
Qed.

Lemma rethrow_axios {A} prefix (h : http value) e w :
  axios_settle h = Throw e ->
  @Client.rethrow A prefix e w = (Throw (Error (prefix ++ message e)), w).
Proof.
  intros H. unfold Client.rethrow. rewrite (axios_settle_throws _ H). reflexivity.
Qed.

(** What the handler makes of each reply. *)
Lemma getRelationships_run artifactId w :
  let w1 := snd (Client.ensureWorkspace w) in
  let q := relationships_request (this w1) artifactId in
  Tools.getRelationships artifactId w
  = (Ok match reply_to w1 q with
        | Ok resp =>
            match Tools.relationships_of (data resp) with
            | Ok snapshot => relationships_text artifactId snapshot
            | Throw e => failure ("Error getting relationships: " ++ message e)
            end
        | Throw e =>
            failure ("Error getting relationships: Failed to get relationships for "
                     ++ artifactId ++ ": " ++ message e)
        end,
     record q w1).
Proof.
  intros w1 q. pose proof (ensureWorkspace_returns w) as Hens. fold w1 in Hens.
  unfold Tools.getRelationships, handler, Client.getRelationships, try_catch, bind.
  rewrite Hens. unfold self, call, lift, ret, reply_to. subst q.
  unfold relationships_request.
  match goal with
  | |- context [axios_settle ?x] => destruct (axios_settle x) as [resp|e] eqn:Hreply
  end.
  - cbn [data]. destruct (Tools.relationships_of (data resp)); reflexivity.
  - rewrite (rethrow_axios _ _ _ Hreply). cbn [message].
    rewrite !append_assoc. reflexivity.
Qed.

Lemma has_key_in k (o : list (string * value)) :
  has_key k o = true <-> In k (map fst o).
Proof.
  induction o as [|[k' v] o IH]; simpl.
  - split; [discriminate|intros []].
  - rewrite orb_true_iff, IH, String.eqb_eq. split; intros [H|H]; auto.
Qed.

Lemma assign_nodup k v o :
  NoDup (map fst o) -> NoDup (map fst (assign k v o)).
Proof.
  induction o as [|[k0 v0] o IH]; simpl; intros H.
  - repeat constructor. intros [].
  - inversion H as [|? ? Hnotin Ho]; subst.
    destruct (String.eqb k k0) eqn:E; simpl.
    + apply String.eqb_eq in E. subst k0. constructor; assumption.
    + constructor; [|auto].
      intros Hin. apply has_key_in in Hin. rewrite has_key_assign in Hin.
      apply orb_true_iff in Hin. destruct Hin as [Hin|Hin].
      * apply String.eqb_eq in Hin. subst k0. rewrite String.eqb_refl in E. discriminate.
      * apply has_key_in in Hin. auto.
Qed.

Lemma snapshot_nodup fields : NoDup (map fst (snapshot_of fields)).
Proof.
  unfold snapshot_of, keep_names, keep.
  repeat match goal with
         | |- NoDup (map fst (if ?c then _ else _)) => destruct c
         | |- NoDup (map fst (assign _ _ _)) => apply assign_nodup
         end; constructor.
Qed.

Lemma has_key_printed_in k o :
  has_key k (printed o) = true -> has_key k o = true.
Proof.
  induction o as [|[k0 v0] o IH]; simpl; [auto|].
  destruct (negb (is_undefined v0)); simpl; intros H.
  - apply orb_true_iff in H. apply orb_true_iff. destruct H; auto.
  - apply orb_true_iff. auto.
Qed.

(** What is printed of an object: the properties it has, but for those
    that hold [undefined]. *)
Lemma has_key_printed k o :
  NoDup (map fst o) ->
  has_key k (printed o) = has_key k o && negb (is_undefined (lookup k o)).
Proof.
  induction o as [|[k0 v0] o IH]; simpl; intros H; [reflexivity|].
  inversion H as [|? ? Hnotin Ho]; subst.
  destruct (String.eqb k k0) eqn:E; simpl.
  - apply String.eqb_eq in E. subst k0.
    destruct (negb (is_undefined v0)) eqn:Hv; simpl.
    + rewrite String.eqb_refl. reflexivity.
    + destruct (has_key k (printed o)) eqn:Hk; [|reflexivity].
      exfalso. apply Hnotin. apply has_key_in. apply has_key_printed_in. exact Hk.
  - destruct (negb (is_undefined v0)); simpl; rewrite ?E; simpl; apply IH; exact Ho.
Qed.

Lemma names_of_defined c : is_undefined (names_of c) = false.
Proof.
  unfold names_of. destruct (prop c "_tagsNameArray") as [names|]; [|reflexivity].
  unfold or_else. destruct (truthy names) eqn:Ht; [|reflexivity].
  destruct names; try reflexivity. discriminate.
Qed.

(** Which of the seven fields the text of the tool shows. *)
Lemma snapshot_printed fields :
  (forall f, In f multi_fields ->
     has_key f (printed (snapshot_of fields)) = truthy (lookup f fields)) /\
  has_key "Parent" (printed (snapshot_of fields))
  = truthy (lookup "Parent" fields)
    && negb (is_undefined (parent_name (lookup "Parent" fields))).
Proof.
  split.
  - intros f Hf. rewrite has_key_printed by apply snapshot_nodup.
    destruct (snapshot_names fields Hf) as [Hkey Hnames]. rewrite Hkey.
    destruct (truthy (lookup f fields)) eqn:Ht; [|reflexivity].
    rewrite (Hnames eq_refl), names_of_defined. reflexivity.
  - rewrite has_key_printed by apply snapshot_nodup.
    destruct (snapshot_parent fields) as [Hkey Hname]. rewrite Hkey.
    destruct (truthy (lookup "Parent" fields)) eqn:Ht; [|reflexivity].
    rewrite (Hname eq_refl). reflexivity.
Qed.

(** C9. The [getRelationships] tool asks the client for the seven fields
    [Predecessors], [Successors], [Children], [Parent], [Blocked],
    [Blocker] and [Duplicates] of the artifact, and for a reply that holds
    a payload its result shows the snapshot built from these fields and
    from nothing else, so [Duplicated] is never in it. A collection field
    is in the snapshot exactly when the artifact has a value for it (the
    code tests the value, so [null] counts as absent), and then holds the
    names of the collection, the empty array when the collection has none;
    [Parent] is there on the same condition and holds the name of the
    parent, and the text shows it when the parent has a name; a field the
    artifact does not have is not in the snapshot. *)
Theorem relationship_snapshot artifactId w resp hr :
  let w1 := snd (Client.ensureWorkspace w) in
  let q := relationships_request (this w1) artifactId in
  reply_to w1 q = Ok resp ->
  prop (data resp) "HierarchicalRequirement" = Ok hr ->
  let fields := artifact_fields hr in
  exists snapshot,
    Tools.getRelationships artifactId w
    = (Ok (relationships_text artifactId snapshot), record q w1) /\
    Tools.relationships_of (data resp) = Ok snapshot /\
    (forall k, has_key k snapshot = true -> In k read_fields) /\
    has_key "Duplicated" snapshot = false /\
    (forall f, In f multi_fields ->
       has_key f snapshot = truthy (lookup f fields) /\
       has_key f (printed snapshot) = truthy (lookup f fields) /\
       (forall c, lookup f fields = VObj c ->
          lookup f snapshot = or_else (lookup "_tagsNameArray" c) (VArr []))) /\
    has_key "Parent" snapshot = truthy (lookup "Parent" fields) /\
    (forall p, lookup "Parent" fields = VObj p ->
       lookup "Parent" snapshot = lookup "_refObjectName" p /\
       has_key "Parent" (printed snapshot)
       = negb (is_undefined (lookup "_refObjectName" p))) /\
    (forall f, has_key f fields = false -> has_key f snapshot = false).
Proof.
  intros w1 q Hreply Hraw fields. exists (snapshot_of fields).
  pose proof (relationships_of_run _ Hraw) as Hrun.
  split.
  { pose proof (getRelationships_run artifactId w) as H. cbv zeta in H.
    fold w1 in H. fold q in H. rewrite Hreply, Hrun in H. exact H. }
  split; [exact Hrun|].
  split; [intros k Hk; apply (snapshot_keys _ _ Hk)|].
  split; [rewrite has_key_snapshot; reflexivity|].
  split.
  { intros f Hf. destruct (snapshot_names fields Hf) as [Hkey Hnames].
    split; [exact Hkey|]. split; [apply (proj1 (snapshot_printed fields) f Hf)|].
    intros c Hc. rewrite Hnames; rewrite Hc; reflexivity. }
  split; [apply snapshot_parent|].
  split.
  { intros p Hp. destruct (snapshot_parent fields) as [_ Hname]. split.
    - rewrite Hname; rewrite Hp; reflexivity.
    - rewrite (proj2 (snapshot_printed fields)). rewrite Hp. reflexivity. }
  intros f Habsent.
  destruct (has_key f (snapshot_of fields)) eqn:Hk; [|reflexivity].
  apply snapshot_keys in Hk. destruct Hk as [_ Ht].
  rewrite (lookup_absent _ _ Habsent) in Ht. discriminate.
Qed.

Lemma relationship_snapshot_witness :
  let hr :=
    VObj [("Predecessors", VObj [("_tagsNameArray", VArr [VStr "US456"])]);
          ("Successors", VObj [("Count", VNum 0)]);
          ("Parent", VObj [("_refObjectName", VStr "Feature1")]);
          ("Blocked", VNull)] in
  let raw := VObj [("HierarchicalRequirement", hr)] in
  let w := Sample.resolved "Alpha" (answering raw) in
  exists snapshot,
    fst (Tools.getRelationships "US1" w) = Ok (relationships_text "US1" snapshot) /\
    lookup "Successors" snapshot = VArr [] /\
    has_key "Blocked" snapshot = false.
Proof.
  intros hr raw w.
  destruct (@relationship_snapshot "US1" w {| status := 200; data := raw |} hr
              eq_refl eq_refl)
    as (snapshot & Hrun & _ & _ & _ & Hmulti & _ & _ & Habsent).
  exists snapshot. split; [rewrite Hrun; reflexivity|]. split.
  - assert (Hin : In "Successors" multi_fields) by (simpl; auto).
    apply (proj2 (proj2 (Hmulti "Successors" Hin)) [("Count", VNum 0)]). reflexivity.
  - assert (Hin : In "Blocked" multi_fields) by (simpl; auto).
    rewrite (proj1 (Hmulti "Blocked" Hin)). reflexivity.
Defined.

(** ** Story payloads *)

Lemma has_key_set_if_truthy k f x v o :
  has_key k (Tools.set_if_truthy f x v o) = (String.eqb k f && truthy x) || has_key k o.
Proof.
  unfold Tools.set_if_truthy. destruct (truthy x).
  - rewrite has_key_assign, andb_true_r. reflexivity.
  - rewrite andb_false_r. reflexivity.
Qed.

Lemma lookup_set_if_defined k f v o :
  lookup k (Tools.set_if_defined f v o)
  = if String.eqb k f && negb (match v with VUndefined => true | _ => false end)
    then v else lookup k o.
Proof.
  unfold Tools.set_if_defined.
  destruct v; simpl; rewrite ?andb_false_r, ?andb_true_r, ?lookup_assign; reflexivity.
Qed.

Lemma rethrow_throws {A} prefix e w :
  exists e', @Client.rethrow A prefix e w = (Throw e', w).
Proof. unfold Client.rethrow, throw. destruct (isAxiosError e); eauto. Qed.

Lemma createStory_sent a w :
  sent (snd (Tools.createStory a w))
  = (sent (snd (Client.ensureWorkspace w))
     ++ [create_request (posted_story (this (snd (Client.ensureWorkspace w)))
                                      (Tools.storyData a))])%list.
Proof.
  pose proof (ensureWorkspace_returns w) as Hens.
  set (w1 := snd (Client.ensureWorkspace w)) in *.
  unfold Tools.createStory. rewrite handler_sent.
  unfold Client.createStory, try_catch, bind.
  rewrite Hens. unfold self, call, lift, ret.
  match goal with
  | |- context [axios_settle ?x] => destruct (axios_settle x)
  end.
  - repeat match goal with
           | |- context [prop ?v ?k] => destruct (prop v k)
           | |- context [subst ?v] => destruct (subst v)
           | |- context [Client.rethrow ?p ?e ?w] =>
               let e' := fresh "e" in
               let H := fresh "H" in
               destruct (@rethrow_throws value p e w) as [e' H]; rewrite H
           end; reflexivity.
  - match goal with
    | |- context [Client.rethrow ?p ?e ?w] =>
        destruct (@rethrow_throws value p e w) as [e' H]; rewrite H
    end. reflexivity.
Qed.

(** C10, as the code has it. The [createStory] tool writes an optional
    field into the story data only when the argument is truthy, so an
    estimate of 0 and an empty state, priority or project identifier are
    dropped; the object posted to Rally then has no [PlanEstimate],
    [ScheduleState] or [Priority]. Its [Project] is not taken from the empty
    identifier either, but it is not left out when the client has a default
    project: the client fills it in. The [updateStory] tool keeps every
    argument that is not [undefined], 0 and the empty string included. *)
Theorem createStory_drops_falsy_fields a u w :
  let w1 := snd (Client.ensureWorkspace w) in
  exists posted,
    sent (snd (Tools.createStory a w)) = (sent w1 ++ [create_request posted])%list /\
    (Tools.cs_estimate a = Some 0 ->
     has_key "PlanEstimate" (Tools.storyData a) = false /\
     has_key "PlanEstimate" posted = false) /\
    (Tools.cs_state a = Some EmptyString ->
     has_key "ScheduleState" (Tools.storyData a) = false /\
     has_key "ScheduleState" posted = false) /\
    (Tools.cs_priority a = Some EmptyString ->
     has_key "Priority" (Tools.storyData a) = false /\
     has_key "Priority" posted = false) /\
    (Tools.cs_projectId a = Some EmptyString ->
     has_key "Project" (Tools.storyData a) = false /\
     lookup "Project" posted = Client.default_project (this w1)) /\
    (Tools.us_estimate u = Some 0 ->
     lookup "PlanEstimate" (Tools.updateData u) = VNum 0) /\
    (Tools.us_state u = Some EmptyString ->
     lookup "ScheduleState" (Tools.updateData u) = VStr EmptyString) /\
    (Tools.us_priority u = Some EmptyString ->
     lookup "Priority" (Tools.updateData u) = VStr EmptyString).
Proof.
  intros w1. exists (posted_story (this w1) (Tools.storyData a)).
  split; [apply createStory_sent|].
  assert (Habsent : forall k,
             String.eqb k "Project" = false ->
             String.eqb k "Workspace" = false ->
             has_key k (Tools.storyData a) = false ->
             has_key k (posted_story (this w1) (Tools.storyData a)) = false).
  { intros k H1 H2 H3. unfold posted_story.
    rewrite !has_key_assign, H1, H2, H3. reflexivity. }
  assert (Hdata : forall k,
             has_key k (Tools.storyData a)
             = (String.eqb k "Priority" && truthy (opt_str (Tools.cs_priority a)))
               || ((String.eqb k "PlanEstimate" && truthy (opt_num (Tools.cs_estimate a)))
               || ((String.eqb k "ScheduleState" && truthy (opt_str (Tools.cs_state a)))
               || ((String.eqb k "Project" && truthy (opt_str (Tools.cs_projectId a)))
               || (String.eqb k "Name" || (String.eqb k "Description" || false)))))).
  { intros k. unfold Tools.storyData. rewrite !has_key_set_if_truthy. reflexivity. }
  split.
  { intros H.
    assert (Hk : has_key "PlanEstimate" (Tools.storyData a) = false)
      by (rewrite Hdata, H; reflexivity).
    split; [exact Hk|apply Habsent; [reflexivity|reflexivity|exact Hk]]. }
  split.
  { intros H.
    assert (Hk : has_key "ScheduleState" (Tools.storyData a) = false)
      by (rewrite Hdata, H; reflexivity).
    split; [exact Hk|apply Habsent; [reflexivity|reflexivity|exact Hk]]. }
  split.
  { intros H.
    assert (Hk : has_key "Priority" (Tools.storyData a) = false)
      by (rewrite Hdata, H; reflexivity).
    split; [exact Hk|apply Habsent; [reflexivity|reflexivity|exact Hk]]. }
  split.
  { intros H.
    assert (Hk : has_key "Project" (Tools.storyData a) = false)
      by (rewrite Hdata, H; reflexivity).
    split; [exact Hk|].
    unfold posted_story, Client.story_project.
    rewrite lookup_assign, (lookup_absent _ _ Hk). reflexivity. }
  unfold Tools.updateData.
  split; [|split]; intros H; rewrite !lookup_set_if_defined, H; simpl.
  - reflexivity.
  - destruct (opt_num (Tools.us_estimate u)), (opt_str (Tools.us_priority u)); reflexivity.
  - reflexivity.
Qed.

Lemma createStory_drops_falsy_fields_witness :
  let a := {| Tools.cs_name := "Story"; Tools.cs_description := None;
              Tools.cs_projectId := None; Tools.cs_state := Some EmptyString;
              Tools.cs_estimate := Some 0; Tools.cs_priority := None |} in
  let u := {| Tools.us_id := "US1"; Tools.us_name := None;
              Tools.us_description := None; Tools.us_state := None;
              Tools.us_estimate := Some 0; Tools.us_priority := None |} in
  Tools.cs_estimate a = Some 0 /\
  has_key "PlanEstimate" (Tools.storyData a) = false /\
  lookup "PlanEstimate" (Tools.updateData u) = VNum 0.
Proof.
  intros a u. split; [reflexivity|].
  destruct (createStory_drops_falsy_fields a u
              (Sample.client "Alpha" None Sample.alpha_found))
    as (posted & _ & Hestimate & _ & _ & _ & Hupdate & _).
  split.
  - apply Hestimate. reflexivity.
  - apply Hupdate. reflexivity.
Defined.

(** C10 fails for the project: with a default project [P1] configured, a
    call whose project identifier is the empty string posts a story whose
    [Project] is the default project, not a story without [Project]. *)
Lemma empty_projectId_posts_default_project :
  let w := Sample.client "Alpha" (Some "P1") Sample.alpha_found in
  let a := {| Tools.cs_name := "Story"; Tools.cs_description := None;
              Tools.cs_projectId := Some EmptyString; Tools.cs_state := None;
              Tools.cs_estimate := None; Tools.cs_priority := None |} in
  sent (snd (Tools.createStory a w))
  = [subscription_request;
     workspace_request (Some (Client.workspaceQuery (this w)));
     create_request [("Name", VStr "Story");
                     ("Description", VUndefined);
                     ("Workspace", VObj [("_ref", VStr "/workspace/1")]);
                     ("Project", VObj [("_ref", VStr "/project/P1")])]].
Proof. reflexivity. Qed.

(** * Further properties *)

(** ** The search for a free port *)

Lemma probe_least available startPort fuel port :
  startPort <= port <= startPort + 100 ->
  Z.of_nat fuel = startPort + 101 - port ->
  (forall q, startPort <= q < port -> available q = false) ->
  exists r,
    Server.probe available startPort fuel port = Some r /\
    match r with
    | Ok p =>
        startPort <= p <= startPort + 100 /\
        available p = true /\
        forall q, startPort <= q < p -> available q = false
    | Throw e =>
        (forall q, startPort <= q <= startPort + 100 -> available q = false) /\
        e = Error ("Unable to find an available port after trying 100 ports starting from "
                   ++ string_of_Z startPort)
    end.
Proof.
  revert port. induction fuel as [|fuel IH]; intros port Hrange Hfuel Hbelow.
  - simpl in Hfuel. lia.
  - cbn [Server.probe]. destruct (available port) eqn:Hport.
    + eexists. split; [reflexivity|]. repeat split; try lia; auto.
    + assert (Hnext : forall q, startPort <= q < port + 1 -> available q = false).
      { intros q Hq. destruct (Z.eq_dec q port) as [->|Hne]; [exact Hport|].
        apply Hbelow. lia. }
      destruct (port + 1 >? startPort + 100) eqn:Hend.
      * eexists. split; [reflexivity|]. split; [|reflexivity].
        intros q Hq. apply Hnext. apply Z.gtb_lt in Hend. lia.
      * assert (Hle : port + 1 <= startPort + 100).
        { pose proof (Zgt_cases (port + 1) (startPort + 100)) as Hc.
          rewrite Hend in Hc. exact Hc. }
        apply IH; [lia|lia|exact Hnext].
Qed.

(** X1. [findAvailablePort] always ends. It returns the lowest port that is
    available among [startPort], ..., [startPort + 100], and it throws
    exactly when none of these 101 ports is available. *)
Theorem findAvailablePort_least available startPort :
  exists r,
    Server.findAvailablePort available startPort = Some r /\
    match r with
    | Ok p =>
        startPort <= p <= startPort + 100 /\
        available p = true /\
        forall q, startPort <= q < p -> available q = false
    | Throw e =>
        (forall q, startPort <= q <= startPort + 100 -> available q = false) /\
        e = Error ("Unable to find an available port after trying 100 ports starting from "
                   ++ string_of_Z startPort)
    end.
Proof.
  apply probe_least; [lia|simpl; lia|intros q Hq; lia].
Qed.

(** ** The levels of the logger *)

(** X2. The methods of the logger are nested by severity: what [debug]
    writes [info] writes, what [info] writes [warn] writes, and [error]
    always writes. An unset or empty [LOG_LEVEL] counts as [info]; with any
    level other than [debug], [info] and [warn], the level [error] of the
    configuration included, only [error] writes. *)
Theorem logger_levels_nested LOG_LEVEL :
  (Server.writes LOG_LEVEL Server.LogDebug = true ->
   Server.writes LOG_LEVEL Server.LogInfo = true) /\
  (Server.writes LOG_LEVEL Server.LogInfo = true ->
   Server.writes LOG_LEVEL Server.LogWarn = true) /\
  Server.writes LOG_LEVEL Server.LogError = true /\
  (forall m, Server.writes None m = Server.writes (Some "info") m) /\
  (forall m, Server.writes (Some EmptyString) m = Server.writes (Some "info") m) /\
  (forall l,
      LOG_LEVEL = Some l -> is_empty l = false ->
      l <> "debug" -> l <> "info" -> l <> "warn" ->
      forall m, Server.writes LOG_LEVEL m = true -> m = Server.LogError).
Proof.
  split.
  { destruct LOG_LEVEL as [l|]; simpl; [|discriminate].
    intros H. apply String.eqb_eq in H. subst l. reflexivity. }
  split.
  { unfold Server.writes. simpl. repeat rewrite orb_false_r.
    intros H. apply orb_true_iff in H. destruct H as [->| ->]; simpl;
      [reflexivity|apply orb_true_r]. }
  split; [reflexivity|].
  split; [intros []; reflexivity|].
  split; [intros []; reflexivity|].
  intros l -> Hl Hd Hi Hw m.
  assert (Ed : String.eqb l "debug" = false) by (apply String.eqb_neq; exact Hd).
  assert (Ei : String.eqb l "info" = false) by (apply String.eqb_neq; exact Hi).
  assert (Ew : String.eqb l "warn" = false) by (apply String.eqb_neq; exact Hw).
  destruct m; unfold Server.writes, Server.level_or_info; simpl;
    rewrite ?Hl; simpl; rewrite ?Ed, ?Ei, ?Ew; simpl; try discriminate.
  reflexivity.
Qed.

Lemma logger_levels_nested_witness :
  Server.writes (Some "error") Server.LogWarn = false /\
  forall m, Server.writes (Some "error") m = true -> m = Server.LogError.
Proof.
  split; [reflexivity|].
  destruct (logger_levels_nested (Some "error")) as (_ & _ & _ & _ & _ & H).
  apply (H "error"); [reflexivity|reflexivity| | |]; discriminate.
Defined.

(** ** The progress tracker *)

Lemma map_get_set {A} k k' (v : A) m :
  Server.map_get k (Server.map_set k' v m)
  = if String.eqb k k' then Some v else Server.map_get k m.
Proof.
  induction m as [|[k0 v0] m IH]; simpl.
  - reflexivity.
  - destruct (String.eqb k' k0) eqn:E; simpl.
    + apply String.eqb_eq in E. subst k0. destruct (String.eqb k k'); reflexivity.
    + rewrite IH. destruct (String.eqb k k0) eqn:E0, (String.eqb k k') eqn:E1;
        try reflexivity.
      apply String.eqb_eq in E0, E1. subst. rewrite String.eqb_refl in E. discriminate.
Qed.

Lemma map_get_delete {A} k k' (m : list (string * A)) :
  Server.map_get k (Server.map_delete k' m)
  = if String.eqb k k' then None else Server.map_get k m.
Proof.
  induction m as [|[k0 v0] m IH]; simpl.
  - destruct (String.eqb k k'); reflexivity.
  - destruct (String.eqb k' k0) eqn:E; simpl.
    + rewrite IH. apply String.eqb_eq in E. subst k0.
      destruct (String.eqb k k'); reflexivity.
    + rewrite IH. destruct (String.eqb k k0) eqn:E0, (String.eqb k k') eqn:E1;
        try reflexivity.
      apply String.eqb_eq in E0, E1. subst. rewrite String.eqb_refl in E. discriminate.
Qed.

Lemma tracker_ok_new : tracker_ok Server.new_tracker.
Proof.
  repeat split; simpl.
  - discriminate.
  - intros i [].
  - constructor.
Qed.

Lemma tracker_ok_start id cb t :
  tracker_ok t -> tracker_ok (fst (Server.startOperation id cb t)).
Proof.
  intros (Hops & Hids & Hnodup). repeat split; simpl.
  - intros id' op. rewrite map_get_set.
    destruct (String.eqb id' id) eqn:E.
    + apply String.eqb_eq in E. subst id'. intros H. inversion H; subst. simpl.
      exists cb. apply in_or_app. right. left. reflexivity.
    + intros H. destruct (Hops _ _ H) as [cb' Hin]. exists cb'.
      apply in_or_app. left. exact Hin.
  - intros i Hin. apply in_app_or in Hin. destruct Hin as [Hin|[<-|[]]].
    + specialize (Hids _ Hin). lia.
    + simpl. lia.
  - rewrite map_app. simpl. apply NoDup_app; [exact Hnodup|repeat constructor; intros []|].
    intros n Hn [<-|[]]. apply in_map_iff in Hn. destruct Hn as (i & Hi & Hin).
    specialize (Hids _ Hin). lia.
Qed.

Lemma tracker_ok_update id p t :
  tracker_ok t -> tracker_ok (Server.updateProgress id p t).
Proof.
  intros Hok. unfold Server.updateProgress.
  destruct (Server.map_get id (Server.operations t)) as [op|] eqn:Hget; [|exact Hok].
  destruct Hok as (Hops & Hids & Hnodup). repeat split; simpl; auto.
  intros id' op'. rewrite map_get_set.
  destruct (String.eqb id' id) eqn:E.
  - apply String.eqb_eq in E. subst id'. intros H. inversion H; subst. simpl.
    apply (Hops _ _ Hget).
  - apply Hops.
Qed.

Lemma tracker_ok_tick n t :
  tracker_ok t -> tracker_ok (fst (Server.tick n t)).
Proof.
  intros Hok. unfold Server.tick.
  destruct (List.find _ (Server.intervals t)) as [i|]; [|exact Hok].
  unfold Server.fire.
  destruct (Server.map_get (Server.operationId i) (Server.operations t)); [|exact Hok].
  simpl. apply tracker_ok_update. exact Hok.
Qed.

Lemma NoDup_map_eq {A B} (f : A -> B) l x y :
  NoDup (map f l) -> In x l -> In y l -> f x = f y -> x = y.
Proof.
  induction l as [|a l IH]; simpl; intros Hnd Hx Hy Hf; [contradiction|].
  inversion Hnd as [|? ? Hnotin Hnd']; subst.
  destruct Hx as [<-|Hx], Hy as [<-|Hy]; auto.
  - exfalso. apply Hnotin. rewrite Hf. apply in_map. exact Hy.
  - exfalso. apply Hnotin. rewrite <- Hf. apply in_map. exact Hx.
Qed.

Lemma NoDup_map_filter {A B} (f : A -> B) (p : A -> bool) l :
  NoDup (map f l) -> NoDup (map f (filter p l)).
Proof.
  induction l as [|a l IH]; simpl; intros Hnd; [constructor|].
  inversion Hnd as [|? ? Hnotin Hnd']; subst.
  destruct (p a); simpl; [|auto].
  constructor; [|auto].
  intros Hin. apply Hnotin. apply in_map_iff in Hin.
  destruct Hin as (x & Hx & Hin). apply filter_In in Hin.
  rewrite <- Hx. apply in_map. apply Hin.
Qed.

Lemma tracker_ok_complete id cb t :
  tracker_ok t -> tracker_ok (fst (Server.completeOperation id cb t)).
Proof.
  intros Hok. unfold Server.completeOperation.
  destruct (Server.map_get id (Server.operations t)) as [op|] eqn:Hget; [|exact Hok].
  destruct Hok as (Hops & Hids & Hnodup). repeat split; simpl.
  - intros id' op'. rewrite map_get_delete.
    destruct (String.eqb id' id) eqn:E; [discriminate|].
    intros H. destruct (Hops _ _ H) as [cb' Hin]. exists cb'.
    apply filter_In. split; [exact Hin|]. simpl.
    apply negb_true_iff. apply Nat.eqb_neq. intros Heq.
    destruct (Hops _ _ Hget) as [cb0 Hin0].
    assert (Hsame := NoDup_map_eq Server.timer_id _ _ _ Hnodup Hin Hin0 Heq).
    inversion Hsame; subst. rewrite String.eqb_refl in E. discriminate.
  - intros i Hin. apply filter_In in Hin. apply Hids, Hin.
  - apply NoDup_map_filter. exact Hnodup.
Qed.

Lemma tracker_ok_step e t :
  tracker_ok t -> tracker_ok (fst (Server.tracker_step e t)).
Proof.
  destruct e; simpl.
  - apply tracker_ok_start.
  - apply tracker_ok_update.
  - apply tracker_ok_tick.
  - apply tracker_ok_complete.
Qed.

Lemma tracker_ok_run es t :
  tracker_ok t -> tracker_ok (fst (Server.tracker_run es t)).
Proof.
  revert t. induction es as [|e es IH]; intros t Hok; simpl; [exact Hok|].
  pose proof (tracker_ok_step e Hok) as Hstep.
  destruct (Server.tracker_step e t) as [t1 out1]. simpl in Hstep.
  specialize (IH _ Hstep).
  destruct (Server.tracker_run es t1) as [t2 out2]. exact IH.
Qed.

(** X3. Whatever sequence of starts, updates, ticks and completions a
    tracker has gone through, every operation it tracks has a running
    interval that reports to it, two tracked operations never share an
    interval, and no callback is ever given a progress above 95 other than
    the 100 of a completion. *)
Theorem tracked_operations_have_intervals es :
  let t := fst (Server.tracker_run es Server.new_tracker) in
  (forall id op,
      Server.map_get id (Server.operations t) = Some op ->
      exists i, In i (Server.intervals t) /\
                Server.timer_id i = Server.timer op /\
                Server.operationId i = id) /\
  (forall id1 id2 op1 op2,
      Server.map_get id1 (Server.operations t) = Some op1 ->
      Server.map_get id2 (Server.operations t) = Some op2 ->
      Server.timer op1 = Server.timer op2 -> id1 = id2) /\
  Forall (fun c => match c with
                   | Server.Called _ p msg =>
                       p <= 95 \/ (p = 100 /\ msg = "Operation completed successfully")
                   end)
         (snd (Server.tracker_run es Server.new_tracker)).
Proof.
  intros t.
  pose proof (tracker_ok_run es tracker_ok_new) as (Hops & Hids & Hnodup).
  fold t in Hops, Hids, Hnodup.
  split; [|split].
  - intros id op Hget. destruct (Hops _ _ Hget) as [cb Hin].
    eexists. split; [exact Hin|]. split; reflexivity.
  - intros id1 id2 op1 op2 H1 H2 Heq.
    destruct (Hops _ _ H1) as [cb1 Hin1]. destruct (Hops _ _ H2) as [cb2 Hin2].
    assert (Hsame := NoDup_map_eq Server.timer_id _ _ _ Hnodup Hin1 Hin2 Heq).
    inversion Hsame. reflexivity.
  - clear. generalize Server.new_tracker. induction es as [|e es IH]; intros t0; simpl.
    + constructor.
    + destruct (Server.tracker_step e t0) as [t1 out1] eqn:Hstep.
      specialize (IH t1). destruct (Server.tracker_run es t1) as [t2 out2].
      simpl in *. apply Forall_app. split; [|exact IH].
      destruct e; simpl in Hstep.
      * inversion Hstep; subst. constructor; [left; lia|constructor].
      * inversion Hstep; subst. constructor.
      * unfold Server.tick in Hstep.
        destruct (List.find _ (Server.intervals t0)) as [i|];
          [|inversion Hstep; constructor].
        unfold Server.fire in Hstep.
        destruct (Server.map_get _ (Server.operations t0));
          inversion Hstep; subst; constructor; [left; lia|constructor].
      * unfold Server.completeOperation in Hstep.
        destruct (Server.map_get _ (Server.operations t0));
          inversion Hstep; subst; constructor; [right; auto|constructor].
Qed.

Lemma find_app {A} (p : A -> bool) l l' :
  List.find p (l ++ l') = match List.find p l with
                          | Some x => Some x
                          | None => List.find p l'
                          end.
Proof.
  induction l as [|a l IH]; simpl; [reflexivity|].
  destruct (p a); [reflexivity|exact IH].
Qed.

Lemma find_none_below (t : Server.tracker) :
  tracker_ok t ->
  List.find (fun i => Nat.eqb (Server.timer_id i) (Server.next_timer t)) (Server.intervals t)
  = None.
Proof.
  intros (_ & Hids & _).
  destruct (List.find _ (Server.intervals t)) as [i|] eqn:Hfind; [|reflexivity].
  apply find_some in Hfind. destruct Hfind as [Hin Heq].
  apply Nat.eqb_eq in Heq. specialize (Hids _ Hin). lia.
Qed.

Lemma find_unique (l : list Server.interval) x :
  NoDup (map Server.timer_id l) -> In x l ->
  List.find (fun i => Nat.eqb (Server.timer_id i) (Server.timer_id x)) l = Some x.
Proof.
  intros Hnd Hin.
  destruct (List.find _ l) as [y|] eqn:Hfind.
  - apply find_some in Hfind. destruct Hfind as [Hy Heq]. apply Nat.eqb_eq in Heq.
    f_equal. exact (NoDup_map_eq Server.timer_id _ _ _ Hnd Hy Hin Heq).
  - exfalso. pose proof (find_none _ _ Hfind _ Hin) as H. cbv beta in H.
    rewrite Nat.eqb_refl in H. discriminate.
Qed.

Lemma filter_all {A} (p : A -> bool) l :
  (forall x, In x l -> p x = true) -> filter p l = l.
Proof.
  induction l as [|a l IH]; simpl; intros H; [reflexivity|].
  rewrite (H a (or_introl eq_refl)). f_equal. apply IH. intros x Hx. apply H. right. exact Hx.
Qed.

Lemma ticks_run n : forall (t : Server.tracker) id cb tau tau' (j : nat),
  List.find (fun i => Nat.eqb (Server.timer_id i) tau) (Server.intervals t)
  = Some {| Server.timer_id := tau; Server.operationId := id; Server.callback := cb |} ->
  Server.map_get id (Server.operations t)
  = Some {| Server.progress := Z.min 95 (5 * Z.of_nat j); Server.timer := tau' |} ->
  let run := Server.tracker_run (repeat (Server.Tick tau) n) t in
  Server.map_get id (Server.operations (fst run))
  = Some {| Server.progress := Z.min 95 (5 * Z.of_nat (j + n)); Server.timer := tau' |} /\
  snd run
  = map (fun k => Server.Called cb (Z.min 95 (5 * Z.of_nat k)) "Operation in progress...")
        (seq (S j) n).
Proof.
  induction n as [|n IH]; intros t id cb tau tau' j Hfind Hget.
  - simpl. rewrite Nat.add_0_r. split; [exact Hget|reflexivity].
  - cbn [repeat Server.tracker_run Server.tracker_step seq map].
    unfold Server.tick. rewrite Hfind. unfold Server.fire.
    cbn [Server.operationId Server.callback]. rewrite Hget.
    unfold Server.updateProgress. rewrite Hget.
    cbn [Server.progress Server.timer].
    assert (Hnew : Z.min 95 (Z.min 95 (5 * Z.of_nat j) + 5) = Z.min 95 (5 * Z.of_nat (S j)))
      by lia.
    rewrite Hnew.
    set (t1 := {| Server.operations := _ |}).
    assert (Hfind1 : List.find (fun i => Nat.eqb (Server.timer_id i) tau) (Server.intervals t1)
                     = Some {| Server.timer_id := tau; Server.operationId := id;
                               Server.callback := cb |}) by exact Hfind.
    assert (Hget1 : Server.map_get id (Server.operations t1)
                    = Some {| Server.progress := Z.min 95 (5 * Z.of_nat (S j));
                              Server.timer := tau' |}).
    { unfold t1. cbn [Server.operations]. rewrite map_get_set, String.eqb_refl.
      reflexivity. }
    destruct (IH t1 id cb tau tau' (S j) Hfind1 Hget1) as [Hops Hout].
    destruct (Server.tracker_run (repeat (Server.Tick tau) n) t1) as [t2 out2].
    cbn [fst snd app] in *. split.
    + rewrite Hops. rewrite <- Nat.add_succ_comm. reflexivity.
    + rewrite Hout. reflexivity.
Qed.

(** X4. An operation that is started and then left to its interval is
    reported once at 0 and then, at the n-th firing, at 5n percent up to
    95, where it stays: after n firings the tracker holds
    [min 95 (5 n)] for it, and the callback has been called with 0 and with
    [min 95 (5 k)] for k = 1 .. n, in this order, whatever the tracker did
    before. *)
Theorem ticks_advance_by_five es id cb n :
  let t0 := fst (Server.tracker_run es Server.new_tracker) in
  let run :=
    Server.tracker_run
      (Server.Start id cb :: repeat (Server.Tick (Server.next_timer t0)) n) t0 in
  Server.map_get id (Server.operations (fst run))
  = Some {| Server.progress := Z.min 95 (5 * Z.of_nat n);
            Server.timer := Server.next_timer t0 |} /\
  snd run
  = Server.Called cb 0 "Starting operation..."
    :: map (fun k => Server.Called cb (Z.min 95 (5 * Z.of_nat k)) "Operation in progress...")
         (seq 1 n).
Proof.
  intros t0 run. unfold run.
  pose proof (tracker_ok_run es tracker_ok_new) as Hok. fold t0 in Hok.
  cbn [Server.tracker_run Server.tracker_step]. unfold Server.startOperation.
  set (t1 := {| Server.operations := _ |}).
  assert (Hfind : List.find (fun i => Nat.eqb (Server.timer_id i) (Server.next_timer t0))
                            (Server.intervals t1)
                  = Some {| Server.timer_id := Server.next_timer t0;
                            Server.operationId := id; Server.callback := cb |}).
  { unfold t1. simpl. rewrite find_app, (find_none_below Hok). simpl.
    rewrite Nat.eqb_refl. reflexivity. }
  assert (Hget : Server.map_get id (Server.operations t1)
                 = Some {| Server.progress := Z.min 95 (5 * Z.of_nat 0);
                           Server.timer := Server.next_timer t0 |}).
  { unfold t1. simpl. rewrite map_get_set, String.eqb_refl. reflexivity. }
  destruct (@ticks_run n t1 id cb (Server.next_timer t0) (Server.next_timer t0) 0 Hfind Hget)
    as [Hops Hout].
  destruct (Server.tracker_run _ t1) as [t2 out2]. simpl in *.
  split; [exact Hops|rewrite Hout; reflexivity].
Qed.

Lemma start_complete (t : Server.tracker) id cb1 cb2 :
  tracker_ok t ->
  Server.tracker_run [Server.Start id cb1; Server.Complete id cb2] t
  = ({| Server.operations :=
          Server.map_delete id
            (Server.map_set id {| Server.progress := 0; Server.timer := Server.next_timer t |}
               (Server.operations t));
        Server.intervals := Server.intervals t;
        Server.next_timer := S (Server.next_timer t) |},
     [Server.Called cb1 0 "Starting operation...";
      Server.Called cb2 100 "Operation completed successfully"]).
Proof.
  intros (_ & Hids & _).
  cbn [Server.tracker_run Server.tracker_step]. unfold Server.startOperation.
  unfold Server.completeOperation. cbn [Server.operations Server.intervals].
  rewrite map_get_set, String.eqb_refl.
  cbn [Server.operations Server.intervals Server.next_timer Server.timer app].
  rewrite filter_app. cbn [filter Server.timer_id]. rewrite Nat.eqb_refl.
  cbn [negb]. rewrite app_nil_r.
  rewrite filter_all; [reflexivity|].
  intros x Hx. apply negb_true_iff, Nat.eqb_neq. specialize (Hids _ Hx). lia.
Qed.

(** X5. Starting an operation under an identifier that is already tracked
    leaks the interval of the first start: the map entry is overwritten
    with the new timer, so completing the operation clears the new interval
    only. The operation is then no longer tracked while the old interval
    still runs; and when the identifier is started once more, the old
    interval advances the new operation and reports to the callback of the
    first start. *)
Theorem restart_leaks_interval es id op cb1 cb2 cb3 :
  let t := fst (Server.tracker_run es Server.new_tracker) in
  Server.map_get id (Server.operations t) = Some op ->
  exists cb0,
    let stale := {| Server.timer_id := Server.timer op; Server.operationId := id;
                    Server.callback := cb0 |} in
    let t' := fst (Server.tracker_run [Server.Start id cb1; Server.Complete id cb2] t) in
    In stale (Server.intervals t) /\
    Server.map_get id (Server.operations t') = None /\
    Server.intervals t' = Server.intervals t /\
    snd (Server.tracker_run [Server.Start id cb3; Server.Tick (Server.timer op)] t')
    = [Server.Called cb3 0 "Starting operation...";
       Server.Called cb0 5 "Operation in progress..."].
Proof.
  intros t Hget.
  pose proof (tracker_ok_run es tracker_ok_new) as Hok. fold t in Hok.
  destruct (Hok) as (Hops & Hids & Hnodup).
  destruct (Hops _ _ Hget) as [cb0 Hin]. exists cb0.
  rewrite (start_complete id cb1 cb2 Hok). cbn [fst].
  split; [exact Hin|]. split.
  { cbn [Server.operations]. rewrite map_get_delete, String.eqb_refl. reflexivity. }
  split; [reflexivity|].
  cbn [Server.tracker_run Server.tracker_step]. unfold Server.startOperation.
  unfold Server.tick. cbn [Server.operations Server.intervals Server.next_timer].
  rewrite find_app.
  pose proof (find_unique _ _ Hnodup Hin) as Hfind. cbn [Server.timer_id] in Hfind.
  rewrite Hfind.
  unfold Server.fire. cbn [Server.operationId Server.operations Server.callback].
  rewrite map_get_set, String.eqb_refl. reflexivity.
Qed.

Lemma restart_leaks_interval_witness :
  exists cb0,
    In {| Server.timer_id := 0; Server.operationId := "op"; Server.callback := cb0 |}
       (Server.intervals (fst (Server.tracker_run [Server.Start "op" 7] Server.new_tracker))).
Proof.
  destruct (@restart_leaks_interval [Server.Start "op" 7] "op"
              {| Server.progress := 0; Server.timer := 0 |} 1 2 3 eq_refl)
    as (cb0 & Hin & _).
  exists cb0. exact Hin.
Defined.

(** ** The line framing of the custom STDIO server *)

Lemma split_lines_rest s :
  Server.split_lines (snd (Server.split_lines s)) = ([], snd (Server.split_lines s)).
Proof.
  induction s as [|c t IH]; [reflexivity|].
  cbn [Server.split_lines]. destruct (Server.split_lines t) as [ls r]. cbn [snd] in IH.
  destruct (Ascii.eqb c (ascii_of_nat 10)) eqn:E; [exact IH|].
  destruct ls as [|l ls']; [|exact IH].
  cbn [snd Server.split_lines]. rewrite IH, E. reflexivity.
Qed.

Lemma split_lines_app a b :
  Server.split_lines (a ++ b)
  = let (la, ra) := Server.split_lines a in
    let (lb, rb) := Server.split_lines (ra ++ b) in
    ((la ++ lb)%list, rb).
Proof.
  induction a as [|c t IH].
  - cbn [Server.split_lines append]. destruct (Server.split_lines b); reflexivity.
  - cbn [append Server.split_lines]. rewrite IH.
    destruct (Server.split_lines t) as [lt rt].
    destruct (Ascii.eqb c (ascii_of_nat 10)) eqn:E.
    + destruct (Server.split_lines (rt ++ b)) as [lb rb]. reflexivity.
    + destruct lt as [|l lt'].
      * cbn [append Server.split_lines].
        destruct (Server.split_lines (rt ++ b)) as [lb rb]. rewrite E.
        destruct lb; reflexivity.
      * destruct (Server.split_lines (rt ++ b)) as [lb rb]. reflexivity.
Qed.

Lemma split_lines_no_newline s :
  includes s Server.newline = false -> Server.split_lines s = ([], s).
Proof.
  induction s as [|c t IH]; [reflexivity|].
  cbn [includes Server.newline String.prefix]. intros H.
  apply orb_false_iff in H. destruct H as [Hc Ht].
  cbn [Server.split_lines]. rewrite (IH Ht).
  destruct (Ascii.eqb c (ascii_of_nat 10)) eqn:E; [|reflexivity].
  apply Ascii.eqb_eq in E. subst c. exfalso.
  destruct (ascii_dec (ascii_of_nat 10) (ascii_of_nat 10)) as [_|n]; [|congruence].
  destruct t; discriminate.
Qed.

Lemma handle_lines_handled parse lines :
  Server.handle_lines parse true lines = (true, []).
Proof.
  induction lines as [|line rest IH]; [reflexivity|].
  cbn [Server.handle_lines]. unfold Server.handle_line.
  destruct (Server.is_blank line); [rewrite IH; reflexivity|].
  destruct (Server.initialize_request parse line) as [[id|]|e]; rewrite IH; reflexivity.
Qed.

Lemma handle_lines_first parse lines :
  Server.handle_lines parse false lines
  = match Server.first_initialize parse lines with
    | Some id => (true, [Server.InitializeResponse id])
    | None => (false, [])
    end.
Proof.
  induction lines as [|line rest IH]; [reflexivity|].
  cbn [Server.handle_lines Server.first_initialize]. unfold Server.handle_line.
  destruct (Server.is_blank line).
  - rewrite IH. destruct (Server.first_initialize parse rest); reflexivity.
  - destruct (Server.initialize_request parse line) as [[id|]|e]; [reflexivity| |];
      rewrite IH; destruct (Server.first_initialize parse rest); reflexivity.
Qed.

Lemma first_initialize_app parse l1 l2 :
  Server.first_initialize parse (l1 ++ l2)
  = match Server.first_initialize parse l1 with
    | Some id => Some id
    | None => Server.first_initialize parse l2
    end.
Proof.
  induction l1 as [|line rest IH]; [reflexivity|].
  cbn [app Server.first_initialize].
  destruct (Server.is_blank line); [exact IH|].
  destruct (Server.initialize_request parse line) as [[id|]|e]; [reflexivity| |]; exact IH.
Qed.

Lemma append_empty_r (s : string) : s ++ EmptyString = s.
Proof. induction s as [|c s IH]; simpl; [reflexivity|now rewrite IH]. Qed.

Lemma receive_from parse chunks : forall st,
  Server.split_lines (Server.buffer st) = ([], Server.buffer st) ->
  snd (Server.receive parse st chunks)
  = if Server.initializationHandled st then []
    else match Server.first_initialize parse
                 (fst (Server.split_lines
                         (Server.buffer st ++ fold_right append EmptyString chunks))) with
         | Some id => [Server.InitializeResponse id]
         | None => []
         end.
Proof.
  induction chunks as [|chunk rest IH]; intros st Hbuf.
  - cbn [Server.receive fold_right snd].
    rewrite append_empty_r, Hbuf. cbn [fst Server.first_initialize].
    destruct (Server.initializationHandled st); reflexivity.
  - cbn [Server.receive fold_right]. unfold Server.on_data.
    rewrite <- append_assoc.
    rewrite (split_lines_app (Server.buffer st ++ chunk)).
    destruct (includes (Server.buffer st ++ chunk) Server.newline) eqn:Hnl.
    + destruct (Server.split_lines (Server.buffer st ++ chunk)) as [lines r] eqn:Hsplit.
      assert (Hr : Server.split_lines r = ([], r)).
      { pose proof (split_lines_rest (Server.buffer st ++ chunk)) as H.
        rewrite Hsplit in H. exact H. }
      destruct (Server.initializationHandled st) eqn:Hh.
      * rewrite handle_lines_handled.
        specialize (IH {| Server.buffer := r; Server.initializationHandled := true |} Hr).
        destruct (Server.receive parse _ rest) as [st2 out2].
        cbn [snd Server.initializationHandled] in *. rewrite IH. reflexivity.
      * rewrite handle_lines_first.
        destruct (Server.split_lines (r ++ fold_right append EmptyString rest))
          as [lb rb] eqn:Hlb.
        cbn [fst]. rewrite first_initialize_app.
        destruct (Server.first_initialize parse lines) as [id|].
        -- specialize (IH {| Server.buffer := r; Server.initializationHandled := true |} Hr).
           destruct (Server.receive parse _ rest) as [st2 out2].
           cbn [snd Server.initializationHandled] in *. rewrite IH. reflexivity.
        -- specialize (IH {| Server.buffer := r; Server.initializationHandled := false |} Hr).
           destruct (Server.receive parse _ rest) as [st2 out2].
           cbn [snd Server.initializationHandled Server.buffer app] in *.
           rewrite IH, Hlb. reflexivity.
    + pose proof (split_lines_no_newline _ Hnl) as Hsplit. rewrite Hsplit.
      specialize (IH {| Server.buffer := Server.buffer st ++ chunk;
                        Server.initializationHandled := Server.initializationHandled st |}
                     Hsplit).
      destruct (Server.receive parse _ rest) as [st2 out2].
      cbn [snd Server.initializationHandled Server.buffer app] in *.
      rewrite IH.
      destruct (Server.split_lines ((Server.buffer st ++ chunk)
                                    ++ fold_right append EmptyString rest)) as [lb rb].
      reflexivity.
Qed.

(** X6. The custom STDIO listener answers the input stream and not its
    chunks: however the bytes arrive, what it writes is one initialize
    response, for the first complete non-blank line of the whole input
    that parses to a message whose method is [initialize], carrying that
    message's id; and nothing when there is no such line. A request split
    over several chunks is answered as if it came in one, lines that fail
    to parse are skipped, and a second initialize request is never
    answered. *)
Theorem initialize_answered_once parse chunks :
  snd (Server.receive parse Server.listening chunks)
  = match Server.first_initialize parse
            (fst (Server.split_lines (fold_right append EmptyString chunks))) with
    | Some id => [Server.InitializeResponse id]
    | None => []
    end.
Proof.
  rewrite (receive_from parse chunks Server.listening eq_refl). reflexivity.
Qed.

(** ** The pattern that reads an identifier off a workspace reference *)

Lemma strip_prefix_some p : forall s rest,
  strip_prefix p s = Some rest -> s = p ++ rest.
Proof.
  induction p as [|a p IH]; intros s rest H; simpl in *.
  - inversion H. reflexivity.
  - destruct s as [|b s]; [discriminate|].
    destruct (Ascii.eqb a b) eqn:E; [|discriminate].
    apply Ascii.eqb_eq in E. subst b. rewrite (IH _ _ H). reflexivity.
Qed.

Lemma prefix_strip p d : forall s,
  String.prefix (p ++ d) s = true ->
  exists rest, strip_prefix p s = Some rest /\ String.prefix d rest = true.
Proof.
  induction p as [|a p IH]; intros s H; simpl in *.
  - exists s. split; [reflexivity|exact H].
  - destruct s as [|b s]; [discriminate|]. simpl in H.
    destruct (ascii_dec a b) as [->|]; [|discriminate].
    rewrite Ascii.eqb_refl. apply IH. exact H.
Qed.

Lemma take_digits_split s :
  exists rest,
    s = take_digits s ++ rest /\ take_digits rest = EmptyString /\
    all_digits (take_digits s) = true.
Proof.
  induction s as [|c s (rest & Hs & Hrest & Hall)]; simpl.
  - exists EmptyString. repeat split.
  - destruct (is_digit c) eqn:E.
    + exists rest. split; [simpl; rewrite <- Hs; reflexivity|].
      split; [exact Hrest|]. simpl. rewrite E, Hall. reflexivity.
    + exists (String c s). split; [reflexivity|]. split; [|reflexivity].
      simpl. rewrite E. reflexivity.
Qed.

Lemma take_digits_prefix d s :
  test_numeric d = true -> String.prefix d s = true ->
  is_empty (take_digits s) = false.
Proof.
  unfold test_numeric. destruct d as [|c d]; [discriminate|].
  simpl. intros Hd Hp. destruct s as [|b s]; [discriminate|]. simpl in Hp.
  destruct (ascii_dec c b) as [->|]; [|discriminate].
  apply andb_true_iff in Hd. destruct Hd as [Hb _]. simpl. rewrite Hb. reflexivity.
Qed.

Lemma strip_prefix_app p r : strip_prefix p (p ++ r) = Some r.
Proof.
  induction p as [|a p IH]; simpl; [reflexivity|].
  rewrite Ascii.eqb_refl. exact IH.
Qed.

Lemma strip_prefix_longer p s r x :
  strip_prefix p s = Some r -> strip_prefix p (s ++ x) = Some (r ++ x).
Proof.
  intros H. apply strip_prefix_some in H. subst s.
  rewrite append_assoc. apply strip_prefix_app.
Qed.

Lemma take_digits_app_empty r x :
  is_empty (take_digits (r ++ x)) = true -> is_empty (take_digits r) = true.
Proof.
  destruct r as [|c r]; [reflexivity|].
  simpl. destruct (is_digit c); [discriminate|reflexivity].
Qed.

Lemma match_workspace_ref_eq s :
  match_workspace_ref s
  = match strip_prefix "/workspace/" s with
    | Some rest =>
        if is_empty (take_digits rest)
        then match s with
             | EmptyString => None
             | String _ t => match_workspace_ref t
             end
        else Some (take_digits rest)
    | None => match s with
              | EmptyString => None
              | String _ t => match_workspace_ref t
              end
    end.
Proof.
  destruct s as [|c t]; [reflexivity|].
  cbn [match_workspace_ref].
  destruct (strip_prefix "/workspace/" (String c t)) as [rest|]; [|reflexivity].
  destruct (is_empty (take_digits rest)); reflexivity.
Qed.

(** X7. The pattern [/\/workspace\/(\d+)/] applied to a reference: a match
    gives the whole run of digits that follows the leftmost
    [/workspace/] with a digit after it, so the identifier is numeric and
    not cut short; and there is no match only when the reference nowhere
    holds [/workspace/] followed by a digit. *)
Theorem match_workspace_ref_finds_digits s :
  match match_workspace_ref s with
  | Some d =>
      test_numeric d = true /\
      exists before rest,
        s = before ++ "/workspace/" ++ d ++ rest /\
        take_digits rest = EmptyString /\
        match_workspace_ref before = None
  | None =>
      forall d, test_numeric d = true -> includes s ("/workspace/" ++ d) = false
  end.
Proof.
  induction s as [|c t IH].
  - simpl. intros d _. reflexivity.
  - rewrite match_workspace_ref_eq.
    destruct (strip_prefix "/workspace/" (String c t)) as [rest|] eqn:Hstrip.
    + destruct (is_empty (take_digits rest)) eqn:Hempty.
      * destruct (match_workspace_ref t) as [d|] eqn:Hrec.
        -- destruct IH as (Hnum & before & rest' & Ht & Hgreedy & Hbefore).
           split; [exact Hnum|].
           exists (String c before), rest'. split; [rewrite Ht; reflexivity|].
           split; [exact Hgreedy|].
           rewrite match_workspace_ref_eq, Hbefore.
           destruct (strip_prefix "/workspace/" (String c before)) as [r0|] eqn:Hs0;
             [|reflexivity].
           replace (is_empty (take_digits r0)) with true; [reflexivity|].
           symmetry.
           pose proof (@strip_prefix_longer _ _ _ ("/workspace/" ++ d ++ rest') Hs0) as Hlong.
           change (String c before ++ "/workspace/" ++ d ++ rest')
             with (String c (before ++ "/workspace/" ++ d ++ rest')) in Hlong.
           rewrite <- Ht, Hstrip in Hlong. inversion Hlong as [Hrest].
           rewrite Hrest in Hempty. exact (take_digits_app_empty _ _ Hempty).
        -- intros d Hd. cbn [includes]. rewrite (IH d Hd), orb_false_r.
           destruct (String.prefix ("/workspace/" ++ d) (String c t)) eqn:Hp;
             [|reflexivity].
           apply prefix_strip in Hp. destruct Hp as (rest' & Hs' & Hpd).
           rewrite Hstrip in Hs'. inversion Hs'; subst rest'.
           rewrite (take_digits_prefix _ _ Hd Hpd) in Hempty. discriminate.
      * destruct (take_digits_split rest) as (rest' & Hrest & Hgreedy & Hall).
        split; [unfold test_numeric; rewrite Hempty, Hall; reflexivity|].
        exists EmptyString, rest'. split.
        -- apply strip_prefix_some in Hstrip. rewrite Hstrip. simpl. 
           rewrite <- Hrest. reflexivity.
        -- split; [exact Hgreedy|reflexivity].
    + destruct (match_workspace_ref t) as [d|] eqn:Hrec.
      * destruct IH as (Hnum & before & rest' & Ht & Hgreedy & Hbefore).
        split; [exact Hnum|].
        exists (String c before), rest'. split; [rewrite Ht; reflexivity|].
        split; [exact Hgreedy|].
        rewrite match_workspace_ref_eq, Hbefore.
        destruct (strip_prefix "/workspace/" (String c before)) as [r0|] eqn:Hs0;
          [|reflexivity].
        exfalso.
        pose proof (@strip_prefix_longer _ _ _ ("/workspace/" ++ d ++ rest') Hs0) as Hlong.
        change (String c before ++ "/workspace/" ++ d ++ rest')
          with (String c (before ++ "/workspace/" ++ d ++ rest')) in Hlong.
        rewrite <- Ht, Hstrip in Hlong. discriminate.
      * intros d Hd. cbn [includes]. rewrite (IH d Hd), orb_false_r.
        destruct (String.prefix ("/workspace/" ++ d) (String c t)) eqn:Hp;
          [|reflexivity].
        apply prefix_strip in Hp. destruct Hp as (rest' & Hs' & _).
        rewrite Hstrip in Hs'. discriminate.
Qed.

(** ** The requests of a validation *)

Lemma use_workspace_sent found w :
  sent (snd (Client.use_workspace found w)) = sent w.
Proof.
  destruct (use_workspace_cases found w) as [(name & id & _ & _ & ->)|(e & ->)];
    reflexivity.
Qed.

Lemma use_first_workspace_sent me l w :
  sent (snd (Client.use_first_workspace me l w)) = sent w.
Proof.
  destruct (use_first_workspace_cases me l w)
    as [(first & rest & idv & id & name & _ & _ & _ & _ & ->)|(e & ->)];
    reflexivity.
Qed.

Lemma guarded_sent (m : M outcome) w :
  sent (snd (try_catch m Client.workspace_failed w)) = sent (snd (m w)).
Proof.
  unfold try_catch, Client.workspace_failed, ret.
  destruct (m w) as [[o|e] w']; reflexivity.
Qed.

Lemma check_workspace_sent w :
  sent (snd (Client.check_workspace (record subscription_request w)))
  = (sent w
     ++ subscription_request
        :: workspace_request (Some (Client.workspaceQuery (this w)))
        :: match listing (exact_reply w) with
           | Some [] => [workspace_request None]
           | _ => []
           end)%list.
Proof.
  destruct (listing (exact_reply w)) as [[|found rest]|] eqn:H1.
  - destruct (listing (list_reply w)) as [[|x l]|] eqn:H2.
    + destruct (listing_found "Workspace request timed out after 30 seconds" _ H1)
        as (resp1 & Hr1 & Hf1).
      destruct (listing_found "Workspace listing timed out after 30 seconds" _ H2)
        as (resp2 & Hr2 & Hf2).
      unfold Client.check_workspace, bind at 1 2, self, get_workspace. simpl.
      unfold exact_reply in Hr1. rewrite Hr1, Hf1.
      unfold bind at 1. simpl. rewrite <- app_assoc. simpl.
      unfold list_reply in Hr2. rewrite Hr2, Hf2.
      destruct (found_errors (data resp2)); [|simpl; rewrite <- !app_assoc; reflexivity].
      unfold bind, lift, ret. destruct (items_to_strings l); simpl;
        rewrite <- !app_assoc; reflexivity.
    + assert (Hne : x :: l <> []) by discriminate.
      rewrite (check_workspace_listed w H1 H2 Hne).
      unfold bind.
      destruct (negb (workspaceIsNumeric (this w)) && negb (is_empty (workspace (this w)))).
      * unfold Client.find_matching.
        destruct (find _ (x :: l)) as [m|e].
        -- destruct (truthy m);
             [rewrite use_workspace_sent|rewrite use_first_workspace_sent];
             simpl; rewrite <- !app_assoc; reflexivity.
        -- simpl. rewrite <- !app_assoc. reflexivity.
      * unfold ret. cbn [truthy]. rewrite use_first_workspace_sent.
        simpl. rewrite <- !app_assoc. reflexivity.
    + destruct (listing_found "Workspace request timed out after 30 seconds" _ H1)
        as (resp1 & Hr1 & Hf1).
      destruct (listing_failed "Workspace listing timed out after 30 seconds" _ H2)
        as (e & He).
      unfold Client.check_workspace, bind at 1 2, self, get_workspace. simpl.
      unfold exact_reply in Hr1. rewrite Hr1, Hf1.
      unfold bind at 1. simpl. rewrite <- app_assoc. simpl.
      unfold list_reply in He. rewrite He. simpl. rewrite <- !app_assoc. reflexivity.
  - rewrite (check_workspace_exact w H1), use_workspace_sent.
    simpl. rewrite <- !app_assoc. reflexivity.
  - destruct (listing_failed "Workspace request timed out after 30 seconds" _ H1)
      as (e & He).
    unfold Client.check_workspace, bind, self, get_workspace. simpl.
    unfold exact_reply in He. rewrite He. simpl. rewrite <- !app_assoc. reflexivity.
Qed.

(** X8. The requests of one validation, in full: the ping of the
    subscription endpoint always; the workspace query by identifier or by
    name only after a ping answered with status 200 and a body; and the
    listing of all workspaces only after that query was answered and found
    nothing. A validation therefore costs one, two or three requests, and
    none of them is sent twice. *)
Theorem validation_request_sequence w :
  sent (snd (Client.validateCredentials w))
  = (sent w
     ++ subscription_request
        :: (if ping_ok w then
              workspace_request (Some (Client.workspaceQuery (this w)))
              :: match listing (exact_reply w) with
                 | Some [] => [workspace_request None]
                 | _ => []
                 end
            else []))%list.
Proof.
  destruct (ping_ok w) eqn:Hping.
  - rewrite (ping_ok_run _ Hping), guarded_sent. apply check_workspace_sent.
  - revert Hping. unfold ping_ok, ping_reply. intros H.
    unfold Client.validateCredentials, try_catch, bind, get_subscription.
    destruct (race EmptyString (subscription (rally w) (sent w))) as [resp|e] eqn:Hr.
    + rewrite (race_ok _ "Subscription request timed out after 30 seconds" _ Hr), H.
      reflexivity.
    + destruct (race_throw _ "Subscription request timed out after 30 seconds" _ Hr)
        as [e' ->].
      destruct (validation_failed_returns e' (record subscription_request w))
        as (o & -> & Ho).
      reflexivity.
Qed.

(** ** Operations and the outcome of the validation they start *)

Lemma perform_sent op w :
  known_relationship op = true ->
  exists q,
    sent (snd (perform op w)) = (sent (snd (Client.ensureWorkspace w)) ++ [q])%list.
Proof.
  intros Hk.
  pose proof (ensureWorkspace_returns w) as Hens.
  set (w1 := snd (Client.ensureWorkspace w)) in *.
  destruct op; simpl in *;
    unfold Client.getStories, Client.getStory, Client.createStory,
      Client.updateStory, Client.deleteStory, Client.getRelationships,
      Client.createRelationship, Client.removeRelationship,
      try_catch, bind; rewrite Hens; unfold self, call, lift, ret;
    try (apply schema_accepts_iff in Hk; destruct Hk as [k ->];
         rewrite collection_of_type_name);
    match goal with
    | |- context [axios_settle ?x] => destruct (axios_settle x)
    end;
    repeat match goal with
      | |- context [prop ?v ?k] => destruct (prop v k)
      end;
    try rewrite rethrow_world; eexists; reflexivity.
Qed.

Lemma no_reference_falsy r :
  Client.no_reference r = true -> truthy (Client.ref_value r) = false.
Proof.
  destruct r as [s|]; simpl; [|reflexivity]. intros ->. reflexivity.
Qed.

(** X9. No story or relationship method looks at the outcome of the
    validation it starts. Whatever the validation reports, the method
    sends its one request on the story endpoint (for a relationship, when
    the type is one of the eight); and after a validation that failed, the
    place where the method writes the workspace reference holds no
    reference: the request goes out unscoped instead of being refused. *)
Theorem failed_validation_does_not_stop_operation op w :
  known_relationship op = true ->
  exists q,
    sent (snd (perform op w)) = (sent (snd (Client.ensureWorkspace w)) ++ [q])%list /\
    story_request q = true /\
    (Client.no_reference (workspaceRef (this w)) = true ->
     succeeded (fst (Client.validateCredentials w)) = false ->
     forall v, written_reference op q = Some v -> truthy v = false).
Proof.
  intros Hk. destruct (perform_sent op w Hk) as [q Hq]. exists q.
  destruct (perform_effect op w) as (new & Hnew & _ & Hall & _).
  rewrite Hq in Hnew. apply app_inv_head in Hnew. subst new.
  inversion Hall as [|? ? [Hstory Href] _]; subst.
  split; [exact Hq|]. split; [exact Hstory|].
  intros Hno Hfail v Hv. rewrite (Href _ Hv).
  rewrite (ensureWorkspace_fresh _ Hno). 
  destruct (validateCredentials_effect w) as (o & w' & Hrun & Heff & _).
  rewrite Hrun in *. simpl in Hfail |- *.
  destruct Heff as (_ & _ & _ & _ & _ & Hkeep). rewrite Hfail in Hkeep.
  rewrite Hkeep. apply no_reference_falsy. exact Hno.
Qed.

Lemma failed_validation_does_not_stop_operation_witness :
  let w := Sample.client "Alpha" None (Sample.workspace_query_status 500) in
  exists q,
    sent (snd (perform (GetStory "US1") w))
    = (sent (snd (Client.ensureWorkspace w)) ++ [q])%list /\
    lookup "workspace" (params q) = VUndefined.
Proof.
  intros w.
  destruct (@failed_validation_does_not_stop_operation (GetStory "US1") w eq_refl)
    as (q & Hsent & _ & Hfalsy).
  exists q. split; [exact Hsent|].
  specialize (Hfalsy eq_refl eq_refl _ eq_refl).
  apply app_inv_head in Hsent. inversion Hsent; subst q. reflexivity.
Defined.

(** ** What the tools and resources make of a reply *)

(** X10. A created story is always placed in the client's workspace: the
    posted object carries the client's reference under [Workspace]
    whatever the caller put there. The caller does choose the project,
    with any truthy [Project], the client's default standing in otherwise;
    and every other field is posted as the caller gave it. *)
Theorem created_story_scope fields w :
  let w1 := snd (Client.ensureWorkspace w) in
  exists posted,
    sent (snd (Client.createStory fields w)) = (sent w1 ++ [create_request posted])%list /\
    lookup "Workspace" posted
    = VObj [("_ref", Client.ref_value (workspaceRef (this w1)))] /\
    lookup "Project" posted
    = or_else (lookup "Project" fields) (Client.default_project (this w1)) /\
    (forall k, k <> "Workspace" -> k <> "Project" ->
               lookup k posted = lookup k fields /\
               has_key k posted = has_key k fields).
Proof.
  intros w1. exists (posted_story (this w1) fields).
  split; [|split; [|split]].
  - pose proof (ensureWorkspace_returns w) as Hens. fold w1 in Hens.
    unfold Client.createStory, try_catch, bind.
    rewrite Hens. unfold self, call, lift, ret.
    match goal with
    | |- context [axios_settle ?x] => destruct (axios_settle x)
    end;
      repeat match goal with
        | |- context [prop ?v ?k] => destruct (prop v k)
        end;
      try rewrite rethrow_world; reflexivity.
  - unfold posted_story. rewrite !lookup_assign. reflexivity.
  - unfold posted_story. rewrite lookup_assign. reflexivity.
  - intros k Hw Hp. apply String.eqb_neq in Hw, Hp.
    unfold posted_story. rewrite !lookup_assign, !has_key_assign, Hw, Hp.
    split; reflexivity.
Qed.

Lemma created_story_scope_witness :
  let w := Sample.resolved "Alpha" Sample.alpha_found in
  let fields := [("Name", VStr "Story");
                 ("Workspace", VObj [("_ref", VStr "/workspace/999")])] in
  exists posted,
    sent (snd (Client.createStory fields w)) = (sent w ++ [create_request posted])%list /\
    lookup "Workspace" posted = VObj [("_ref", VStr "/workspace/1")] /\
    lookup "Name" posted = VStr "Story".
Proof.
  intros w fields.
  destruct (created_story_scope fields w) as (posted & Hsent & Hws & _ & Hrest).
  exists posted. split; [exact Hsent|]. split; [exact Hws|].
  apply (Hrest "Name"); discriminate.
Defined.

(** X11. The [deleteStory] tool never throws and says what Rally said:
    it sends one DELETE for the story, with no workspace and no project
    attached, and reports success exactly when the reply has a 2xx status;
    any other reply, and no reply, comes back as an error result whose text
    is the tool's prefix, the client's prefix and the message of the HTTP
    client. *)
Theorem deleteStory_reports_reply id w :
  let w1 := snd (Client.ensureWorkspace w) in
  Tools.deleteStory id w
  = (Ok match reply_to w1 (story_delete id) with
        | Ok _ => success ("Successfully deleted story " ++ id)
        | Throw e =>
            failure ("Error deleting story: Failed to delete story " ++ id ++ ": "
                     ++ message e)
        end,
     record (story_delete id) w1).
Proof.
  intros w1. pose proof (ensureWorkspace_returns w) as Hens. fold w1 in Hens.
  unfold Tools.deleteStory, handler, Client.deleteStory, try_catch, bind.
  rewrite Hens. unfold call, ret, reply_to, story_delete.
  match goal with
  | |- context [axios_settle ?x] => destruct (axios_settle x) as [resp|e] eqn:Hreply
  end.
  - reflexivity.
  - rewrite (rethrow_axios _ _ _ Hreply). cbn [message].
    rewrite !append_assoc. reflexivity.
Qed.

(** X12. The 30 second limit of the [updateStory] tool limits the wait,
    not the update. With at least one field given, the POST for the story
    is sent in every case, carrying exactly the given fields and no
    workspace; when the timer fires first the tool reports a time-out,
    whatever Rally answers to the request; otherwise it reports success for
    a 2xx reply and the client's error for anything else. *)
Theorem update_timeout_does_not_cancel a w :
  Tools.updateData a <> [] ->
  let w1 := snd (Client.ensureWorkspace w) in
  let q := story_update (Tools.us_id a) (Tools.updateData a) in
  Tools.updateStory a w
  = (Ok (if update_timer_fires (rally w1) (sent w1 ++ [q])
         then failure "Error updating story: Story update timed out after 30 seconds"
         else match reply_to w1 q with
              | Ok _ => success ("Successfully updated story " ++ Tools.us_id a)
              | Throw e =>
                  failure ("Error updating story: Failed to update story "
                           ++ Tools.us_id a ++ ": " ++ message e)
              end),
     record q w1).
Proof.
  intros Hfields w1 q. pose proof (ensureWorkspace_returns w) as Hens. fold w1 in Hens.
  assert (Hlen : (length (Tools.updateData a) =? 0)%nat = false).
  { destruct (Tools.updateData a); [congruence|reflexivity]. }
  unfold Tools.updateStory, handler. rewrite Hlen.
  unfold try_catch at 1, bind at 1, Tools.race_update.
  unfold Client.updateStory, try_catch, bind.
  rewrite Hens. unfold call, ret, reply_to. subst q. unfold story_update.
  match goal with
  | |- context [axios_settle ?x] => destruct (axios_settle x) as [resp|e] eqn:Hreply
  end.
  - cbn [rally sent record]. destruct (update_timer_fires _ _); reflexivity.
  - rewrite (rethrow_axios _ _ _ Hreply).
    cbn [rally sent record message]. rewrite !append_assoc.
    destruct (update_timer_fires _ _); reflexivity.
Qed.

Lemma update_timeout_does_not_cancel_witness :
  let a := {| Tools.us_id := "42"; Tools.us_name := Some "Renamed";
              Tools.us_description := None; Tools.us_state := None;
              Tools.us_estimate := None; Tools.us_priority := None |} in
  let w := Sample.resolved "Alpha" Sample.alpha_found in
  sent (snd (Tools.updateStory a w))
  = (sent w ++ [story_update "42" [("Name", VStr "Renamed")]])%list.
Proof.
  intros a w.
  assert (H : Tools.updateData a <> []) by discriminate.
  rewrite (update_timeout_does_not_cancel a w H). reflexivity.
Defined.

(** X13. The handler of [rally://story/{id}] never throws and turns each
    reply into a result: one GET for the story, scoped by the client's
    workspace and project; a 2xx reply with a truthy body gives one content
    whose address is [rally://story/] followed by the identifier asked for;
    a 2xx reply with an empty body gives no content and the text
    [Story not found]; any other reply gives no content and an error text
    that names the story twice over, by the handler and by the client. *)
Theorem story_resource_reports_reply id w :
  let w1 := snd (Client.ensureWorkspace w) in
  let q := story_get (this w1) id in
  Resources.story id w
  = (Ok match reply_to w1 q with
        | Ok resp =>
            if truthy (data resp)
            then {| Resources.contents :=
                      [{| Resources.uri := "rally://story/" ++ id;
                          Resources.text_of := TextJson EmptyString (data resp) |}];
                    Resources._meta := None |}
            else {| Resources.contents := [];
                    Resources._meta :=
                      Some (Resources.MetaError ("Story not found with ID: " ++ id)) |}
        | Throw e =>
            {| Resources.contents := [];
               Resources._meta :=
                 Some (Resources.MetaError
                         ("Failed to fetch story: Failed to fetch story " ++ id ++ ": "
                          ++ message e)) |}
        end,
     record q w1).
Proof.
  intros w1 q. pose proof (ensureWorkspace_returns w) as Hens. fold w1 in Hens.
  unfold Resources.story, Client.getStory, try_catch, bind.
  rewrite Hens. unfold self, call, ret, reply_to. subst q.
  unfold story_get, own_params.
  match goal with
  | |- context [axios_settle ?x] => destruct (axios_settle x) as [resp|e] eqn:Hreply
  end.
  - cbn [data]. destruct (truthy (data resp)); reflexivity.
  - rewrite (rethrow_axios _ _ _ Hreply). cbn [message].
    rewrite !append_assoc. reflexivity.
Qed.

(** ** The parameters and the results of the stories resource *)

Lemma lookup_spread_last k q : forall a,
  lookup k (spread a (Client.string_params q))
  = match last_value k q with
    | Some v => VStr v
    | None => lookup k a
    end.
Proof.
  unfold spread. induction q as [|[k' v] q IH]; intros a; simpl; [reflexivity|].
  rewrite IH. destruct (last_value k q); [reflexivity|].
  rewrite lookup_assign. destruct (String.eqb k k'); reflexivity.
Qed.

Lemma has_key_spread k b : forall a,
  has_key k (spread a b) = has_key k a || has_key k b.
Proof.
  unfold spread. induction b as [|[k' v] b IH]; intros a; simpl.
  - rewrite orb_false_r. reflexivity.
  - rewrite IH, has_key_assign.
    destruct (String.eqb k k'), (has_key k a), (has_key k b); reflexivity.
Qed.

Lemma set_own_keys k k' v q :
  In k (map fst (Resources.set_own k' v q)) <-> k = k' \/ In k (map fst q).
Proof.
  induction q as [|[k0 v0] q IH]; simpl.
  - split; intros [H|H]; auto.
  - destruct (String.eqb k' k0) eqn:E; simpl.
    + apply String.eqb_eq in E. subst k0. split; intros H; intuition.
    + rewrite IH. split; intros H; intuition.
Qed.

Lemma set_own_nodup k v q :
  NoDup (map fst q) -> NoDup (map fst (Resources.set_own k v q)).
Proof.
  induction q as [|[k0 v0] q IH]; simpl; intros H.
  - repeat constructor. intros [].
  - inversion H as [|? ? Hnotin Hq]; subst.
    destruct (String.eqb k k0) eqn:E; simpl.
    + apply String.eqb_eq in E. subst k0. constructor; assumption.
    + constructor; [|auto].
      rewrite set_own_keys. intros [->|Hin]; [|auto].
      rewrite String.eqb_refl in E. discriminate.
Qed.

Lemma collect_nodup sp : forall acc,
  NoDup (map fst acc) ->
  NoDup (map fst (fold_left (fun q kv => Resources.set_param (fst kv) (snd kv) q) sp acc)).
Proof.
  induction sp as [|[k v] sp IH]; intros acc H; simpl; [exact H|].
  apply IH. unfold Resources.set_param.
  destruct (String.eqb k "__proto__"); [exact H|apply set_own_nodup; exact H].
Qed.

Lemma last_value_none k q :
  last_value k q = None <-> ~ In k (map fst q).
Proof.
  induction q as [|[k' v] q IH]; simpl.
  - split; auto.
  - destruct (last_value k q) as [v'|].
    + split; [discriminate|]. intros H. exfalso.
      assert (Hnone : @None string = Some v' -> False) by discriminate.
      apply Hnone. symmetry. apply (proj2 IH). intros Hin. apply H. auto.
    + destruct (String.eqb k k') eqn:E.
      * apply String.eqb_eq in E. subst k'. split; [discriminate|]. intros H.
        exfalso. apply H. auto.
      * apply String.eqb_neq in E. split; [|reflexivity]. intros _ [H|H].
        -- congruence.
        -- apply (proj1 IH); auto.
Qed.

Lemma last_value_set_own k k' v q :
  NoDup (map fst q) ->
  last_value k (Resources.set_own k' v q)
  = if String.eqb k k' then Some v else last_value k q.
Proof.
  induction q as [|[k0 v0] q IH]; simpl; intros H; [reflexivity|].
  inversion H as [|? ? Hnotin Hq]; subst.
  destruct (String.eqb k' k0) eqn:E; simpl.
  - apply String.eqb_eq in E. subst k0.
    destruct (String.eqb k k') eqn:E1.
    + apply String.eqb_eq in E1. subst k'.
      rewrite (proj2 (last_value_none k q) Hnotin). reflexivity.
    + reflexivity.
  - rewrite (IH Hq). destruct (String.eqb k k'); reflexivity.
Qed.

Lemma last_value_collect k sp : forall acc,
  k <> "__proto__" ->
  NoDup (map fst acc) ->
  last_value k (fold_left (fun q kv => Resources.set_param (fst kv) (snd kv) q) sp acc)
  = match last_value k sp with
    | Some v => Some v
    | None => last_value k acc
    end.
Proof.
  induction sp as [|[k' v] sp IH]; intros acc Hk Hacc; simpl; [reflexivity|].
  assert (Hnd : NoDup (map fst (Resources.set_param k' v acc))).
  { unfold Resources.set_param.
    destruct (String.eqb k' "__proto__"); [exact Hacc|apply set_own_nodup; exact Hacc]. }
  rewrite (IH _ Hk Hnd). destruct (last_value k sp); [reflexivity|].
  unfold Resources.set_param. destruct (String.eqb k' "__proto__") eqn:E.
  - apply String.eqb_eq in E. subst k'.
    apply String.eqb_neq in Hk. rewrite Hk. reflexivity.
  - rewrite last_value_set_own by exact Hacc. destruct (String.eqb k k'); reflexivity.
Qed.

Lemma collect_no_proto sp : forall acc,
  ~ In "__proto__" (map fst acc) ->
  ~ In "__proto__"
       (map fst (fold_left (fun q kv => Resources.set_param (fst kv) (snd kv) q) sp acc)).
Proof.
  induction sp as [|[k v] sp IH]; intros acc H; simpl; [exact H|].
  apply IH. unfold Resources.set_param.
  destruct (String.eqb k "__proto__") eqn:E; [exact H|].
  rewrite set_own_keys. intros [Heq|Hin]; [|auto].
  subst k. discriminate.
Qed.

Lemma has_key_string_params k q :
  has_key k (Client.string_params q) = true <-> In k (map fst q).
Proof.
  induction q as [|[k' v] q IH]; simpl.
  - split; [discriminate|intros []].
  - rewrite orb_true_iff, IH, String.eqb_eq. split; intros [H|H]; auto.
Qed.

Lemma handleStories_sent sp w :
  sent (snd (Resources.handleStories sp w))
  = (sent (snd (Client.ensureWorkspace w))
     ++ [stories_request
           (spread (own_params (this (snd (Client.ensureWorkspace w))))
                   (Client.string_params (Resources.collect_params sp)))])%list.
Proof.
  pose proof (ensureWorkspace_returns w) as Hens.
  set (w1 := snd (Client.ensureWorkspace w)) in *.
  unfold Resources.handleStories, Client.getStories, try_catch, bind.
  rewrite Hens. unfold self, call, lift, ret.
  match goal with
  | |- context [axios_settle ?x] => destruct (axios_settle x) as [resp|e]
  end.
  - destruct (Resources.stories_result (data resp)); reflexivity.
  - destruct (@rethrow_throws value "Failed to fetch stories: " e
                (record (stories_request
                           (spread (own_params (this w1))
                                   (Client.string_params (Resources.collect_params sp))))
                        w1)) as [e' He'].
    unfold stories_request, own_params in He'. rewrite He'. reflexivity.
Qed.

(** X14. The query string of a stories address goes to Rally as it is:
    the handler sends one GET whose parameters are those of the address,
    each with the value of its last occurrence, and the client's workspace
    and project only for the keys the address does not give. An address
    that names a workspace or a project is thus answered from that
    workspace or project, not from the one the client resolved. The key
    [__proto__] is never passed on. *)
Theorem stories_address_sets_parameters searchParams w :
  let w1 := snd (Client.ensureWorkspace w) in
  exists params,
    sent (snd (Resources.handleStories searchParams w))
    = (sent w1 ++ [stories_request params])%list /\
    has_key "__proto__" params = false /\
    forall k,
      k <> "__proto__" ->
      lookup k params
      = match last_value k searchParams with
        | Some v => VStr v
        | None => lookup k (own_params (this w1))
        end.
Proof.
  intros w1. eexists. split; [apply handleStories_sent|]. fold w1. split.
  - rewrite has_key_spread. cbn [own_params has_key String.eqb Ascii.eqb Bool.eqb orb].
    destruct (has_key "__proto__" (Client.string_params (Resources.collect_params searchParams)))
      eqn:H; [|reflexivity].
    apply has_key_string_params in H. exfalso.
    revert H. apply collect_no_proto. intros [].
  - intros k Hk. rewrite lookup_spread_last.
    unfold Resources.collect_params.
    rewrite (@last_value_collect k searchParams [] Hk (NoDup_nil _)).
    destruct (last_value k searchParams); reflexivity.
Qed.

Lemma stories_address_sets_parameters_witness :
  let w := Sample.resolved "Alpha" Sample.alpha_found in
  exists params,
    sent (snd (Resources.handleStories
                 [("workspace", "/workspace/2"); ("pageSize", "5"); ("pageSize", "9")] w))
    = (sent w ++ [stories_request params])%list /\
    lookup "workspace" params = VStr "/workspace/2" /\
    lookup "pageSize" params = VStr "9".
Proof.
  intros w.
  destruct (stories_address_sets_parameters
              [("workspace", "/workspace/2"); ("pageSize", "5"); ("pageSize", "9")] w)
    as (params & Hsent & _ & Hparams).
  exists params. split; [exact Hsent|]. split.
  - apply (Hparams "workspace"). discriminate.
  - apply (Hparams "pageSize"). discriminate.
Defined.

Lemma map_stories_shape stories : forall cs,
  Resources.map_stories stories = Ok cs ->
  Forall2 (fun s c =>
             exists id,
               subst (prop s "ObjectID") = Ok id /\
               c = {| Resources.uri := "rally://story/" ++ id;
                      Resources.text_of := TextJson EmptyString s |})
          stories cs.
Proof.
  induction stories as [|s stories IH]; intros cs H; simpl in H.
  - inversion H. constructor.
  - unfold Resources.story_content, rbind in H.
    destruct (subst (prop s "ObjectID")) as [id|] eqn:Hid; [|discriminate].
    destruct (Resources.map_stories stories) as [cs'|]; [|discriminate].
    inversion H; subst. constructor; [|apply IH; reflexivity].
    exists id. split; [exact Hid|reflexivity].
Qed.

Lemma stories_result_shape d r :
  Resources.stories_result d = Ok r ->
  r = {| Resources.contents := [];
         Resources._meta := Some (Resources.MetaMessage "No stories found") |}
  \/ exists stories,
       prop d "Results" = Ok (VArr stories) /\
       Forall2 (fun s c =>
                  exists id,
                    subst (prop s "ObjectID") = Ok id /\
                    c = {| Resources.uri := "rally://story/" ++ id;
                           Resources.text_of := TextJson EmptyString s |})
               stories (Resources.contents r).
Proof.
  unfold Resources.stories_result.
  destruct (truthy d) eqn:Hd.
  - destruct (prop d "Results") as [results|e] eqn:Hp; simpl; [|discriminate].
    destruct (truthy results) eqn:Hr; simpl.
    + destruct results; try discriminate.
      unfold rbind.
      destruct (Resources.map_stories items) as [cs|] eqn:Hcs; [|discriminate].
      destruct (prop d "TotalResultCount"); [|discriminate].
      destruct (prop d "PageSize"); [|discriminate].
      destruct (prop d "StartIndex"); [|discriminate].
      repeat match goal with
             | |- context [Resources.to_primitive ?v] =>
                 destruct (Resources.to_primitive v); [|discriminate]
             end.
      intros H. inversion H; subst. right. exists items.
      split; [reflexivity|]. apply map_stories_shape. exact Hcs.
    + intros H. inversion H. left. reflexivity.
  - simpl. intros H. inversion H. left. reflexivity.
Qed.

(** X15. The stories handler never throws, and a listing is all or
    nothing. Whatever Rally replies, the handler returns a result: either
    one content for every listed story, in the order of the reply, each
    addressed [rally://story/] followed by the story's own [ObjectID] and
    holding the story as sent; or no content at all. A reply that is not
    2xx gives no content and an error text in which the prefix
    [Failed to fetch stories] stands twice, once from the client and once
    from the handler. *)
Theorem stories_listing_is_all_or_nothing searchParams w :
  let w1 := snd (Client.ensureWorkspace w) in
  let q := stories_request
             (spread (own_params (this w1))
                     (Client.string_params (Resources.collect_params searchParams))) in
  exists r,
    Resources.handleStories searchParams w = (Ok r, record q w1) /\
    match reply_to w1 q with
    | Ok resp =>
        Resources.contents r = [] \/
        exists stories,
          prop (data resp) "Results" = Ok (VArr stories) /\
          Forall2 (fun s c =>
                     exists id,
                       subst (prop s "ObjectID") = Ok id /\
                       c = {| Resources.uri := "rally://story/" ++ id;
                              Resources.text_of := TextJson EmptyString s |})
                  stories (Resources.contents r)
    | Throw e =>
        r = {| Resources.contents := [];
               Resources._meta :=
                 Some (Resources.MetaError
                         ("Failed to fetch stories: Failed to fetch stories: "
                          ++ message e)) |}
    end.
Proof.
  intros w1 q. pose proof (ensureWorkspace_returns w) as Hens. fold w1 in Hens.
  unfold Resources.handleStories, Client.getStories, try_catch, bind.
  rewrite Hens. unfold self, call, lift, ret, reply_to. subst q.
  unfold stories_request, own_params.
  match goal with
  | |- context [axios_settle ?x] => destruct (axios_settle x) as [resp|e] eqn:Hreply
  end.
  - cbn [data].
    destruct (Resources.stories_result (data resp)) as [r|e] eqn:Hres.
    + exists r. split; [reflexivity|].
      destruct (stories_result_shape _ Hres) as [->|Hshape]; [left; reflexivity|].
      right. exact Hshape.
    + eexists. split; [reflexivity|]. left. reflexivity.
  - rewrite (rethrow_axios _ _ _ Hreply). eexists. split; [reflexivity|].
    reflexivity.
Qed.

(** ** The client object over its life *)

Lemma configured_validated c w :
  configured c (this w) -> configured c (this (snd (Client.validateCredentials w))).
Proof.
  intros (Hw & Hp & Hn & Hr).
  destruct (validateCredentials_effect w) as (o & w' & Hrun & Heff & _).
  rewrite Hrun. cbn [snd].
  destruct Heff as (_ & _ & Hw' & Hp' & Hn' & Href).
  repeat split; try congruence.
  intros r Hsome. destruct (valid o).
  - destruct Href as [id Hid]. exists id. congruence.
  - apply Hr. congruence.
Qed.

Lemma configured_ensured c w :
  configured c (this w) -> configured c (this (snd (Client.ensureWorkspace w))).
Proof.
  intros H. destruct (Client.no_reference (workspaceRef (this w))) eqn:Hno.
  - rewrite (ensureWorkspace_fresh _ Hno). apply configured_validated. exact H.
  - rewrite (ensureWorkspace_cached _ Hno). exact H.
Qed.

(** X16. Nothing a client does changes what it was configured with: in
    every world a client can reach, by validations and by story and
    relationship operations in any order and with any replies, its
    workspace token and project are those of the configuration, its
    numeric flag says whether the token is all digits, and the reference it
    holds, if it holds one, begins with [/workspace/]. *)
Theorem client_configuration_is_fixed c b w :
  reachable c b w ->
  workspace (this w) = rallyWorkspace c /\
  project (this w) = rallyProject c /\
  workspaceIsNumeric (this w) = test_numeric (rallyWorkspace c) /\
  forall r, workspaceRef (this w) = Some r -> exists id, r = "/workspace/" ++ id.
Proof.
  intros H. change (configured c (this w)).
  induction H as [|w H IH|op w H IH].
  - repeat split. discriminate.
  - apply configured_validated. exact IH.
  - destruct (perform_effect op w) as (_ & _ & _ & _ & -> & _).
    apply configured_ensured. exact IH.
Qed.

Lemma client_configuration_is_fixed_witness :
  let c := {| rallyApiKey := "key"; rallyWorkspace := "Alpha"; rallyProject := None |} in
  let w := snd (perform (GetStory "US1") (start c Sample.alpha_found)) in
  workspace (this w) = "Alpha" /\ workspaceIsNumeric (this w) = false.
Proof.
  intros c w.
  destruct (@client_configuration_is_fixed c Sample.alpha_found w
              (reach_perform (GetStory "US1") (reach_start c Sample.alpha_found)))
    as (Hw & _ & Hn & _).
  split; [exact Hw|exact Hn].
Defined.

(** ** Creating a relationship and reading it back *)

Lemma relationships_of_keys raw rels k :
  Tools.relationships_of raw = Ok rels ->
  has_key k rels = true -> In k read_fields.
Proof.
  intros Hrels Hk.
  destruct (prop raw "HierarchicalRequirement") as [hr|e] eqn:Hraw.
  - rewrite (relationships_of_run _ Hraw) in Hrels. inversion Hrels; subst.
    apply (snapshot_keys _ _ Hk).
  - unfold Tools.relationships_of in Hrels. rewrite Hraw in Hrels. discriminate.
Qed.

(** X17. What [createRelationship] writes and what the [getRelationships]
    tool shows do not meet for two of the eight kinds. A [Blocker] is
    written to the collection [Blockers] and a [Duplicated] to
    [Duplicated]; neither name occurs in the fields the client asks Rally
    for, and neither is ever a key of what the tool shows, whatever Rally
    replies. For the six other kinds the collection written is asked for,
    and for a reply that holds a payload the text of the tool shows it
    exactly when the payload has a value for it; for [Parent], when that
    value also has a name. *)
Theorem relationship_read_back k c artifactId w :
  Client.collection_of (type_name k) = Ok c ->
  let w1 := snd (Client.ensureWorkspace w) in
  let q := relationships_request (this w1) artifactId in
  if match k with Blocker | Duplicated => true | _ => false end
  then includes Client.relationship_fields c = false /\
       forall r text shown,
         fst (Tools.getRelationships artifactId w) = Ok r ->
         content r = TextJson text (VObj shown) ->
         has_key c shown = false
  else includes Client.relationship_fields c = true /\
       forall resp hr,
         reply_to w1 q = Ok resp ->
         prop (data resp) "HierarchicalRequirement" = Ok hr ->
         exists shown,
           Tools.getRelationships artifactId w
           = (Ok (relationships_text artifactId shown), record q w1) /\
           has_key c (printed shown)
           = truthy (lookup c (artifact_fields hr))
             && match k with
                | Parent => negb (is_undefined (parent_name (lookup c (artifact_fields hr))))
                | _ => true
                end.
Proof.
  intros Hc w1 q. rewrite collection_of_type_name in Hc. inversion Hc; subst c. clear Hc.
  pose proof (getRelationships_run artifactId w) as Hrun. cbv zeta in Hrun.
  fold w1 in Hrun. fold q in Hrun.
  assert (Hnever : forall f, ~ In f read_fields ->
            forall r text shown,
              fst (Tools.getRelationships artifactId w) = Ok r ->
              content r = TextJson text (VObj shown) ->
              has_key f shown = false).
  { intros f Hf r text shown Hr Hcontent. rewrite Hrun in Hr. cbn [fst] in Hr.
    inversion Hr as [Hr']. clear Hr. rewrite <- Hr' in Hcontent.
    destruct (reply_to w1 q) as [resp|e]; [|discriminate].
    destruct (Tools.relationships_of (data resp)) as [rels|e] eqn:Hrels; [|discriminate].
    inversion Hcontent; subst shown.
    destruct (has_key f rels) eqn:Hk; [|reflexivity].
    exfalso. apply Hf. exact (relationships_of_keys _ _ Hrels Hk). }
  assert (Hshown : forall resp hr,
            reply_to w1 q = Ok resp ->
            prop (data resp) "HierarchicalRequirement" = Ok hr ->
            Tools.getRelationships artifactId w
            = (Ok (relationships_text artifactId (snapshot_of (artifact_fields hr))),
               record q w1)).
  { intros resp hr Hreply Hraw.
    rewrite Hrun, Hreply, (relationships_of_run _ Hraw). reflexivity. }
  assert (Hmulti : forall f, In f multi_fields ->
            forall resp hr,
              reply_to w1 q = Ok resp ->
              prop (data resp) "HierarchicalRequirement" = Ok hr ->
              exists shown,
                Tools.getRelationships artifactId w
                = (Ok (relationships_text artifactId shown), record q w1) /\
                has_key f (printed shown)
                = truthy (lookup f (artifact_fields hr)) && true).
  { intros f Hf resp hr Hreply Hraw. eexists. split; [apply (Hshown _ _ Hreply Hraw)|].
    rewrite andb_true_r. apply (proj1 (snapshot_printed _) f Hf). }
  destruct k; cbn [spec_collection]; split;
    try reflexivity;
    try (apply Hmulti; unfold multi_fields; simpl; tauto);
    try (apply Hnever; unfold read_fields; simpl;
         intros H; repeat (destruct H as [H|H]; [discriminate|]); exact H).
  intros resp hr Hreply Hraw. eexists. split; [apply (Hshown _ _ Hreply Hraw)|].
  apply (proj2 (snapshot_printed _)).
Qed.

Lemma relationship_read_back_witness :
  includes Client.relationship_fields "Blockers" = false /\
  includes Client.relationship_fields "Children" = true.
Proof.
  split.
  - exact (proj1 (@relationship_read_back Blocker "Blockers" "US1"
                    (Sample.resolved "Alpha" Sample.alpha_found) eq_refl)).
  - exact (proj1 (@relationship_read_back Child "Children" "US1"
                    (Sample.resolved "Alpha" Sample.alpha_found) eq_refl)).
Defined.
